(** * CommisionSaver: a shallow embedding of the WhatsApp booking layer

    The development follows the JavaScript sources:
    - [routes/webhook.js]   the verification handshake, the event handler and
                            the BOOK / YES / NO command handlers;
    - [models/booking.js], [models/messageLog.js], [models/route.js],
      [models/operator.js]  the SQL statements, read as functions on tables;
    - [services/whatsapp.js], [services/reminder.js], [server.js].

    Tables are lists of rows in rowid order.  Asynchronous handlers are
    programs of a state-and-exception monad over the database and an event
    trace; a handler runs to completion (no interleaving of two handlers is
    modelled).  The outcomes of the outside world (the messaging provider,
    the storage engine, the clock, the case tables of the runtime) are read
    from an environment record. *)

From Stdlib Require Import ZArith List String Ascii Bool Lia Permutation Sorted.
Import ListNotations.

Open Scope string_scope.
Open Scope list_scope.
Open Scope Z_scope.

(** ** JavaScript strings

    A string is held as the bytes of its UTF-8 encoding.  A character is a
    byte that is not a continuation byte (10xxxxxx) taken with the
    continuation bytes that follow it; in well-formed text that is one code
    point.  [String.prototype.toUpperCase] follows the Unicode tables of the
    runtime, which are no part of this repository: it is read from the
    environment, below. *)

Module JsString.

Definition continuation (c : ascii) : bool :=
  let n := N_of_ascii c in ((128 <=? n) && (n <=? 191))%N.

(** [s] does not begin in the middle of a character. *)
Definition headed (s : string) : bool :=
  match s with
  | EmptyString => true
  | String c _ => negb (continuation c)
  end.

(** The characters of a string, in order. *)
Fixpoint chars (s : string) : list string :=
  match s with
  | EmptyString => []
  | String c r =>
      match chars r with
      | x :: xs => if headed x then String c EmptyString :: x :: xs
                   else String c x :: xs
      | [] => [String c EmptyString]
      end
  end.

Definition join (cs : list string) : string := fold_right append EmptyString cs.

(** The UTF-8 encoding of a code point below U+10000. *)
Definition utf8 (cp : N) : string :=
  (if cp <? 128 then String (ascii_of_N cp) EmptyString
   else if cp <? 2048 then
     String (ascii_of_N (192 + cp / 64))
       (String (ascii_of_N (128 + cp mod 64)) EmptyString)
   else
     String (ascii_of_N (224 + cp / 4096))
       (String (ascii_of_N (128 + (cp / 64) mod 64))
          (String (ascii_of_N (128 + cp mod 64)) EmptyString)))%N.

(** WhiteSpace and LineTerminator of ECMAScript, the characters removed by
    [String.prototype.trim] and matched by the regular expression class
    [\s]: TAB, LF, VT, FF, CR, SPACE, U+00A0, U+1680, U+2000 to U+200A,
    U+2028, U+2029, U+202F, U+205F, U+3000 and U+FEFF. *)
Definition white_space : list N :=
  [9; 10; 11; 12; 13; 32; 160; 5760;
   8192; 8193; 8194; 8195; 8196; 8197; 8198; 8199; 8200; 8201; 8202;
   8232; 8233; 8239; 8287; 12288; 65279]%N.

Definition is_space (c : string) : bool :=
  existsb (fun cp => (c =? utf8 cp)%string) white_space.

Fixpoint drop_spaces (cs : list string) : list string :=
  match cs with
  | [] => []
  | c :: r => if is_space c then drop_spaces r else cs
  end.

(** [s.trim()]: white space is removed from both ends. *)
Definition trim (s : string) : string :=
  join (rev (drop_spaces (rev (drop_spaces (chars s))))).

(** The class [[\s+\-()]] of [normalizePhoneNumber]. *)
Definition phone_noise (c : string) : bool :=
  is_space c || (c =? "+")%string || (c =? "-")%string
  || (c =? "(")%string || (c =? ")")%string.

(** [s.replace(/[...]/g, '')]: every character of the class is removed. *)
Definition strip (drop : string -> bool) (s : string) : string :=
  join (filter (fun c => negb (drop c)) (chars s)).

(** JavaScript truthiness of a string value. *)
Definition nonempty (s : string) : bool := negb (s =? "")%string.

End JsString.

(** [normalizePhoneNumber] of routes/webhook.js and services/whatsapp.js. *)
Definition normalizePhoneNumber (phoneNumber : string) : string :=
  JsString.strip JsString.phone_noise phoneNumber.

(** ** GET /whatsapp/webhook: the verification handshake *)

Module Handshake.

(** A value of [req.query]: absent, a string, or what the query parser
    builds from repeated or bracketed keys (an array or an object). *)
Inductive qval : Type :=
| QUndefined
| QString (s : string)
| QNested.

Definition truthy (q : qval) : bool :=
  match q with
  | QUndefined => false
  | QString s => JsString.nonempty s
  | QNested => true
  end.

(** [q === lit] for a string literal. *)
Definition is_string (q : qval) (lit : string) : bool :=
  match q with
  | QString s => (s =? lit)%string
  | _ => false
  end.

(** [q === process.env.X], the variable being a string or undefined. *)
Definition is_env (q : qval) (v : option string) : bool :=
  match q, v with
  | QString s, Some t => (s =? t)%string
  | QUndefined, None => true
  | _, _ => false
  end.

Inductive http_response : Type :=
| Send (status : Z) (body : qval)      (* res.status(n).send(body) *)
| SendStatus (status : Z).             (* res.sendStatus(n) *)

Definition get_webhook (WEBHOOK_VERIFY_TOKEN : option string)
           (mode token challenge : qval) : http_response :=
  if truthy mode && truthy token then
    if is_string mode "subscribe" && is_env token WEBHOOK_VERIFY_TOKEN
    then Send 200 challenge
    else SendStatus 403
  else SendStatus 400.

(** The requests the provider is meant to accept: mode is the literal and
    the token is the (non-empty) configured secret. *)
Definition accepted (secret : option string) (mode token : qval) : Prop :=
  mode = QString "subscribe" /\
  exists s, s <> "" /\ token = QString s /\ secret = Some s.

End Handshake.

(** ** The tables of database.js *)

Module Operator.
Record t : Type := mk
  { id : Z; name : string; phone_number : string; approved : Z }.
End Operator.

Module Route.
(** [price] is a REAL column; it is only ever copied into message texts
    and is kept here as an integer amount. *)
Record t : Type := mk
  { id : Z; operator_id : Z; source : string; destination : string;
    departure_time : string; price : Z }.
End Route.

Module Booking.
(** [status] is a free TEXT column (default 'pending'); [created_at] is
    SQLite's CURRENT_TIMESTAMP, a reading of the clock in whole seconds. *)
Record t : Type := mk
  { id : Z; customer_name : option string; customer_phone : string;
    route_id : Z; journey_date : string; seat_count : Z;
    status : string; created_at : Z }.

Definition with_status (s : string) (b : t) : t :=
  mk (id b) (customer_name b) (customer_phone b) (route_id b)
     (journey_date b) (seat_count b) s (created_at b).
End Booking.

Module MessageLog.
Record t : Type := mk
  { id : Z; booking_id : option Z; type : string; sent_at : Z }.
End MessageLog.

(** A database: the four tables in rowid order and the two AUTOINCREMENT
    counters that the code relies on ([sqlite_sequence]). *)
Record db : Type := mkDb
  { operators : list Operator.t;
    routes : list Route.t;
    bookings : list Booking.t;
    message_logs : list MessageLog.t;
    seq_bookings : Z;
    seq_message_logs : Z }.

Definition set_bookings (d : db) (bs : list Booking.t) (seq : Z) : db :=
  mkDb (operators d) (routes d) bs (message_logs d) seq (seq_message_logs d).

Definition set_message_logs (d : db) (ls : list MessageLog.t) (seq : Z) : db :=
  mkDb (operators d) (routes d) (bookings d) ls (seq_bookings d) seq.

(** The rowid an AUTOINCREMENT table gives to its next row: one more than
    the largest rowid ever used. *)
Definition max_id (ids : list Z) : Z := fold_right Z.max 0 ids.

Definition next_id (seq : Z) (ids : list Z) : Z := Z.max seq (max_id ids) + 1.

(** ** Outbound texts (the template literals of the handlers)

    A text is kept as its template and the rows it interpolates. *)
Inductive wa_text : Type :=
| NoRoutesAvailable
| NewBookingRequest (b : Booking.t) (customerPhone journeyDate : string) (r : Route.t)
| BookingRequestReceived (b : Booking.t) (journeyDate : string) (r : Route.t)
| BookingRequestError
| NoPendingToConfirm
| BookingConfirmed (b : Booking.t) (r : Route.t)
| ConfirmedNotice (id : Z)
| ConfirmError
| NoPendingToReject
| BookingRejected (b : Booking.t) (r : Route.t)
| RejectedNotice (id : Z)
| RejectError
| Reminder (b : Booking.t) (r : Route.t).

(** ** The environment of one run *)

(** The SQL statements the models issue, with their parameters. *)
Inductive sql : Type :=
| SelectOperatorByPhone (phone : string)
| SelectFirstRoute
| SelectRouteById (id : Z)
| InsertBooking (customer_phone : string) (route_id : Z)
| SelectBookingById (id : Z)
| SelectLatestPending
| UpdateBookingStatus (id : Z) (status : string)
| InsertMessageLog (booking_id : option Z) (type : string)
| SelectMessageLogById (id : Z)
| SelectBookingsNeedingReminders.

Record env : Type := mkEnv
  { (* process.env *)
    ACCESS_TOKEN : option string;
    PHONE_NUMBER_ID : option string;
    OPERATOR_PHONE : option string;
    (* the clock: [new Date()] in milliseconds *)
    now : Z;
    (* the YYYY-MM-DD string of the date one calendar day after [now] *)
    tomorrow_iso : string;
    (* currentTime -> its ISO date, a space, its local time of day *)
    time_str : Z -> string;
    (* SQLite's datetime(): None is NULL *)
    datetime : string -> option Z;
    (* String.prototype.toUpperCase of the runtime *)
    toUpperCase : string -> string;
    (* does the provider accept this POST? *)
    api_ok : string -> wa_text -> bool;
    (* does the storage engine run this statement without error? *)
    db_ok : sql -> bool }.

(** ** The monad of handlers: state, trace and exceptions *)

Inductive send_failure : Type :=
| AccessTokenNotSet | PhoneNumberIdNotSet | PhoneNumberRequired | ApiError.

Inductive js_error : Type :=
| TypeError
| DbError (q : sql)
| SendError (why : send_failure).

Inductive event : Type :=
| Respond (status : Z) (body : string)
| WaPost (to : string) (text : wa_text)
| ConsoleLog (line : string)
| ConsoleError (line : string).

Record world : Type := mkWorld { w_db : db; w_trace : list event }.

Inductive result (A : Type) : Type :=
| Ok (a : A)
| Throw (e : js_error).
Arguments Ok {A} a.
Arguments Throw {A} e.

Definition M (A : Type) : Type := world -> result A * world.

Definition ret {A} (a : A) : M A := fun w => (Ok a, w).

Definition bind {A B} (m : M A) (k : A -> M B) : M B :=
  fun w => match m w with
           | (Ok a, w') => k a w'
           | (Throw e, w') => (Throw e, w')
           end.

Definition throw {A} (e : js_error) : M A := fun w => (Throw e, w).

(** [try { m } catch (error) { h error }] *)
Definition try_catch {A} (m : M A) (h : js_error -> M A) : M A :=
  fun w => match m w with
           | (Ok a, w') => (Ok a, w')
           | (Throw e, w') => h e w'
           end.

Definition emit (e : event) : M unit :=
  fun w => (Ok tt, mkWorld (w_db w) (w_trace w ++ [e])).

Declare Scope js_scope.
Delimit Scope js_scope with js.
Notation "x <- m ;; k" := (bind m (fun x => k))
  (at level 61, m at next level, right associativity) : js_scope.
Notation "m ;; k" := (bind m (fun _ => k))
  (at level 61, right associativity) : js_scope.
Notation "'TRY' m 'CATCH' h" := (try_catch m h)
  (at level 62, m at level 61, h at level 61) : js_scope.
Open Scope js_scope.

Fixpoint for_each {A} (l : list A) (body : A -> M unit) : M unit :=
  match l with
  | [] => ret tt
  | x :: r => body x ;; for_each r body
  end.

(** ** The models and services, in an environment *)

Section Program.

Variable E : env.

Definition console_log (line : string) : M unit := emit (ConsoleLog line).
Definition console_error (line : string) : M unit := emit (ConsoleError line).

(** A statement that only reads. *)
Definition db_get {A} (q : sql) (f : db -> A) : M A :=
  fun w => if db_ok E q then (Ok (f (w_db w)), w) else (Throw (DbError q), w).

(** A statement that writes: [f] gives the new database and
    [this.lastID] / [this.changes], or [None] when a constraint fails. *)
Definition db_run {A} (q : sql) (f : db -> option (db * A)) : M A :=
  fun w =>
    if db_ok E q then
      match f (w_db w) with
      | Some (d, a) => (Ok a, mkWorld d (w_trace w))
      | None => (Throw (DbError q), w)
      end
    else (Throw (DbError q), w).

(** *** models/operator.js *)

Definition Operator_findByPhone (phoneNumber : string) : M (option Operator.t) :=
  db_get (SelectOperatorByPhone phoneNumber)
    (fun d => find (fun o => (Operator.phone_number o =? phoneNumber)%string)
                   (operators d)).

(** *** models/route.js *)

Definition select_route (id : Z) (d : db) : option Route.t :=
  find (fun r => Route.id r =? id) (routes d).

Definition Route_findById (id : Z) : M (option Route.t) :=
  db_get (SelectRouteById id) (select_route id).

(** *** models/booking.js *)

Definition select_booking (id : Z) (d : db) : option Booking.t :=
  find (fun b => Booking.id b =? id) (bookings d).

Definition Booking_findById (id : Z) : M (option Booking.t) :=
  db_get (SelectBookingById id) (select_booking id).

(** INSERT INTO bookings: the foreign key on [route_id] is enforced
    (PRAGMA foreign_keys = ON); [created_at] takes its default. *)
Definition insert_booking (customer_name : option string)
           (customer_phone : string) (route_id : Z) (journey_date : string)
           (seat_count : Z) (status : string) (d : db) : option (db * Z) :=
  match select_route route_id d with
  | None => None
  | Some _ =>
      let lastID := next_id (seq_bookings d) (map Booking.id (bookings d)) in
      let row := Booking.mk lastID customer_name customer_phone route_id
                            journey_date seat_count status (now E / 1000) in
      Some (set_bookings d (bookings d ++ [row]) lastID, lastID)
  end.

Definition Booking_create (customer_name : option string)
           (customer_phone : string) (route_id : Z) (journey_date : string)
           (seat_count : Z) (status : string) : M (option Booking.t) :=
  lastID <- db_run (InsertBooking customer_phone route_id)
              (insert_booking customer_name customer_phone route_id
                              journey_date seat_count status) ;;
  Booking_findById lastID.

(** UPDATE bookings SET status = ? WHERE id = ?
    The second component is [this.changes], the number of rows matched. *)
Definition set_status (id : Z) (status : string) (bs : list Booking.t)
  : list Booking.t :=
  map (fun b => if Booking.id b =? id then Booking.with_status status b else b) bs.

Definition update_status (id : Z) (status : string) (d : db) : db * Z :=
  (set_bookings d (set_status id status (bookings d)) (seq_bookings d),
   Z.of_nat (List.length (filter (fun b => Booking.id b =? id) (bookings d)))).

Definition Booking_updateStatus (id : Z) (status : string) : M (option Booking.t) :=
  changes <- db_run (UpdateBookingStatus id status)
               (fun d => Some (update_status id status d)) ;;
  if changes =? 0 then ret None else Booking_findById id.

(** *** models/messageLog.js *)

Definition select_message_log (id : Z) (d : db) : option MessageLog.t :=
  find (fun l => MessageLog.id l =? id) (message_logs d).

Definition insert_message_log (booking_id : option Z) (type : string)
           (d : db) : option (db * Z) :=
  let fk := match booking_id with
            | None => true
            | Some b => match select_booking b d with Some _ => true | None => false end
            end in
  if fk then
    let lastID := next_id (seq_message_logs d) (map MessageLog.id (message_logs d)) in
    let row := MessageLog.mk lastID booking_id type (now E) in
    Some (set_message_logs d (message_logs d ++ [row]) lastID, lastID)
  else None.

Definition MessageLog_create (booking_id : option Z) (type : string)
  : M (option MessageLog.t) :=
  lastID <- db_run (InsertMessageLog booking_id type)
              (insert_message_log booking_id type) ;;
  db_get (SelectMessageLogById lastID) (select_message_log lastID).

(** *** services/whatsapp.js *)

Definition unset (v : option string) : bool :=
  match v with
  | None => true
  | Some s => negb (JsString.nonempty s)
  end.

(** The guard on an empty [message] never fires: every text the handlers
    build is a non-empty template.  A failed POST is logged and rethrown. *)
Definition sendMessage (phoneNumber : string) (message : wa_text) : M unit :=
  if unset (ACCESS_TOKEN E) then throw (SendError AccessTokenNotSet)
  else if unset (PHONE_NUMBER_ID E) then throw (SendError PhoneNumberIdNotSet)
  else if negb (JsString.nonempty phoneNumber) then throw (SendError PhoneNumberRequired)
  else
    let normalizedPhone := normalizePhoneNumber phoneNumber in
    if api_ok E normalizedPhone message
    then emit (WaPost normalizedPhone message)
    else console_error "WhatsApp API Error" ;; throw (SendError ApiError).

(** *** routes/webhook.js *)

(** Reading a property of a value that may be [null] or [undefined]. *)
Definition deref {A} (o : option A) : M A :=
  match o with
  | Some a => ret a
  | None => throw TypeError
  end.

(** [process.env.X || fallback] *)
Definition env_or (v : option string) (fallback : string) : string :=
  match v with
  | Some s => if JsString.nonempty s then s else fallback
  | None => fallback
  end.

(** ORDER BY id ASC LIMIT 1 *)
Fixpoint lowest_id (l : list Route.t) : option Route.t :=
  match l with
  | [] => None
  | r :: l' =>
      match lowest_id l' with
      | None => Some r
      | Some r' => if Route.id r <=? Route.id r' then Some r else Some r'
      end
  end.

Definition getFirstRoute : M (option Route.t) :=
  db_get SelectFirstRoute (fun d => lowest_id (routes d)).

(** ORDER BY created_at DESC LIMIT 1.  SQL leaves the choice among rows of
    equal [created_at] open; the earliest such row is taken here. *)
Fixpoint latest (l : list Booking.t) : option Booking.t :=
  match l with
  | [] => None
  | b :: l' =>
      match latest l' with
      | None => Some b
      | Some b' =>
          if Booking.created_at b' <=? Booking.created_at b then Some b else Some b'
      end
  end.

Definition is_pending (b : Booking.t) : bool := (Booking.status b =? "pending")%string.

Definition latest_pending (d : db) : option Booking.t :=
  latest (filter is_pending (bookings d)).

Definition getLatestPendingBooking : M (option Booking.t) :=
  db_get SelectLatestPending latest_pending.

Definition createBooking (customerPhone : string) : M unit :=
  TRY
    (route <- getFirstRoute ;;
     match route with
     | None =>
         console_error "No routes found in database. Cannot create booking." ;;
         sendMessage customerPhone NoRoutesAvailable
     | Some route =>
         let journeyDate := tomorrow_iso E in
         created <- Booking_create (Some "Customer") customerPhone (Route.id route)
                      journeyDate 1 "pending" ;;
         booking <- deref created ;;
         console_log "Booking created" ;;
         operator <- Operator_findByPhone (env_or (OPERATOR_PHONE E) "1234567890") ;;
         match operator with
         | None => console_error "No operator found. Cannot send notification."
         | Some operator =>
             found <- Route_findById (Route.id route) ;;
             routeDetails <- deref found ;;
             sendMessage (Operator.phone_number operator)
               (NewBookingRequest booking customerPhone journeyDate routeDetails) ;;
             MessageLog_create (Some (Booking.id booking)) "notification" ;;
             sendMessage customerPhone
               (BookingRequestReceived booking journeyDate routeDetails) ;;
             console_log "Booking notification sent to operator and customer"
         end
     end)
  CATCH (fun error =>
    console_error "Error creating booking" ;;
    (TRY sendMessage customerPhone BookingRequestError
     CATCH (fun notifyError => console_error "Error notifying customer"))).

Definition confirmBooking (operatorPhone : string) : M unit :=
  TRY
    (booking <- getLatestPendingBooking ;;
     match booking with
     | None =>
         console_log "No pending bookings found for confirmation" ;;
         sendMessage operatorPhone NoPendingToConfirm
     | Some booking =>
         updatedBooking <- Booking_updateStatus (Booking.id booking) "confirmed" ;;
         match updatedBooking with
         | None => console_error "Failed to update booking status"
         | Some _ =>
             console_log "Booking confirmed by operator" ;;
             found <- Route_findById (Booking.route_id booking) ;;
             route <- deref found ;;
             sendMessage (Booking.customer_phone booking)
               (BookingConfirmed booking route) ;;
             MessageLog_create (Some (Booking.id booking)) "confirmation" ;;
             sendMessage operatorPhone (ConfirmedNotice (Booking.id booking)) ;;
             console_log "Booking confirmation sent to customer"
         end
     end)
  CATCH (fun error =>
    console_error "Error confirming booking" ;;
    (TRY sendMessage operatorPhone ConfirmError
     CATCH (fun notifyError => console_error "Error notifying operator"))).

Definition rejectBooking (operatorPhone : string) : M unit :=
  TRY
    (booking <- getLatestPendingBooking ;;
     match booking with
     | None =>
         console_log "No pending bookings found for rejection" ;;
         sendMessage operatorPhone NoPendingToReject
     | Some booking =>
         updatedBooking <- Booking_updateStatus (Booking.id booking) "rejected" ;;
         match updatedBooking with
         | None => console_error "Failed to update booking status"
         | Some _ =>
             console_log "Booking rejected by operator" ;;
             found <- Route_findById (Booking.route_id booking) ;;
             route <- deref found ;;
             sendMessage (Booking.customer_phone booking)
               (BookingRejected booking route) ;;
             MessageLog_create (Some (Booking.id booking)) "rejection" ;;
             sendMessage operatorPhone (RejectedNotice (Booking.id booking)) ;;
             console_log "Booking rejection sent to customer"
         end
     end)
  CATCH (fun error =>
    console_error "Error rejecting booking" ;;
    (TRY sendMessage operatorPhone RejectError
     CATCH (fun notifyError => console_error "Error notifying operator"))).

(** [messageText] arrives upper-cased and trimmed. *)
Definition handleCustomerMessage (phoneNumber messageText : string) : M unit :=
  if (messageText =? "BOOK")%string then createBooking phoneNumber
  else console_log "Customer sent unrecognized message".

Definition handleOperatorMessage (phoneNumber messageText : string) : M unit :=
  if (messageText =? "YES")%string then confirmBooking phoneNumber
  else if (messageText =? "NO")%string then rejectBooking phoneNumber
  else console_log "Operator sent unrecognized message".

(** The payload of an event delivery, as far as the handler reads it. *)
Record wa_message : Type := mkMessage
  { from : option string;          (* message.from *)
    kind : option string;          (* message.type *)
    text_body : option string }.   (* message.text?.body *)

Record wa_value : Type := mkValue { messages : option (list wa_message) }.
Record wa_change : Type := mkChange { value : option wa_value }.
Record wa_entry : Type := mkEntry { changes : option (list wa_change) }.
Record wa_body : Type := mkBody { entry : option (list wa_entry) }.

(** [body.entry[0].changes[0]], when every link of the chain is there. *)
Definition first_change (body : wa_body) : option wa_change :=
  match entry body with
  | Some (e :: _) =>
      match changes e with
      | Some (c :: _) => Some c
      | _ => None
      end
  | _ => None
  end.

(** [change.value.messages[0]], when every link of the chain is there. *)
Definition first_message (change : wa_change) : option wa_message :=
  match value change with
  | Some v =>
      match messages v with
      | Some (m :: _) => Some m
      | _ => None
      end
  | None => None
  end.

Definition is_text (k : option string) : bool :=
  match k with
  | Some t => (t =? "text")%string
  | None => false
  end.

(** [message.text?.body || ''] *)
Definition body_or_empty (t : option string) : string :=
  match t with
  | Some s => s
  | None => ""
  end.

(** POST /whatsapp/webhook: the statements of the [try] block. *)
Definition webhook_try_block (body : wa_body) : M unit :=
    (emit (Respond 200 "OK") ;;
     match first_change body with
     | None => console_log "Invalid webhook payload structure"
     | Some change =>
         match first_message change with
         | Some message =>
             if negb (is_text (kind message)) then
               console_log "Ignoring non-text message type"
             else
               let messageText := body_or_empty (text_body message) in
               sender <- deref (from message) ;;
               let normalizedFrom := normalizePhoneNumber sender in
               console_log "Received message" ;;
               operator <- Operator_findByPhone normalizedFrom ;;
               match operator with
               | Some _ =>
                   handleOperatorMessage normalizedFrom
                     (JsString.trim (toUpperCase E messageText))
               | None =>
                   handleCustomerMessage normalizedFrom
                     (JsString.trim (toUpperCase E messageText))
               end
         | None => console_log "No messages in webhook payload"
         end
     end).

(** POST /whatsapp/webhook *)
Definition post_webhook (body : wa_body) : M unit :=
  TRY webhook_try_block body
  CATCH (fun error => console_error "Error processing webhook").

(** *** routes/booking.js: the internal endpoints *)

(** [getLatestPendingBooking(bookingId)]: the given booking, whatever its
    status, or the latest pending one when no id is given. *)
Definition getBookingOrLatestPending (bookingId : option Z) : M (option Booking.t) :=
match bookingId with
| Some id => if id =? 0 then getLatestPendingBooking else Booking_findById id
| None => getLatestPendingBooking
end.

(** The body of POST /booking/confirm and POST /booking/reject. *)
Record decision_request : Type := mkDecision
  { req_operator_phone : option string; req_booking_id : option Z }.

Definition given (v : option string) : bool := negb (unset v).

Definition post_booking_confirm (req : decision_request) : M unit :=
TRY
  (booking <- getBookingOrLatestPending (req_booking_id req) ;;
   match booking with
   | None => emit (Respond 404 "No pending bookings found for confirmation")
   | Some booking =>
       if negb (is_pending booking) then
         emit (Respond 400 "Booking is not in pending status")
       else
         updatedBooking <- Booking_updateStatus (Booking.id booking) "confirmed" ;;
         match updatedBooking with
         | None => emit (Respond 500 "Failed to update booking status")
         | Some _ =>
             console_log "Booking confirmed" ;;
             route <- Route_findById (Booking.route_id booking) ;;
             match route with
             | None => emit (Respond 404 "Route not found for booking")
             | Some route =>
                 sendMessage (Booking.customer_phone booking)
                   (BookingConfirmed booking route) ;;
                 MessageLog_create (Some (Booking.id booking)) "confirmation" ;;
                 (if given (req_operator_phone req)
                  then sendMessage (body_or_empty (req_operator_phone req))
                         (ConfirmedNotice (Booking.id booking))
                  else ret tt) ;;
                 console_log "Booking confirmation sent to customer" ;;
                 emit (Respond 200 "Booking confirmed successfully")
             end
         end
   end)
CATCH (fun error =>
  console_error "Error confirming booking" ;;
  emit (Respond 500 "Internal server error while confirming booking")).

Definition post_booking_reject (req : decision_request) : M unit :=
TRY
  (booking <- getBookingOrLatestPending (req_booking_id req) ;;
   match booking with
   | None => emit (Respond 404 "No pending bookings found for rejection")
   | Some booking =>
       if negb (is_pending booking) then
         emit (Respond 400 "Booking is not in pending status")
       else
         updatedBooking <- Booking_updateStatus (Booking.id booking) "rejected" ;;
         match updatedBooking with
         | None => emit (Respond 500 "Failed to update booking status")
         | Some _ =>
             console_log "Booking rejected" ;;
             route <- Route_findById (Booking.route_id booking) ;;
             match route with
             | None => emit (Respond 404 "Route not found for booking")
             | Some route =>
                 sendMessage (Booking.customer_phone booking)
                   (BookingRejected booking route) ;;
                 MessageLog_create (Some (Booking.id booking)) "rejection" ;;
                 (if given (req_operator_phone req)
                  then sendMessage (body_or_empty (req_operator_phone req))
                         (RejectedNotice (Booking.id booking))
                  else ret tt) ;;
                 console_log "Booking rejection sent to customer" ;;
                 emit (Respond 200 "Booking rejected successfully")
             end
         end
   end)
CATCH (fun error =>
  console_error "Error rejecting booking" ;;
  emit (Respond 500 "Internal server error while rejecting booking")).

(** The body of POST /booking/create; a field that is absent, empty or
    zero is falsy. *)
Record create_request : Type := mkCreate
  { req_customer_phone : option string;
    req_customer_name : option string;
    req_route_id : option Z;
    req_journey_date : option string;
    req_seat_count : option Z }.

Definition nonzero (v : option Z) : option Z :=
match v with
| Some n => if n =? 0 then None else Some n
| None => None
end.

(** POST /booking/create, from the point where the route is known. *)
Definition create_for_route (req : create_request) (route : Route.t) : M unit :=
let customer_phone := body_or_empty (req_customer_phone req) in
let journeyDate := if given (req_journey_date req)
                   then body_or_empty (req_journey_date req)
                   else tomorrow_iso E in
created <- Booking_create
             (Some (if given (req_customer_name req)
                    then body_or_empty (req_customer_name req)
                    else "Customer"))
             customer_phone (Route.id route) journeyDate
             (match nonzero (req_seat_count req) with
              | Some n => n
              | None => 1
              end)
             "pending" ;;
booking <- deref created ;;
console_log "Booking created" ;;
operator <- Operator_findByPhone (env_or (OPERATOR_PHONE E) "1234567890") ;;
match operator with
| None =>
    console_error "No operator found. Cannot send notification." ;;
    emit (Respond 200 "Booking created but operator notification failed")
| Some operator =>
    found <- Route_findById (Route.id route) ;;
    routeDetails <- deref found ;;
    sendMessage (Operator.phone_number operator)
      (NewBookingRequest booking customer_phone journeyDate routeDetails) ;;
    MessageLog_create (Some (Booking.id booking)) "notification" ;;
    sendMessage customer_phone
      (BookingRequestReceived booking journeyDate routeDetails) ;;
    console_log "Booking notification sent to operator and customer" ;;
    emit (Respond 201 "Booking created successfully")
end.

Definition post_booking_create (req : create_request) : M unit :=
TRY
  (if negb (given (req_customer_phone req)) then
     emit (Respond 400 "customer_phone is required")
   else
     match nonzero (req_route_id req) with
     | Some route_id =>
         route <- Route_findById route_id ;;
         match route with
         | None => emit (Respond 404 "Route not found")
         | Some route => create_for_route req route
         end
     | None =>
         route <- getFirstRoute ;;
         match route with
         | None => emit (Respond 404 "No routes found in database. Cannot create booking.")
         | Some route => create_for_route req route
         end
     end)
CATCH (fun error =>
  console_error "Error creating booking" ;;
  emit (Respond 500 "Internal server error while creating booking")).

(** *** models/booking.js: the reminder query *)

Definition is_reminder_of (id : Z) (l : MessageLog.t) : bool :=
  match MessageLog.booking_id l with
  | Some b => (b =? id) && (MessageLog.type l =? "reminder")%string
  | None => false
  end.

(** LEFT JOIN message_logs ml ON ... WHERE ml.id IS NULL *)
Definition no_reminder (d : db) (b : Booking.t) : bool :=
  negb (existsb (is_reminder_of (Booking.id b)) (message_logs d)).

(** datetime(b.journey_date || ' ' || (SELECT r.departure_time ...)) *)
Definition departure (d : db) (b : Booking.t) : option Z :=
  match select_route (Booking.route_id b) d with
  | Some r => datetime E (Booking.journey_date b ++ " " ++ Route.departure_time r)%string
  | None => None
  end.

(** [x BETWEEN lo AND hi]; NULL on any side is not true. *)
Definition between (x lo hi : option Z) : bool :=
  match x, lo, hi with
  | Some x, Some lo, Some hi => (lo <=? x) && (x <=? hi)
  | _, _, _ => false
  end.

Definition is_confirmed (b : Booking.t) : bool := (Booking.status b =? "confirmed")%string.

Definition needs_reminder (d : db) (lo hi : option Z) (b : Booking.t) : bool :=
  is_confirmed b && no_reminder d b && between (departure d b) lo hi.

(** ORDER BY b.journey_date ASC, on ISO date strings. *)
Fixpoint insert_by_date (b : Booking.t) (l : list Booking.t) : list Booking.t :=
  match l with
  | [] => [b]
  | x :: r =>
      if String.leb (Booking.journey_date b) (Booking.journey_date x)
      then b :: l else x :: insert_by_date b r
  end.

Definition order_by_date (l : list Booking.t) : list Booking.t :=
  fold_right insert_by_date [] l.

Definition six_hours : Z := 6 * 60 * 60 * 1000.

Definition bookings_needing_reminders (currentTime : Z) (d : db) : list Booking.t :=
  let currentTimeStr := time_str E currentTime in
  let sixHoursLaterStr := time_str E (currentTime + six_hours) in
  order_by_date
    (filter (needs_reminder d (datetime E currentTimeStr) (datetime E sixHoursLaterStr))
            (bookings d)).

Definition findBookingsNeedingReminders (currentTime : Z) : M (list Booking.t) :=
  db_get SelectBookingsNeedingReminders (bookings_needing_reminders currentTime).

(** *** services/reminder.js *)

Definition remind (booking : Booking.t) : M unit :=
  TRY
    (route <- Route_findById (Booking.route_id booking) ;;
     match route with
     | None => console_error "Route not found for booking"
     | Some route =>
         sendMessage (Booking.customer_phone booking) (Reminder booking route) ;;
         MessageLog_create (Some (Booking.id booking)) "reminder" ;;
         console_log "Reminder sent for booking"
     end)
  CATCH (fun error => console_error "Failed to send reminder for booking").

Definition sendReminders : M unit :=
  bookings <- findBookingsNeedingReminders (now E) ;;
  if (List.length bookings =? 0)%nat then ret tt
  else for_each bookings remind.

(** *** server.js: the jobs handed to cron.schedule *)

Definition reminder_job : M unit :=
  TRY sendReminders CATCH (fun error => console_error "Reminder job failed").

Definition scheduled_jobs : list (string * M unit) :=
  [("*/30 * * * *", reminder_job)].

(** One firing of every schedule. *)
Definition run_scheduled_jobs : M unit :=
  for_each scheduled_jobs (fun job => snd job).

End Program.

(** ** What a program leaves behind *)

(** [ensures m R]: whatever the outcome of [m], the worlds before and after
    are related by [R]. *)
Definition ensures {A} (m : M A) (R : world -> world -> Prop) : Prop :=
  forall w, R w (snd (m w)).

Definition same_db (w w' : world) : Prop := w_db w' = w_db w.

Definition same_bookings (w w' : world) : Prop :=
  bookings (w_db w') = bookings (w_db w) /\
  seq_bookings (w_db w') = seq_bookings (w_db w).

(** The trace only grows, and by events that satisfy [P]. *)
Definition appends (P : event -> Prop) (w w' : world) : Prop :=
  exists more, w_trace w' = w_trace w ++ more /\ Forall P more.

Definition not_respond (e : event) : Prop :=
  match e with
  | Respond _ _ => False
  | _ => True
  end.

Definition not_post (e : event) : Prop :=
  match e with
  | WaPost _ _ => False
  | _ => True
  end.

(** The trace only grows; the database is as it was. *)
Definition only_talks (w w' : world) : Prop :=
  w_db w' = w_db w /\ exists more, w_trace w' = w_trace w ++ more.

(** ** Seat counts *)

Definition has_status (s : string) (b : Booking.t) : bool :=
  (Booking.status b =? s)%string.

(** sum(seat_count) over the bookings of one status *)
Definition seats (s : string) (d : db) : Z :=
  fold_right Z.add 0 (map Booking.seat_count (filter (has_status s) (bookings d))).

(** ** Assumptions on an environment *)

Definition db_healthy (E : env) : Prop := forall q, db_ok E q = true.

(** [sendMessage] gets through: credentials set, a recipient, and the
    provider accepts the POST. *)
Definition can_send (E : env) (phone : string) (t : wa_text) : bool :=
  negb (unset (ACCESS_TOKEN E)) && negb (unset (PHONE_NUMBER_ID E))
  && JsString.nonempty phone && api_ok E (normalizePhoneNumber phone) t.

(** ** A running example: the database seeded by database.js *)

Module Example.

Definition seed : db :=
  mkDb [Operator.mk 1 "Default Operator" "1234567890" 1]
       [Route.mk 1 1 "City A" "City B" "08:00" 500]
       [] [] 0 0.

Definition world0 : world := mkWorld seed [].

(** 2024-01-15 03:00:00 UTC, in milliseconds. *)
Definition three_am : Z := 1705287600000.

(** The clock strings and SQLite date arithmetic on the instants used
    below (seconds since the epoch); any other string is left NULL. *)
Definition clock_str (t : Z) : string :=
  if t =? three_am then "2024-01-15 03:00:00"
  else if t =? three_am + six_hours then "2024-01-15 09:00:00"
  else "".

Definition sqlite_datetime (s : string) : option Z :=
  if (s =? "2024-01-15 03:00:00")%string then Some 1705287600
  else if (s =? "2024-01-15 09:00:00")%string then Some 1705309200
  else if (s =? "2024-01-15 08:00")%string then Some 1705305600
  else if (s =? "2024-01-16 08:00")%string then Some 1705392000
  else None.

(** The examples send texts made of ASCII characters and white space.  On
    such a text [toUpperCase] turns the letters a to z into A to Z and keeps
    every other character, which is all the example environments provide;
    the theorems hold for every [toUpperCase]. *)
Definition ascii_upper_char (c : ascii) : ascii :=
  let n := N_of_ascii c in
  if ((97 <=? n) && (n <=? 122))%N then ascii_of_N (n - 32) else c.

Fixpoint ascii_upper (s : string) : string :=
  match s with
  | EmptyString => EmptyString
  | String c r => String (ascii_upper_char c) (ascii_upper r)
  end.

(** Everything works: credentials set, every POST accepted, every
    statement runs. *)
Definition fair : env :=
  mkEnv (Some "EAAG-token") (Some "106540352242922") (Some "1234567890")
        three_am "2024-01-16" clock_str sqlite_datetime ascii_upper
        (fun _ _ => true) (fun _ => true).

(** The same, with the provider refusing every POST. *)
Definition offline : env :=
  mkEnv (Some "EAAG-token") (Some "106540352242922") (Some "1234567890")
        three_am "2024-01-16" clock_str sqlite_datetime ascii_upper
        (fun _ _ => false) (fun _ => true).

(** The same as [fair], one day earlier. *)
Definition the_day_before : env :=
  mkEnv (Some "EAAG-token") (Some "106540352242922") (Some "1234567890")
        (three_am - 86400000) "2024-01-15" clock_str sqlite_datetime ascii_upper
        (fun _ _ => true) (fun _ => true).

(** The same as [fair], one day later. *)
Definition a_day_later : env :=
  mkEnv (Some "EAAG-token") (Some "106540352242922") (Some "1234567890")
        (three_am + 86400000) "2024-01-17" clock_str sqlite_datetime ascii_upper
        (fun _ _ => true) (fun _ => true).

Definition message_from (sender kind : string) (text : option string) : wa_body :=
  mkBody (Some [mkEntry (Some [mkChange (Some (mkValue (Some
    [mkMessage (Some sender) (Some kind) text])))])]).

Definition text_from (sender text : string) : wa_body :=
  message_from sender "text" (Some text).

Definition customer : string := "+91 98765-43210".
Definition operator : string := "1234567890".

(** Deliveries handled one after the other. *)
Definition deliveries (E : env) (bodies : list wa_body) (w : world) : world :=
  fold_left (fun w body => snd (post_webhook E body w)) bodies w.

End Example.

(** The first message of a delivery, when the payload has one. *)
Definition first_inbound (body : wa_body) : option wa_message :=
  match first_change body with
  | Some change => first_message change
  | None => None
  end.

(** The command word the handlers compare against. *)
Definition command_of (E : env) (message : wa_message) : string :=
  JsString.trim (toUpperCase E (body_or_empty (text_body message))).

(** The sender's number is in the operators table. *)
Definition known_operator (d : db) (phone : string) : bool :=
  match find (fun o => (Operator.phone_number o =? phone)%string) (operators d) with
  | Some _ => true
  | None => false
  end.

(** The world once the delivery is acknowledged and the sender logged. *)
Definition acknowledged (w : world) : world :=
  mkWorld (w_db w) (w_trace w ++ [Respond 200 "OK"; ConsoleLog "Received message"]).

(** What a delivery asks for, read off the payload and the operators
    table the way the handlers branch on them. *)
Inductive command : Type :=
| CmdBook (customer : string)
| CmdYes (operator : string)
| CmdNo (operator : string)
| CmdNone.

Definition command_in (E : env) (d : db) (body : wa_body) : command :=
  match first_inbound body with
  | Some message =>
      if is_text (kind message) then
        match from message with
        | Some sender =>
            let phone := normalizePhoneNumber sender in
            if known_operator d phone then
              if (command_of E message =? "YES")%string then CmdYes phone
              else if (command_of E message =? "NO")%string then CmdNo phone
              else CmdNone
            else
              if (command_of E message =? "BOOK")%string then CmdBook phone
              else CmdNone
        | None => CmdNone
        end
      else CmdNone
  | None => CmdNone
  end.

(** ** Operations of the running server *)

(** What can happen to the database: an event delivery, a call of one of
    the internal booking endpoints, or a firing of the cron schedule. *)
Inductive operation : Type :=
| Deliver (body : wa_body)                  (* POST /whatsapp/webhook *)
| Create (req : create_request)             (* POST /booking/create *)
| Confirm (req : decision_request)          (* POST /booking/confirm *)
| Reject (req : decision_request)           (* POST /booking/reject *)
| Tick.

Definition step (E : env) (op : operation) (w : world) : world :=
  match op with
  | Deliver body => snd (post_webhook E body w)
  | Create req => snd (post_booking_create E req w)
  | Confirm req => snd (post_booking_confirm E req w)
  | Reject req => snd (post_booking_reject E req w)
  | Tick => snd (run_scheduled_jobs E w)
  end.

(** Operations handled one after the other, each in its own environment. *)
Definition run (ops : list (env * operation)) (w : world) : world :=
  fold_left (fun w eo => step (fst eo) (snd eo) w) ops w.


(** Primary key of the bookings table. *)
Definition unique_ids (d : db) : Prop := NoDup (map Booking.id (bookings d)).

(** ** Counting reminders *)

Definition is_reminder_to (id : Z) (e : event) : bool :=
  match e with
  | WaPost _ (Reminder b _) => Booking.id b =? id
  | _ => false
  end.

(** The reminders posted so far for the booking of this id. *)
Definition reminders_sent (id : Z) (trace : list event) : nat :=
  List.length (filter (is_reminder_to id) trace).

(** A message_logs row of type 'reminder' exists for the booking. *)
Definition has_reminder_log (d : db) (id : Z) : bool :=
  existsb (is_reminder_of id) (message_logs d).

(** The bounds of the query, as SQLite reads them. *)
Definition window_start (E : env) : option Z := datetime E (time_str E (now E)).
Definition window_end (E : env) : option Z :=
  datetime E (time_str E (now E + six_hours)).

(** ** The remaining queries of the models

    These are exported by the models and called by no handler.  They read
    one table and touch nothing; [ran] tells whether the storage engine ran
    the statement, the promise being rejected ([None]) otherwise. *)

Definition resolve {A} (ran : bool) (rows : A) : option A :=
  if ran then Some rows else None.

(** ORDER BY key DESC, rows of equal key in rowid order. *)
Fixpoint insert_desc {A} (key : A -> Z) (x : A) (l : list A) : list A :=
  match l with
  | [] => [x]
  | y :: r => if key y <=? key x then x :: l else y :: insert_desc key x r
  end.

Definition order_desc {A} (key : A -> Z) (l : list A) : list A :=
  fold_right (insert_desc key) [] l.

(** models/booking.js, [findByPhone]:
    SELECT * FROM bookings WHERE customer_phone = ? ORDER BY created_at DESC *)
Definition bookings_of_phone (phoneNumber : string) (d : db) : list Booking.t :=
  order_desc Booking.created_at
    (filter (fun b => (Booking.customer_phone b =? phoneNumber)%string) (bookings d)).

Definition Booking_findByPhone (ran : bool) (phoneNumber : string) (d : db)
  : option (list Booking.t) :=
  resolve ran (bookings_of_phone phoneNumber d).

(** models/booking.js, [hasReminder(bookingId, type = 'reminder')]:
    SELECT id FROM message_logs WHERE booking_id = ? AND type = ? *)
Definition is_log_of (bookingId : Z) (type : string) (l : MessageLog.t) : bool :=
  match MessageLog.booking_id l with
  | Some b => (b =? bookingId) && (MessageLog.type l =? type)%string
  | None => false
  end.

Definition Booking_hasReminder (ran : bool) (bookingId : Z) (type : option string)
           (d : db) : option bool :=
  let type := match type with Some t => t | None => "reminder" end in
  resolve ran
    (match find (is_log_of bookingId type) (message_logs d) with
     | Some _ => true
     | None => false
     end).

(** models/messageLog.js, [findByBookingId]:
    SELECT * FROM message_logs WHERE booking_id = ? ORDER BY sent_at DESC *)
Definition logs_of_booking (bookingId : Z) (d : db) : list MessageLog.t :=
  order_desc MessageLog.sent_at
    (filter (fun l => match MessageLog.booking_id l with
                      | Some b => b =? bookingId
                      | None => false
                      end) (message_logs d)).

Definition MessageLog_findByBookingId (ran : bool) (bookingId : Z) (d : db)
  : option (list MessageLog.t) :=
  resolve ran (logs_of_booking bookingId d).

(** ** database.js: seeding *)

Inductive seed_statement : Type :=
| SeedSelectOperator
| SeedInsertOperator
| SeedInsertRoute.

Definition set_operators (d : db) (os : list Operator.t) : db :=
  mkDb os (routes d) (bookings d) (message_logs d) (seq_bookings d) (seq_message_logs d).

Definition set_routes (d : db) (rs : list Route.t) : db :=
  mkDb (operators d) rs (bookings d) (message_logs d) (seq_bookings d) (seq_message_logs d).

(** [seedDefaultData]: the promise resolves ([true]) or rejects ([false]),
    and the database is what the statements that ran have left; there is no
    transaction around the two INSERTs.  The code never deletes an operator
    or a route, so the next rowid is one more than the largest in the
    table. *)
Definition seedDefaultData (ran : seed_statement -> bool)
           (OPERATOR_PHONE OPERATOR_NAME : option string) (d : db) : bool * db :=
  let operatorPhone := env_or OPERATOR_PHONE "1234567890" in
  if negb (ran SeedSelectOperator) then (false, d)
  else
    match find (fun o => (Operator.phone_number o =? operatorPhone)%string)
               (operators d) with
    | Some _ => (true, d)
    | None =>
        if negb (ran SeedInsertOperator) then (false, d)
        else
          let operatorName := env_or OPERATOR_NAME "Default Operator" in
          let operatorId := next_id 0 (map Operator.id (operators d)) in
          let d1 := set_operators d
                      (operators d ++ [Operator.mk operatorId operatorName operatorPhone 1]) in
          if negb (ran SeedInsertRoute) then (false, d1)
          else
            let routeId := next_id 0 (map Route.id (routes d1)) in
            (true,
             set_routes d1
               (routes d1 ++ [Route.mk routeId operatorId "City A" "City B" "08:00" 500]))
    end.

(** ** Relations and invariants on databases *)

(** A relation on databases, read on the worlds that carry them. *)
Definition on_db (R : db -> db -> Prop) (w w' : world) : Prop := R (w_db w) (w_db w').

Definition same_catalogue (d d' : db) : Prop :=
  operators d' = operators d /\ routes d' = routes d.

Definition logs_grow (d d' : db) : Prop :=
  exists more, message_logs d' = message_logs d ++ more.

(** A booking without its status. *)
Definition details (b : Booking.t) : Booking.t := Booking.with_status "" b.

Definition bookings_grow (d d' : db) : Prop :=
  exists more, map details (bookings d') = map details (bookings d) ++ more.

(** Primary keys are unique and foreign keys point at rows. *)
Definition well_formed (d : db) : Prop :=
  NoDup (map Booking.id (bookings d)) /\
  NoDup (map MessageLog.id (message_logs d)) /\
  (forall b, In b (bookings d) -> select_route (Booking.route_id b) d <> None) /\
  (forall l i, In l (message_logs d) -> MessageLog.booking_id l = Some i ->
               select_booking i d <> None).

Definition keeps_well_formed (d d' : db) : Prop := well_formed d -> well_formed d'.

(** ** Characters *)

(** One character: a byte and the continuation bytes after it. *)
Definition cluster (c : string) : Prop :=
  match c with
  | EmptyString => False
  | String _ t =>
      forall x, In x (list_ascii_of_string t) -> JsString.continuation x = true
  end.

(** A list of characters as [JsString.chars] cuts them: only the first
    may lack its leading byte. *)
Definition segmented (cs : list string) : Prop :=
  Forall cluster cs /\ Forall (fun x => JsString.headed x = true) (tl cs).

(** ** Answers of the HTTP endpoints *)

Definition is_respond (e : event) : bool :=
  match e with
  | Respond _ _ => true
  | _ => false
  end.

Definition responses (trace : list event) : list event := filter is_respond trace.

(** [m] appends to the trace; it answers once, with one of [codes], when
    it returns, and not at all when it throws. *)
Definition settles {A} (m : M A) (codes : list Z) : Prop :=
  forall w, exists more,
    w_trace (snd (m w)) = w_trace w ++ more /\
    match fst (m w) with
    | Ok _ => exists status body, responses more = [Respond status body] /\ In status codes
    | Throw _ => responses more = []
    end.

(** The events a reminder sweep may append when the query has selected
    [selection] from the database [d]. *)
Definition sweep_event (d : db) (selection : list Booking.t) (e : event) : Prop :=
  match e with
  | WaPost to (Reminder b r) =>
      In b selection /\ select_route (Booking.route_id b) d = Some r /\
      to = normalizePhoneNumber (Booking.customer_phone b)
  | WaPost _ _ => False
  | Respond _ _ => False
  | ConsoleLog _ => True
  | ConsoleError _ => True
  end.

(** What [sendMessage] leaves in the trace is left with both credentials
    set: a message the provider took, which went to the normal form of a
    non-empty number, or the log line of a POST that failed. *)
Definition sound_post (E : env) (e : event) : Prop :=
  match e with
  | WaPost to text =>
      unset (ACCESS_TOKEN E) = false /\ unset (PHONE_NUMBER_ID E) = false /\
      exists phoneNumber,
        JsString.nonempty phoneNumber = true /\ to = normalizePhoneNumber phoneNumber
  | ConsoleError line =>
      line = "WhatsApp API Error" ->
      unset (ACCESS_TOKEN E) = false /\ unset (PHONE_NUMBER_ID E) = false
  | _ => True
  end.

(** Newest first: no row is followed by a row of a larger key. *)
Definition newest_first {A} (key : A -> Z) (l : list A) : Prop :=
  StronglySorted (fun a b => key b <= key a) l.

(** Every call of [m] returns normally and has answered exactly once, with
    one of [codes]. *)
Definition answers_once (m : M unit) (codes : list Z) : Prop :=
  forall w,
    fst (m w) = Ok tt /\
    exists more status body,
      w_trace (snd (m w)) = w_trace w ++ more /\
      responses more = [Respond status body] /\ In status codes.

(** * Properties *)

(** ** The handshake *)

Lemma nonempty_true (s : string) : JsString.nonempty s = true <-> s <> "".
Proof.
  unfold JsString.nonempty. rewrite negb_true_iff. apply String.eqb_neq.
Qed.

(** C9.  The handshake answers 200 with the challenge exactly for a request
    whose mode is "subscribe" and whose token is the configured secret; it
    answers 403 exactly when mode and token are both present and the request
    is not of that kind, and 400 exactly when mode or token is missing. *)
Theorem verification_handshake :
  forall (secret : option string) (mode token challenge : Handshake.qval),
    let r := Handshake.get_webhook secret mode token challenge in
    (r = Handshake.Send 200 challenge <-> Handshake.accepted secret mode token) /\
    (r = Handshake.SendStatus 403 <->
       Handshake.truthy mode = true /\ Handshake.truthy token = true /\
       ~ Handshake.accepted secret mode token) /\
    (r = Handshake.SendStatus 400 <->
       Handshake.truthy mode = false \/ Handshake.truthy token = false).
Proof.
  intros secret mode token challenge r. subst r.
  unfold Handshake.get_webhook, Handshake.accepted.
  destruct (Handshake.truthy mode) eqn:Hm; cbn [andb].
  2:{ repeat split; try discriminate; auto.
      - intros [-> _]. discriminate Hm.
      - intros (? & _); discriminate. }
  destruct (Handshake.truthy token) eqn:Ht.
  2:{ repeat split; try discriminate; auto.
      - intros (_ & s & Hs & -> & _). cbn in Ht. apply nonempty_true in Hs. congruence.
      - intros (_ & ? & _); discriminate. }
  destruct (Handshake.is_string mode "subscribe") eqn:Hmode; cbn [andb].
  - assert (mode = Handshake.QString "subscribe") as ->.
    { destruct mode; try discriminate. cbn in Hmode.
      apply String.eqb_eq in Hmode. now subst. }
    destruct (Handshake.is_env token secret) eqn:Htok.
    + assert (exists s, s <> "" /\ token = Handshake.QString s /\ secret = Some s) as Hacc.
      { destruct token as [|s|]; destruct secret as [t|]; try discriminate.
        cbn in Htok, Ht. apply String.eqb_eq in Htok. subst t.
        exists s. repeat split. now apply nonempty_true. }
      repeat split; try discriminate; auto.
      * intros (_ & _ & Hn). exfalso. apply Hn. auto.
      * intros [?|?]; discriminate.
    + assert (~ (exists s, s <> "" /\ token = Handshake.QString s /\ secret = Some s)) as Hacc.
      { intros (s & _ & -> & ->). cbn in Htok. now rewrite String.eqb_refl in Htok. }
      repeat split; try discriminate; auto; try tauto.
      intros [?|?]; discriminate.
  - assert (mode <> Handshake.QString "subscribe") as Hne.
    { intros ->. cbn in Hmode. discriminate. }
    repeat split; try discriminate; auto; try tauto.
    intros [?|?]; discriminate.
Qed.

(** ** Frame rules for [ensures] *)

Section Frame.

Variable R : world -> world -> Prop.
Hypothesis R_refl : forall w, R w w.
Hypothesis R_trans : forall a b c, R a b -> R b c -> R a c.

Lemma ensures_ret {A} (a : A) : ensures (ret a) R.
Proof. intros w. apply R_refl. Qed.

Lemma ensures_throw {A} (e : js_error) : ensures (@throw A e) R.
Proof. intros w. apply R_refl. Qed.

Lemma ensures_bind {A B} (m : M A) (k : A -> M B) :
  ensures m R -> (forall a, ensures (k a) R) -> ensures (bind m k) R.
Proof.
  intros Hm Hk w. unfold bind. specialize (Hm w).
  destruct (m w) as [[a|e] w1]; cbn in *.
  - eapply R_trans; [exact Hm | apply Hk].
  - exact Hm.
Qed.

Lemma ensures_try {A} (m : M A) (h : js_error -> M A) :
  ensures m R -> (forall e, ensures (h e) R) -> ensures (try_catch m h) R.
Proof.
  intros Hm Hh w. unfold try_catch. specialize (Hm w).
  destruct (m w) as [[a|e] w1]; cbn in *.
  - exact Hm.
  - eapply R_trans; [exact Hm | apply Hh].
Qed.

Lemma ensures_deref {A} (o : option A) : ensures (deref o) R.
Proof. destruct o; [apply ensures_ret | apply ensures_throw]. Qed.

Lemma ensures_for_each {A} (l : list A) (body : A -> M unit) :
  (forall a, ensures (body a) R) -> ensures (for_each l body) R.
Proof.
  intros Hb. induction l as [|x l IH]; cbn.
  - apply ensures_ret.
  - apply ensures_bind; auto.
Qed.

Lemma ensures_db_get {A} (E : env) (q : sql) (f : db -> A) :
  ensures (db_get E q f) R.
Proof. intros w. unfold db_get. destruct (db_ok E q); apply R_refl. Qed.

End Frame.

Lemma ensures_weaken {A} (m : M A) (R R' : world -> world -> Prop) :
  (forall w w', R w w' -> R' w w') -> ensures m R -> ensures m R'.
Proof. intros HR Hm w. apply HR, Hm. Qed.

(** Walks a handler along its binds, branches and handlers; what is left
    are its primitive steps. *)
Create HintDb frame.

Ltac frame_with Hrefl Htrans :=
  repeat first
    [ solve [auto with frame]
    | apply (ensures_ret _ Hrefl)
    | apply (ensures_throw _ Hrefl)
    | apply (ensures_deref _ Hrefl)
    | apply (ensures_db_get _ Hrefl)
    | apply (ensures_bind _ Htrans); [ | intros ? ]
    | apply (ensures_try _ Htrans); [ | intros ? ]
    | apply (ensures_for_each _ Hrefl Htrans); intros ?
    | match goal with
      | |- ensures (match ?x with _ => _ end) _ => destruct x
      end ].

(** *** The three relations are preorders *)

Lemma same_db_refl w : same_db w w.
Proof. reflexivity. Qed.

Lemma same_db_trans a b c : same_db a b -> same_db b c -> same_db a c.
Proof. unfold same_db. congruence. Qed.

Lemma same_bookings_refl w : same_bookings w w.
Proof. split; reflexivity. Qed.

Lemma same_bookings_trans a b c :
  same_bookings a b -> same_bookings b c -> same_bookings a c.
Proof. unfold same_bookings. intros [] []. split; congruence. Qed.

Lemma appends_refl P w : appends P w w.
Proof. exists []. split; [now rewrite app_nil_r | constructor]. Qed.

Lemma appends_trans P a b c : appends P a b -> appends P b c -> appends P a c.
Proof.
  intros (m1 & H1 & F1) (m2 & H2 & F2). exists (m1 ++ m2). split.
  - now rewrite H2, H1, app_assoc.
  - apply Forall_app. now split.
Qed.

(** *** Primitive steps *)

Lemma emit_same_db e : ensures (emit e) same_db.
Proof. intros w. reflexivity. Qed.

Lemma emit_appends (P : event -> Prop) e : P e -> ensures (emit e) (appends P).
Proof. intros H w. exists [e]. split; [reflexivity | now constructor]. Qed.

Lemma db_run_appends {A} P E q (f : db -> option (db * A)) :
  ensures (db_run E q f) (appends P).
Proof.
  intros w. unfold db_run.
  destruct (db_ok E q); [destruct (f (w_db w)) as [[d a]|] | ]; cbn;
    exists []; (split; [now rewrite app_nil_r | constructor]).
Qed.

Lemma sendMessage_same_db E p t : ensures (sendMessage E p t) same_db.
Proof.
  unfold sendMessage, console_error.
  destruct (unset (ACCESS_TOKEN E)); [apply (ensures_throw _ same_db_refl)|].
  destruct (unset (PHONE_NUMBER_ID E)); [apply (ensures_throw _ same_db_refl)|].
  destruct (negb (JsString.nonempty p)); [apply (ensures_throw _ same_db_refl)|].
  destruct (api_ok E _ _).
  - apply emit_same_db.
  - frame_with same_db_refl same_db_trans. apply emit_same_db.
Qed.

Lemma sendMessage_quiet E p t : ensures (sendMessage E p t) (appends not_respond).
Proof.
  unfold sendMessage, console_error.
  destruct (unset (ACCESS_TOKEN E)); [apply (ensures_throw _ (appends_refl _))|].
  destruct (unset (PHONE_NUMBER_ID E)); [apply (ensures_throw _ (appends_refl _))|].
  destruct (negb (JsString.nonempty p)); [apply (ensures_throw _ (appends_refl _))|].
  destruct (api_ok E _ _).
  - now apply emit_appends.
  - frame_with (appends_refl not_respond) (appends_trans not_respond).
    now apply emit_appends.
Qed.

Lemma same_db_bookings w w' : same_db w w' -> same_bookings w w'.
Proof. unfold same_db, same_bookings. intros ->. now split. Qed.

Lemma insert_message_log_same_bookings E b t :
  ensures (db_run E (InsertMessageLog b t) (insert_message_log E b t)) same_bookings.
Proof.
  intros w. unfold db_run, insert_message_log.
  destruct (db_ok E _); [|apply same_bookings_refl].
  match goal with |- context [if ?c then _ else _] => destruct c end;
    cbn; split; reflexivity.
Qed.

#[local] Hint Resolve emit_same_db sendMessage_same_db sendMessage_quiet
  insert_message_log_same_bookings db_run_appends : frame.
#[local] Hint Extern 1 (ensures (emit _) (appends _)) =>
  apply emit_appends; exact I : frame.
#[local] Hint Extern 1 (ensures (console_log _) _) => unfold console_log : frame.
#[local] Hint Extern 1 (ensures (console_error _) _) => unfold console_error : frame.
#[local] Hint Extern 3 (ensures _ same_bookings) =>
  apply (ensures_weaken _ same_db same_bookings same_db_bookings) : frame.

(** ** The periodic jobs *)

Lemma scheduled_jobs_same_bookings E : ensures (run_scheduled_jobs E) same_bookings.
Proof.
  unfold run_scheduled_jobs, scheduled_jobs. cbn [for_each snd].
  unfold reminder_job.
  frame_with same_bookings_refl same_bookings_trans.
Qed.

(** C6.  The server schedules one periodic job, the reminder sweep; no job
    expires holds.  A firing of the schedule leaves the bookings table as it
    was: no booking changes status, whatever its age, and nothing changes on
    a second firing either. *)
Theorem scheduled_jobs_keep_bookings :
  forall (E : env) (w : world),
    map fst (scheduled_jobs E) = ["*/30 * * * *"] /\
    bookings (w_db (snd (run_scheduled_jobs E w))) = bookings (w_db w).
Proof.
  intros E w. split; [reflexivity|].
  apply (scheduled_jobs_same_bookings E w).
Qed.

(** ** The event handler *)

Lemma bind_ok {A B} (m : M A) (k : A -> M B) w a w1 :
  m w = (Ok a, w1) -> bind m k w = k a w1.
Proof. intros H. unfold bind. now rewrite H. Qed.

Lemma try_bind_ok {A B} (m : M A) (k : A -> M B) h w a w1 :
  m w = (Ok a, w1) -> try_catch (bind m k) h w = try_catch (k a) h w1.
Proof. intros H. unfold try_catch, bind. now rewrite H. Qed.

Lemma try_bind_step {A B} (m : M A) (k : A -> M B) h w r w1 :
  m w = (r, w1) ->
  try_catch (bind m k) h w =
  match r with
  | Ok a => try_catch (k a) h w1
  | Throw e => h e w1
  end.
Proof. intros H. unfold try_catch, bind. rewrite H. now destruct r. Qed.

Lemma try_catch_total {A} (m : M A) (h : js_error -> M A) :
  (forall e w, exists a w', h e w = (Ok a, w')) ->
  forall w, exists a, fst (try_catch m h w) = Ok a.
Proof.
  intros Hh w. unfold try_catch. destruct (m w) as [[a|e] w1].
  - now exists a.
  - destruct (Hh e w1) as (a & w' & ->). now exists a.
Qed.

Ltac unfold_handlers :=
  unfold handleOperatorMessage, handleCustomerMessage, createBooking,
    confirmBooking, rejectBooking, getFirstRoute, getLatestPendingBooking,
    Booking_create, Booking_updateStatus, Booking_findById, MessageLog_create,
    Operator_findByPhone, Route_findById, console_log, console_error.

(** Turns a goal about the world after [m w1] into a goal on [m]. *)
Ltac as_ensures :=
  match goal with
  | |- ?R ?w1 (snd (?m ?w1)) =>
      generalize w1; change (ensures m R)
  end.

Lemma after_acknowledgement E body w :
  appends not_respond
    (mkWorld (w_db w) (w_trace w ++ [Respond 200 "OK"]))
    (snd (post_webhook E body w)).
Proof.
  unfold post_webhook, webhook_try_block.
  erewrite try_bind_ok by reflexivity.
  as_ensures. unfold_handlers.
  frame_with (appends_refl not_respond) (appends_trans not_respond).
Qed.

(** C8.  Every event delivery is answered 200 "OK" before anything else
    happens; no later step answers again; no error escapes the handler, and
    an error raised while processing is logged. *)
Theorem webhook_always_acknowledges :
  forall (E : env) (body : wa_body) (w : world),
    let r := post_webhook E body w in
    fst r = Ok tt /\
    (exists rest, w_trace (snd r) = w_trace w ++ Respond 200 "OK" :: rest /\
                  Forall not_respond rest) /\
    (forall e w1, webhook_try_block E body w = (Throw e, w1) ->
                  snd r = mkWorld (w_db w1)
                            (w_trace w1 ++ [ConsoleError "Error processing webhook"])).
Proof.
  intros E body w r. subst r. repeat split.
  - destruct (try_catch_total (webhook_try_block E body)
                (fun _ => console_error "Error processing webhook")) with (w := w)
      as [[] H]; [|exact H].
    intros e w0. now eexists; eexists.
  - destruct (after_acknowledgement E body w) as (more & Hm & HF).
    exists more. split; [|exact HF].
    cbn [w_trace] in Hm. now rewrite Hm, <- app_assoc.
  - intros e w1 H. unfold post_webhook, try_catch. now rewrite H.
Qed.

(** ** Stepping through a handler *)

Lemma db_get_ok {A} E q (f : db -> A) w :
  db_ok E q = true -> db_get E q f w = (Ok (f (w_db w)), w).
Proof. intros H. unfold db_get. now rewrite H. Qed.

Lemma db_run_ok {A} E q (f : db -> option (db * A)) w d a :
  db_ok E q = true -> f (w_db w) = Some (d, a) ->
  db_run E q f w = (Ok a, mkWorld d (w_trace w)).
Proof. intros H Hf. unfold db_run. now rewrite H, Hf. Qed.

Lemma sendMessage_ok E p t w :
  can_send E p t = true ->
  sendMessage E p t w =
  (Ok tt, mkWorld (w_db w) (w_trace w ++ [WaPost (normalizePhoneNumber p) t])).
Proof.
  unfold can_send, sendMessage. rewrite !andb_true_iff, !negb_true_iff.
  intros [[[-> ->] ->] ->]. reflexivity.
Qed.

Lemma sendMessage_fails E p t w :
  can_send E p t = false ->
  exists e more,
    sendMessage E p t w = (Throw e, mkWorld (w_db w) (w_trace w ++ more)) /\
    Forall not_post more /\ responses more = [].
Proof.
  unfold can_send, sendMessage, console_error, throw, bind, emit. intros H.
  destruct (unset (ACCESS_TOKEN E)).
  { exists (SendError AccessTokenNotSet), []. rewrite app_nil_r.
    destruct w. repeat split; constructor. }
  destruct (unset (PHONE_NUMBER_ID E)).
  { exists (SendError PhoneNumberIdNotSet), []. rewrite app_nil_r.
    destruct w. repeat split; constructor. }
  destruct (JsString.nonempty p); cbn [negb andb] in *.
  2:{ exists (SendError PhoneNumberRequired), []. rewrite app_nil_r.
      destruct w. repeat split; constructor. }
  rewrite H. exists (SendError ApiError), [ConsoleError "WhatsApp API Error"].
  repeat split. repeat constructor.
Qed.

(** After a first step that leaves [w1], whatever it returned, the rest of
    a [try] block and its handler are covered by their frame. *)
Lemma try_bind_frame {A B} (R : world -> world -> Prop)
      (m : M A) (k : A -> M B) (h : js_error -> M B) w r w1 :
  (forall w, R w w) -> (forall a b c, R a b -> R b c -> R a c) ->
  m w = (r, w1) ->
  (forall a, ensures (k a) R) -> (forall e, ensures (h e) R) ->
  R w1 (snd (try_catch (bind m k) h w)).
Proof.
  intros Hrefl Htrans Hm Hk Hh. unfold try_catch, bind. rewrite Hm.
  destruct r as [a|e].
  - pose proof (Hk a w1) as H1. destruct (k a w1) as [[b|e] w2]; cbn in *.
    + exact H1.
    + eapply Htrans; [exact H1 | apply Hh].
  - apply Hh.
Qed.

Lemma only_talks_refl w : only_talks w w.
Proof. split; [reflexivity | exists []; now rewrite app_nil_r]. Qed.

Lemma only_talks_trans a b c : only_talks a b -> only_talks b c -> only_talks a c.
Proof.
  intros [D1 (m1 & T1)] [D2 (m2 & T2)]. split; [congruence|].
  exists (m1 ++ m2). now rewrite T2, T1, app_assoc.
Qed.

Lemma emit_only_talks e : ensures (emit e) only_talks.
Proof. intros w. split; [reflexivity | now exists [e]]. Qed.

Lemma sendMessage_only_talks E p t : ensures (sendMessage E p t) only_talks.
Proof.
  unfold sendMessage, console_error.
  destruct (unset (ACCESS_TOKEN E)); [apply (ensures_throw _ only_talks_refl)|].
  destruct (unset (PHONE_NUMBER_ID E)); [apply (ensures_throw _ only_talks_refl)|].
  destruct (negb (JsString.nonempty p)); [apply (ensures_throw _ only_talks_refl)|].
  destruct (api_ok E _ _).
  - apply emit_only_talks.
  - apply (ensures_bind _ only_talks_trans); [apply emit_only_talks|].
    intros _. apply (ensures_throw _ only_talks_refl).
Qed.

#[local] Hint Resolve emit_only_talks sendMessage_only_talks : frame.

Lemma only_talks_same_bookings w w' : only_talks w w' -> same_bookings w w'.
Proof. intros [H _]. now apply same_db_bookings. Qed.

(** ** Booking creation *)

Lemma lowest_id_In l r : lowest_id l = Some r -> In r l.
Proof.
  revert r. induction l as [|x l IH]; cbn; [discriminate|].
  intros r. destruct (lowest_id l) as [r'|].
  - destruct (Route.id x <=? Route.id r'); intros [= <-]; auto.
  - intros [= <-]. now left.
Qed.

Lemma select_route_of_In d r :
  In r (routes d) -> exists r', select_route (Route.id r) d = Some r'.
Proof.
  intros H. unfold select_route.
  destruct (find (fun r0 => Route.id r0 =? Route.id r) (routes d)) as [r'|] eqn:F.
  - now exists r'.
  - apply (find_none _ _ F) in H. rewrite Z.eqb_refl in H. discriminate.
Qed.

Lemma Booking_create_inserts E name phone rid date count st w r :
  db_ok E (InsertBooking phone rid) = true ->
  select_route rid (w_db w) = Some r ->
  exists res,
    Booking_create E name phone rid date count st w =
    (res,
     mkWorld
       (set_bookings (w_db w)
          (bookings (w_db w) ++
           [Booking.mk (next_id (seq_bookings (w_db w)) (map Booking.id (bookings (w_db w))))
                       name phone rid date count st (now E / 1000)])
          (next_id (seq_bookings (w_db w)) (map Booking.id (bookings (w_db w)))))
       (w_trace w)).
Proof.
  intros Hok Hr. unfold Booking_create.
  erewrite bind_ok.
  2:{ apply db_run_ok; [exact Hok|]. unfold insert_booking. rewrite Hr. reflexivity. }
  unfold Booking_findById, db_get.
  destruct (db_ok E (SelectBookingById _)); eexists; reflexivity.
Qed.

Lemma createBooking_inserts E w phone route :
  db_ok E SelectFirstRoute = true ->
  lowest_id (routes (w_db w)) = Some route ->
  db_ok E (InsertBooking phone (Route.id route)) = true ->
  bookings (w_db (snd (createBooking E phone w))) =
  bookings (w_db w) ++
  [Booking.mk (next_id (seq_bookings (w_db w)) (map Booking.id (bookings (w_db w))))
              (Some "Customer") phone (Route.id route) (tomorrow_iso E) 1
              "pending" (now E / 1000)].
Proof.
  intros Hq Hroute Hins.
  destruct (select_route_of_In (w_db w) route (lowest_id_In _ _ Hroute)) as [r' Hr'].
  destruct (Booking_create_inserts E (Some "Customer") phone (Route.id route)
              (tomorrow_iso E) 1 "pending" w r' Hins Hr') as [res Hres].
  unfold createBooking, getFirstRoute.
  erewrite try_bind_ok by (apply db_get_ok; exact Hq).
  rewrite Hroute.
  match goal with
  | |- bookings (w_db (snd (try_catch (bind _ ?k) ?h w))) = _ =>
      pose proof (try_bind_frame same_bookings _ k h w _ _
                    same_bookings_refl same_bookings_trans Hres) as F
  end.
  apply F.
  - intros a. unfold_handlers.
    frame_with same_bookings_refl same_bookings_trans.
  - intros e. unfold_handlers.
    frame_with same_bookings_refl same_bookings_trans.
Qed.

Lemma createBooking_without_route E w phone :
  lowest_id (routes (w_db w)) = None ->
  only_talks w (snd (createBooking E phone w)).
Proof.
  intros Hroute. unfold createBooking, getFirstRoute.
  unfold try_catch at 1, bind at 1, db_get.
  destruct (db_ok E SelectFirstRoute).
  - rewrite Hroute.
    match goal with
    | |- only_talks w (snd match ?m w with _ => _ end) =>
        change (only_talks w (snd (try_catch m
          (fun _ => console_error "Error creating booking" ;;
                    (TRY sendMessage E phone BookingRequestError
                     CATCH (fun _ => console_error "Error notifying customer"))) w)))
    end.
    as_ensures. unfold_handlers.
    frame_with only_talks_refl only_talks_trans.
  - as_ensures. unfold_handlers.
    frame_with only_talks_refl only_talks_trans.
Qed.

Lemma seats_insert s d d' row :
  bookings d' = bookings d ++ [row] ->
  seats s d' = seats s d + (if has_status s row then Booking.seat_count row else 0).
Proof.
  intros H. unfold seats. rewrite H, filter_app, map_app, fold_right_app.
  cbn [filter]. generalize (map Booking.seat_count (filter (has_status s) (bookings d))).
  intros l. destruct (has_status s row); cbn [map fold_right];
    induction l as [|x l IH]; cbn [fold_right]; lia.
Qed.

(** C1 (as the code has it).  Booking creation consults no quota and no seat
    count: whenever a route exists and the INSERT runs, it adds one row of
    one seat in status 'pending', whatever the seats already pending or
    confirmed; the confirmed total is unchanged. *)
Theorem creation_ignores_seat_totals :
  forall (E : env) (w : world) (phone : string) (route : Route.t),
    db_ok E SelectFirstRoute = true ->
    lowest_id (routes (w_db w)) = Some route ->
    db_ok E (InsertBooking phone (Route.id route)) = true ->
    let d := w_db w in
    let d' := w_db (snd (createBooking E phone w)) in
    seats "pending" d' = seats "pending" d + 1 /\
    seats "confirmed" d' = seats "confirmed" d /\
    List.length (bookings d') = S (List.length (bookings d)).
Proof.
  intros E w phone route Hq Hroute Hins d d'.
  pose proof (createBooking_inserts E w phone route Hq Hroute Hins) as H.
  fold d d' in H. repeat split.
  - rewrite (seats_insert _ _ _ _ H). reflexivity.
  - rewrite (seats_insert _ _ _ _ H). cbn. lia.
  - rewrite H, length_app. cbn. lia.
Qed.

Lemma creation_ignores_seat_totals_witness :
  seats "pending" (w_db (snd (createBooking Example.fair "919876543210" Example.world0))) = 1 /\
  seats "confirmed" (w_db (snd (createBooking Example.fair "919876543210" Example.world0))) = 0.
Proof.
  destruct (creation_ignores_seat_totals Example.fair Example.world0 "919876543210"
              (Route.mk 1 1 "City A" "City B" "08:00" 500)
              eq_refl eq_refl eq_refl) as (H1 & H2 & _).
  split; [exact H1 | exact H2].
Defined.

(** C1 fails as stated.  From the seeded database, five deliveries handled
    one after the other (BOOK, YES, BOOK, YES, BOOK) end in a creation after
    which two seats are confirmed and one more is pending on the same route
    and journey date: more than a quota of one seat, with or without the
    pending seat counted as a hold. *)
Lemma quota_exceeded_after_creation :
  let quota := 1 in
  let d := w_db (Example.deliveries Example.fair
                   [Example.text_from Example.customer "BOOK";
                    Example.text_from Example.operator "YES";
                    Example.text_from Example.customer "BOOK";
                    Example.text_from Example.operator "YES";
                    Example.text_from Example.customer "BOOK"]
                   Example.world0) in
  map (fun b => (Booking.route_id b, Booking.journey_date b, Booking.status b))
      (bookings d)
  = [(1, "2024-01-16", "confirmed"); (1, "2024-01-16", "confirmed");
     (1, "2024-01-16", "pending")] /\
  ~ (seats "confirmed" d <= quota) /\
  ~ (seats "confirmed" d + seats "pending" d <= quota).
Proof.
  vm_compute. repeat split; intros H; apply H; reflexivity.
Qed.




(** ** The most recent pending booking *)

Lemma latest_In l b : latest l = Some b -> In b l.
Proof.
  revert b. induction l as [|x l IH]; cbn; [discriminate|].
  intros b. destruct (latest l) as [b'|].
  - destruct (_ <=? _); intros [= <-]; auto.
  - intros [= <-]. now left.
Qed.

Lemma latest_max l b :
  latest l = Some b ->
  forall b', In b' l -> Booking.created_at b' <= Booking.created_at b.
Proof.
  revert b. induction l as [|x l IH]; cbn; [discriminate|].
  intros b Hb b' Hin. destruct (latest l) as [m|] eqn:Hm.
  - specialize (IH m eq_refl).
    destruct (Z.leb_spec (Booking.created_at m) (Booking.created_at x));
      injection Hb as <-; destruct Hin as [<-|Hin]; try lia.
    + specialize (IH b' Hin). lia.
    + auto.
  - injection Hb as <-. destruct Hin as [<-|Hin]; [lia|].
    destruct l; [destruct Hin|]. cbn in Hm.
    destruct (latest l); [destruct (_ <=? _)|]; discriminate.
Qed.


Lemma latest_pending_spec d b :
  latest_pending d = Some b ->
  In b (bookings d) /\ Booking.status b = "pending" /\
  forall b', In b' (bookings d) -> Booking.status b' = "pending" ->
             Booking.created_at b' <= Booking.created_at b.
Proof.
  unfold latest_pending. intros H.
  pose proof (latest_In _ _ H) as Hin. apply filter_In in Hin as [Hin Hp].
  unfold is_pending in Hp. apply String.eqb_eq in Hp.
  repeat split; auto.
  intros b' Hb' Hs. apply (latest_max _ _ H). apply filter_In. split; auto.
  unfold is_pending. now apply String.eqb_eq.
Qed.

Lemma latest_pending_exists d p :
  In p (bookings d) -> Booking.status p = "pending" ->
  exists b, latest_pending d = Some b.
Proof.
  intros Hin Hs. unfold latest_pending.
  assert (In p (filter is_pending (bookings d))) as H.
  { apply filter_In. split; auto. unfold is_pending. now apply String.eqb_eq. }
  destruct (filter is_pending (bookings d)) as [|x l]; [destruct H|].
  cbn. destruct (latest l); [destruct (_ <=? _)|]; eauto.
Qed.

(** ** Dispatch of a text message *)

Lemma recovery_total E phone (t : wa_text) (line1 line2 : string) w :
  exists w',
    (console_error line1 ;;
     (TRY sendMessage E phone t CATCH (fun _ => console_error line2))) w
    = (Ok tt, w').
Proof.
  unfold bind, console_error, emit, try_catch.
  destruct (sendMessage E phone t _) as [[[]|e'] w1]; eexists; reflexivity.
Qed.

Lemma try_with_recovery_total E (m : M unit) phone t line1 line2 w :
  exists w',
    try_catch m (fun _ => console_error line1 ;;
                          (TRY sendMessage E phone t
                           CATCH (fun _ => console_error line2))) w
    = (Ok tt, w').
Proof.
  unfold try_catch at 1. destruct (m w) as [[[]|e] w1].
  - eexists; reflexivity.
  - apply recovery_total.
Qed.

Lemma handleOperatorMessage_total E phone text w :
  exists w', handleOperatorMessage E phone text w = (Ok tt, w').
Proof.
  unfold handleOperatorMessage, confirmBooking, rejectBooking.
  destruct (text =? "YES")%string; [apply try_with_recovery_total|].
  destruct (text =? "NO")%string; [apply try_with_recovery_total|].
  eexists; reflexivity.
Qed.

Lemma handleCustomerMessage_total E phone text w :
  exists w', handleCustomerMessage E phone text w = (Ok tt, w').
Proof.
  unfold handleCustomerMessage, createBooking.
  destruct (text =? "BOOK")%string; [apply try_with_recovery_total|].
  eexists; reflexivity.
Qed.

(** A text message whose sender lookup runs is handed, after the
    acknowledgement, to one of the two command handlers. *)
Lemma post_webhook_text E body w message sender :
  first_inbound body = Some message ->
  kind message = Some "text" ->
  from message = Some sender ->
  db_ok E (SelectOperatorByPhone (normalizePhoneNumber sender)) = true ->
  snd (post_webhook E body w) =
  snd ((if known_operator (w_db w) (normalizePhoneNumber sender)
        then handleOperatorMessage E (normalizePhoneNumber sender) (command_of E message)
        else handleCustomerMessage E (normalizePhoneNumber sender) (command_of E message))
         (acknowledged w)).
Proof.
  intros Hin Hkind Hfrom Hdb.
  unfold first_inbound in Hin.
  unfold post_webhook, webhook_try_block.
  erewrite try_bind_ok by reflexivity.
  destruct (first_change body) as [change|]; [|discriminate].
  rewrite Hin, Hkind, Hfrom. cbn [is_text String.eqb Ascii.eqb Bool.eqb negb deref].
  erewrite try_bind_ok by reflexivity.
  unfold console_log at 1.
  erewrite try_bind_ok by reflexivity.
  unfold Operator_findByPhone.
  erewrite try_bind_ok by (apply db_get_ok; exact Hdb).
  cbn [w_db w_trace]. unfold known_operator, acknowledged.
  rewrite <- app_assoc. cbn [app].
  fold (command_of E message).
  destruct (find _ (operators (w_db w))) as [op|]; unfold try_catch.
  - destruct (handleOperatorMessage_total E (normalizePhoneNumber sender)
                (command_of E message)
                (mkWorld (w_db w)
                   (w_trace w ++ [Respond 200 "OK"; ConsoleLog "Received message"])))
      as [w' ->]. reflexivity.
  - destruct (handleCustomerMessage_total E (normalizePhoneNumber sender)
                (command_of E message)
                (mkWorld (w_db w)
                   (w_trace w ++ [Respond 200 "OK"; ConsoleLog "Received message"])))
      as [w' ->]. reflexivity.
Qed.

(** For any delivery: either nothing but talk happens, or the delivery is
    a command and the world is the one its handler leaves. *)
Lemma post_webhook_dispatch E body w :
  let w' := snd (post_webhook E body w) in
  only_talks w w' \/
  match command_in E (w_db w) body with
  | CmdBook p => w' = snd (createBooking E p (acknowledged w))
  | CmdYes p => w' = snd (confirmBooking E p (acknowledged w))
  | CmdNo p => w' = snd (rejectBooking E p (acknowledged w))
  | CmdNone => False
  end.
Proof.
  intros w'. subst w'. unfold command_in.
  destruct (first_inbound body) as [message|] eqn:Hin.
  2:{ left. unfold first_inbound in Hin.
      unfold post_webhook, webhook_try_block. as_ensures.
      destruct (first_change body) as [change|]; [rewrite Hin|];
        unfold_handlers; frame_with only_talks_refl only_talks_trans. }
  destruct (is_text (kind message)) eqn:Hkind.
  2:{ left. unfold first_inbound in Hin.
      unfold post_webhook, webhook_try_block. as_ensures.
      destruct (first_change body) as [change|]; [rewrite Hin, Hkind|];
        cbn [negb]; unfold_handlers;
        frame_with only_talks_refl only_talks_trans. }
  assert (kind message = Some "text") as Hk.
  { destruct (kind message) as [k|]; [|discriminate]. cbn in Hkind.
    apply String.eqb_eq in Hkind. now subst. }
  destruct (from message) as [sender|] eqn:Hfrom.
  2:{ left. unfold first_inbound in Hin.
      unfold post_webhook, webhook_try_block. as_ensures.
      destruct (first_change body) as [change|]; [rewrite Hin, Hkind, Hfrom|];
        cbn [negb deref]; unfold_handlers;
        frame_with only_talks_refl only_talks_trans. }
  destruct (db_ok E (SelectOperatorByPhone (normalizePhoneNumber sender))) eqn:Hdb.
  2:{ left. unfold first_inbound in Hin.
      unfold post_webhook, webhook_try_block.
      erewrite try_bind_ok by reflexivity.
      destruct (first_change body) as [change|]; [|discriminate].
      rewrite Hin, Hkind, Hfrom. cbn [negb deref].
      erewrite try_bind_ok by reflexivity.
      unfold console_log at 1.
      erewrite try_bind_ok by reflexivity.
      unfold Operator_findByPhone, try_catch, bind, db_get. rewrite Hdb.
      split; [reflexivity|]. cbn. eexists. rewrite <- !app_assoc. reflexivity. }
  rewrite (post_webhook_text E body w message sender Hin Hk Hfrom Hdb).
  cbn zeta.
  assert (only_talks w (acknowledged w)) as Hack.
  { split; [reflexivity | eexists; reflexivity]. }
  destruct (known_operator (w_db w) (normalizePhoneNumber sender)).
  - unfold handleOperatorMessage.
    destruct (command_of E message =? "YES")%string; [now right|].
    destruct (command_of E message =? "NO")%string; [now right|].
    left. eapply only_talks_trans; [exact Hack|]. apply emit_only_talks.
  - unfold handleCustomerMessage.
    destruct (command_of E message =? "BOOK")%string; [now right|].
    left. eapply only_talks_trans; [exact Hack|]. apply emit_only_talks.
Qed.

(** ** Status changes *)

Lemma Booking_updateStatus_world E id st w :
  exists res w1,
    Booking_updateStatus E id st w = (res, w1) /\
    (w1 = w \/
     w1 = mkWorld (set_bookings (w_db w) (set_status id st (bookings (w_db w)))
                                (seq_bookings (w_db w)))
                  (w_trace w)).
Proof.
  unfold Booking_updateStatus, bind, db_run.
  destruct (db_ok E (UpdateBookingStatus id st)).
  - cbn [update_status fst snd].
    destruct (_ =? 0).
    + do 2 eexists. split; [reflexivity | now right].
    + unfold Booking_findById, db_get.
      destruct (db_ok E (SelectBookingById id));
        do 2 eexists; (split; [reflexivity | now right]).
  - do 2 eexists. split; [reflexivity | now left].
Qed.

(** The shape shared by the two operator commands: past the SELECT of the
    latest pending booking, either the UPDATE ran or the bookings are as
    they were. *)
Lemma status_change_frame E st (A : M unit)
      (K : Booking.t -> option Booking.t -> M unit) (H : js_error -> M unit) w :
  ensures A same_bookings ->
  (forall b a, ensures (K b a) same_bookings) ->
  (forall e, ensures (H e) same_bookings) ->
  let w' :=
    snd (try_catch
           (booking <- getLatestPendingBooking E ;;
            match booking with
            | None => A
            | Some b => updated <- Booking_updateStatus E (Booking.id b) st ;; K b updated
            end) H w) in
  same_bookings w w' \/
  exists b, latest_pending (w_db w) = Some b /\
            same_bookings
              (mkWorld (set_bookings (w_db w)
                          (set_status (Booking.id b) st (bookings (w_db w)))
                          (seq_bookings (w_db w)))
                       (w_trace w))
              w'.
Proof.
  intros HA HK HH. cbn zeta. unfold getLatestPendingBooking.
  destruct (db_ok E SelectLatestPending) eqn:Hdb.
  - erewrite try_bind_ok by (apply db_get_ok; exact Hdb).
    destruct (latest_pending (w_db w)) as [b|] eqn:Hlatest.
    + destruct (Booking_updateStatus_world E (Booking.id b) st w)
        as (res & w1 & Hres & [->| ->]);
        [ left | right; exists b; split; [reflexivity|] ];
        apply (try_bind_frame same_bookings _ _ _ _ _ _
                 same_bookings_refl same_bookings_trans Hres); auto.
    + left. as_ensures. apply (ensures_try _ same_bookings_trans); auto.
  - left. unfold try_catch, bind, db_get. rewrite Hdb. apply HH.
Qed.

Lemma confirmBooking_bookings E p w :
  let w' := snd (confirmBooking E p w) in
  same_bookings w w' \/
  exists b, latest_pending (w_db w) = Some b /\
            same_bookings
              (mkWorld (set_bookings (w_db w)
                          (set_status (Booking.id b) "confirmed" (bookings (w_db w)))
                          (seq_bookings (w_db w)))
                       (w_trace w))
              w'.
Proof.
  unfold confirmBooking.
  apply (status_change_frame E "confirmed" _ (fun booking updatedBooking => _));
    try intros ?; try intros ?; unfold_handlers;
    frame_with same_bookings_refl same_bookings_trans.
Qed.

Lemma rejectBooking_bookings E p w :
  let w' := snd (rejectBooking E p w) in
  same_bookings w w' \/
  exists b, latest_pending (w_db w) = Some b /\
            same_bookings
              (mkWorld (set_bookings (w_db w)
                          (set_status (Booking.id b) "rejected" (bookings (w_db w)))
                          (seq_bookings (w_db w)))
                       (w_trace w))
              w'.
Proof.
  unfold rejectBooking.
  apply (status_change_frame E "rejected" _ (fun booking updatedBooking => _));
    try intros ?; try intros ?; unfold_handlers;
    frame_with same_bookings_refl same_bookings_trans.
Qed.

(** *** The path on which everything works *)

Lemma select_booking_after_update d b st seq :
  In b (bookings d) ->
  exists x, select_booking (Booking.id b)
              (set_bookings d (set_status (Booking.id b) st (bookings d)) seq) = Some x.
Proof.
  intros Hin. unfold select_booking. cbn [bookings set_bookings].
  destruct (find _ (set_status (Booking.id b) st (bookings d))) as [x|] eqn:F;
    [now exists x|].
  assert (In (Booking.with_status st b) (set_status (Booking.id b) st (bookings d))) as H.
  { unfold set_status. apply in_map_iff. exists b. now rewrite Z.eqb_refl. }
  apply (find_none _ _ F) in H. cbn in H. rewrite Z.eqb_refl in H. discriminate.
Qed.

Lemma Booking_updateStatus_ok E st w b :
  db_healthy E -> In b (bookings (w_db w)) ->
  exists b',
    Booking_updateStatus E (Booking.id b) st w =
    (Ok (Some b'),
     mkWorld (set_bookings (w_db w) (set_status (Booking.id b) st (bookings (w_db w)))
                           (seq_bookings (w_db w)))
             (w_trace w)).
Proof.
  intros HE Hin. unfold Booking_updateStatus.
  destruct (select_booking_after_update (w_db w) b st (seq_bookings (w_db w)) Hin)
    as [x Hx].
  exists x. erewrite bind_ok by (apply db_run_ok; [apply HE | reflexivity]).
  assert (In b (filter (fun b0 => Booking.id b0 =? Booking.id b) (bookings (w_db w)))) as Hf.
  { apply filter_In. split; [exact Hin | apply Z.eqb_refl]. }
  destruct (filter _ (bookings (w_db w))) as [|y l]; [destruct Hf|].
  cbn [List.length]. rewrite Nat2Z.inj_succ.
  destruct (Z.eqb_spec (Z.succ (Z.of_nat (List.length l))) 0) as [H0|_]; [lia|].
  unfold Booking_findById. rewrite db_get_ok by apply HE.
  cbn [w_db]. now rewrite Hx.
Qed.

Lemma MessageLog_create_ok E bid ty w x :
  db_healthy E -> select_booking bid (w_db w) = Some x ->
  exists res,
    MessageLog_create E (Some bid) ty w =
    (Ok res,
     mkWorld
       (set_message_logs (w_db w)
          (message_logs (w_db w) ++
           [MessageLog.mk (next_id (seq_message_logs (w_db w))
                                   (map MessageLog.id (message_logs (w_db w))))
                          (Some bid) ty (now E)])
          (next_id (seq_message_logs (w_db w)) (map MessageLog.id (message_logs (w_db w)))))
       (w_trace w)).
Proof.
  intros HE Hx. unfold MessageLog_create.
  erewrite bind_ok.
  2:{ apply db_run_ok; [apply HE|]. unfold insert_message_log. rewrite Hx. reflexivity. }
  rewrite db_get_ok by apply HE. eexists. reflexivity.
Qed.



Lemma createBooking_bookings E p w :
  let w' := snd (createBooking E p w) in
  same_bookings w w' \/
  exists row, bookings (w_db w') = bookings (w_db w) ++ [row] /\
              Booking.status row = "pending" /\
              Booking.id row = next_id (seq_bookings (w_db w))
                                       (map Booking.id (bookings (w_db w))).
Proof.
  cbn zeta.
  destruct (db_ok E SelectFirstRoute) eqn:Hq.
  2:{ left. unfold createBooking, getFirstRoute, try_catch at 1, bind at 1, db_get.
      rewrite Hq. as_ensures. unfold_handlers.
      frame_with same_bookings_refl same_bookings_trans. }
  destruct (lowest_id (routes (w_db w))) as [route|] eqn:Hroute.
  2:{ left. apply only_talks_same_bookings.
      now apply createBooking_without_route. }
  destruct (db_ok E (InsertBooking p (Route.id route))) eqn:Hins.
  - right. eexists. split; [exact (createBooking_inserts E w p route Hq Hroute Hins)|].
    split; reflexivity.
  - left. unfold createBooking, getFirstRoute.
    erewrite try_bind_ok by (apply db_get_ok; exact Hq).
    rewrite Hroute.
    assert (Booking_create E (Some "Customer") p (Route.id route) (tomorrow_iso E) 1
              "pending" w = (Throw (DbError (InsertBooking p (Route.id route))), w)) as Hres.
    { unfold Booking_create, bind, db_run. now rewrite Hins. }
    apply (try_bind_frame same_bookings _ _ _ _ _ _
             same_bookings_refl same_bookings_trans Hres);
      intros ?; unfold_handlers; frame_with same_bookings_refl same_bookings_trans.
Qed.


Lemma acknowledged_db w : w_db (acknowledged w) = w_db w.
Proof. reflexivity. Qed.

Lemma in_set_status x id st bs :
  In x (set_status id st bs) ->
  In x bs \/ exists y, In y bs /\ Booking.id y = id /\ x = Booking.with_status st y.
Proof.
  unfold set_status. rewrite in_map_iff. intros (y & Hy & Hin).
  destruct (Z.eqb_spec (Booking.id y) id) as [He|_].
  - right. exists y. now repeat split.
  - left. now subst.
Qed.








(** ** Confirmation *)



(** The command word is read with the white space of ECMAScript: a text
    that ends in a no-break space, or begins with a byte order mark, is the
    command all the same. *)
Example commands_with_unicode_white_space :
  let w1 := snd (post_webhook Example.fair
                   (Example.text_from Example.customer ("book" ++ JsString.utf8 160))
                   Example.world0) in
  let w2 := snd (post_webhook Example.fair
                   (Example.text_from Example.operator
                      (JsString.utf8 65279 ++ "yes" ++ JsString.utf8 8233))
                   w1) in
  map Booking.status (bookings (w_db w1)) = ["pending"] /\
  map Booking.status (bookings (w_db w2)) = ["confirmed"].
Proof. vm_compute. repeat split. Qed.

(** ** Customer messages *)





(** C6 fails as stated.  A booking left pending for a whole day, far beyond
    a ten-minute hold, is still pending after the schedule fires, once or
    twice; nothing ever moves it to an expired status. *)
Lemma stale_pending_survives_schedule :
  let w1 := Example.deliveries Example.fair
              [Example.text_from Example.customer "BOOK"] Example.world0 in
  let w2 := snd (run_scheduled_jobs Example.a_day_later w1) in
  let w3 := snd (run_scheduled_jobs Example.a_day_later w2) in
  map (fun b => (Booking.status b, Booking.created_at b)) (bookings (w_db w1))
    = [("pending", 1705287600)] /\
  now Example.a_day_later / 1000 - 1705287600 = 24 * 60 * 60 /\
  map Booking.status (bookings (w_db w2)) = ["pending"] /\
  map Booking.status (bookings (w_db w3)) = ["pending"].
Proof. vm_compute. repeat split. Qed.

(** ** Bookings that are no longer pending *)

Lemma max_id_ge ids i : In i ids -> i <= max_id ids.
Proof.
  unfold max_id. induction ids as [|x l IH]; cbn [fold_right In]; [intros []|].
  intros [->|H]; [lia|]. specialize (IH H). lia.
Qed.

Lemma next_id_fresh seq ids : ~ In (next_id seq ids) ids.
Proof.
  intros H. apply max_id_ge in H. unfold next_id in H. lia.
Qed.

Lemma set_status_ids id st bs :
  map Booking.id (set_status id st bs) = map Booking.id bs.
Proof.
  unfold set_status. rewrite map_map. apply map_ext.
  intros b. now destruct (Booking.id b =? id).
Qed.

Lemma unique_id_row bs x y :
  NoDup (map Booking.id bs) -> In x bs -> In y bs ->
  Booking.id x = Booking.id y -> x = y.
Proof.
  induction bs as [|b bs IH]; cbn; [intros _ []|].
  intros Hnd Hx Hy Heq. inversion Hnd as [|? ? Hnotin Hnd']; subst.
  destruct Hx as [->|Hx], Hy as [->|Hy]; auto.
  - exfalso. apply Hnotin. rewrite Heq. now apply in_map.
  - exfalso. apply Hnotin. rewrite <- Heq. now apply in_map.
Qed.

Lemma set_status_keeps bs b st x :
  NoDup (map Booking.id bs) ->
  In b bs -> Booking.status b = "pending" ->
  In x bs -> Booking.status x <> "pending" ->
  In x (set_status (Booking.id b) st bs).
Proof.
  intros Hnd Hb Hpb Hx Hpx. unfold set_status. apply in_map_iff. exists x.
  split; [|exact Hx].
  destruct (Z.eqb_spec (Booking.id x) (Booking.id b)) as [Heq|_]; [|reflexivity].
  exfalso. apply Hpx. now rewrite (unique_id_row bs x b Hnd Hx Hb Heq).
Qed.

Lemma db_get_step {A} E q (f : db -> A) w :
  db_get E q f w =
  ((if db_ok E q then Ok (f (w_db w)) else Throw (DbError q)), w).
Proof. unfold db_get. now destruct (db_ok E q). Qed.

Lemma getBookingOrLatestPending_reads E oid w :
  exists r,
    getBookingOrLatestPending E oid w = (r, w) /\
    forall b, r = Ok (Some b) -> In b (bookings (w_db w)).
Proof.
  assert (exists r, getLatestPendingBooking E w = (r, w) /\
                    forall b, r = Ok (Some b) -> In b (bookings (w_db w))) as Hlatest.
  { unfold getLatestPendingBooking, db_get. destruct (db_ok E SelectLatestPending).
    - eexists. split; [reflexivity|]. intros b [= Hb].
      now apply latest_pending_spec in Hb.
    - eexists. split; [reflexivity|]. discriminate. }
  unfold getBookingOrLatestPending. destruct oid as [id|]; [|exact Hlatest].
  destruct (id =? 0); [exact Hlatest|].
  unfold Booking_findById, db_get. destruct (db_ok E (SelectBookingById id)).
  - eexists. split; [reflexivity|]. intros b [= Hb].
    unfold select_booking in Hb. now apply find_some in Hb.
  - eexists. split; [reflexivity|]. discriminate.
Qed.

(** The shape shared by the two decision endpoints: the UPDATE is reached
    only for a booking read as 'pending'. *)
Lemma guarded_change_frame E st oid (A : M unit) (B : Booking.t -> M unit)
      (K : Booking.t -> option Booking.t -> M unit) (H : js_error -> M unit) w :
  ensures A same_bookings ->
  (forall b, ensures (B b) same_bookings) ->
  (forall b a, ensures (K b a) same_bookings) ->
  (forall e, ensures (H e) same_bookings) ->
  let w' :=
    snd (try_catch
           (booking <- getBookingOrLatestPending E oid ;;
            match booking with
            | None => A
            | Some b =>
                if negb (is_pending b) then B b
                else updated <- Booking_updateStatus E (Booking.id b) st ;; K b updated
            end) H w) in
  same_bookings w w' \/
  exists b, In b (bookings (w_db w)) /\ Booking.status b = "pending" /\
            same_bookings
              (mkWorld (set_bookings (w_db w)
                          (set_status (Booking.id b) st (bookings (w_db w)))
                          (seq_bookings (w_db w)))
                       (w_trace w))
              w'.
Proof.
  intros HA HB HK HH. cbn zeta.
  destruct (getBookingOrLatestPending_reads E oid w) as (r & Hr & Hin).
  rewrite (try_bind_step _ _ _ _ _ _ Hr).
  destruct r as [[b|]|e].
  - destruct (is_pending b) eqn:Hp; cbn [negb].
    + destruct (Booking_updateStatus_world E (Booking.id b) st w)
        as (res & w1 & Hres & [->| ->]).
      * left. apply (try_bind_frame same_bookings _ _ _ _ _ _
                       same_bookings_refl same_bookings_trans Hres); auto.
      * right. exists b. split; [now apply Hin|]. split.
        { unfold is_pending in Hp. now apply String.eqb_eq in Hp. }
        apply (try_bind_frame same_bookings _ _ _ _ _ _
                 same_bookings_refl same_bookings_trans Hres); auto.
    + left. as_ensures. apply (ensures_try _ same_bookings_trans); auto.
  - left. as_ensures. apply (ensures_try _ same_bookings_trans); auto.
  - left. apply HH.
Qed.

Ltac frame_bookings :=
  repeat match goal with |- forall _, _ => intro end;
  unfold_handlers; unfold given; frame_with same_bookings_refl same_bookings_trans.

Lemma post_booking_confirm_bookings E req w :
  let w' := snd (post_booking_confirm E req w) in
  same_bookings w w' \/
  exists b, In b (bookings (w_db w)) /\ Booking.status b = "pending" /\
            same_bookings
              (mkWorld (set_bookings (w_db w)
                          (set_status (Booking.id b) "confirmed" (bookings (w_db w)))
                          (seq_bookings (w_db w)))
                       (w_trace w))
              w'.
Proof.
  unfold post_booking_confirm.
  apply (guarded_change_frame E "confirmed" _ _ (fun booking => _)
           (fun booking updatedBooking => _));
    frame_bookings.
Qed.

Lemma post_booking_reject_bookings E req w :
  let w' := snd (post_booking_reject E req w) in
  same_bookings w w' \/
  exists b, In b (bookings (w_db w)) /\ Booking.status b = "pending" /\
            same_bookings
              (mkWorld (set_bookings (w_db w)
                          (set_status (Booking.id b) "rejected" (bookings (w_db w)))
                          (seq_bookings (w_db w)))
                       (w_trace w))
              w'.
Proof.
  unfold post_booking_reject.
  apply (guarded_change_frame E "rejected" _ _ (fun booking => _)
           (fun booking updatedBooking => _));
    frame_bookings.
Qed.

Lemma Booking_create_world E name phone rid date count st w :
  exists res w1,
    Booking_create E name phone rid date count st w = (res, w1) /\
    (w1 = w \/
     w1 = mkWorld
            (set_bookings (w_db w)
               (bookings (w_db w) ++
                [Booking.mk (next_id (seq_bookings (w_db w))
                                     (map Booking.id (bookings (w_db w))))
                            name phone rid date count st (now E / 1000)])
               (next_id (seq_bookings (w_db w)) (map Booking.id (bookings (w_db w)))))
            (w_trace w)).
Proof.
  destruct (db_ok E (InsertBooking phone rid)) eqn:Hok.
  - destruct (select_route rid (w_db w)) as [r|] eqn:Hr.
    + destruct (Booking_create_inserts E name phone rid date count st w r Hok Hr)
        as [res Hres].
      do 2 eexists. split; [exact Hres | now right].
    + do 2 eexists. split; [|now left].
      unfold Booking_create, bind, db_run, insert_booking. rewrite Hok, Hr. reflexivity.
  - do 2 eexists. split; [|now left].
    unfold Booking_create, bind, db_run. rewrite Hok. reflexivity.
Qed.

Lemma create_for_route_bookings E req route (H : js_error -> M unit) w :
  (forall e, ensures (H e) same_bookings) ->
  let w' := snd (try_catch (create_for_route E req route) H w) in
  same_bookings w w' \/
  exists row, bookings (w_db w') = bookings (w_db w) ++ [row] /\
              Booking.status row = "pending" /\
              Booking.id row = next_id (seq_bookings (w_db w))
                                       (map Booking.id (bookings (w_db w))).
Proof.
  intros HH. cbn zeta. unfold create_for_route. cbn zeta.
  match goal with
  | |- context [Booking_create E ?name ?phone ?rid ?date ?count ?st] =>
      destruct (Booking_create_world E name phone rid date count st w)
        as (res & w1 & Hres & [->| ->])
  end.
  - left. apply (try_bind_frame same_bookings _ _ _ _ _ _
                   same_bookings_refl same_bookings_trans Hres);
      [intros ?; frame_bookings | exact HH].
  - right. eexists. split.
    + refine (proj1 (try_bind_frame same_bookings _ _ _ _ _ _
                       same_bookings_refl same_bookings_trans Hres _ HH)).
      frame_bookings.
    + split; reflexivity.
Qed.

Lemma post_booking_create_bookings E req w :
  let w' := snd (post_booking_create E req w) in
  same_bookings w w' \/
  exists row, bookings (w_db w') = bookings (w_db w) ++ [row] /\
              Booking.status row = "pending" /\
              Booking.id row = next_id (seq_bookings (w_db w))
                                       (map Booking.id (bookings (w_db w))).
Proof.
  cbn zeta. unfold post_booking_create.
  assert (forall e, ensures
            ((fun _ : js_error =>
                console_error "Error creating booking" ;;
                emit (Respond 500 "Internal server error while creating booking")) e)
            same_bookings) as HH by (intros e; frame_bookings).
  destruct (negb (given (req_customer_phone req))).
  { left. as_ensures. frame_bookings. }
  destruct (nonzero (req_route_id req)) as [rid|].
  - unfold Route_findById.
    rewrite (try_bind_step _ _ _ _ _ _ (db_get_step E _ _ w)).
    destruct (db_ok E (SelectRouteById rid)); [|left; apply (HH TypeError)].
    destruct (select_route rid (w_db w)) as [route|].
    + exact (create_for_route_bookings E req route _ w HH).
    + left. cbn. split; reflexivity.
  - unfold getFirstRoute.
    rewrite (try_bind_step _ _ _ _ _ _ (db_get_step E _ _ w)).
    destruct (db_ok E SelectFirstRoute); [|left; apply (HH TypeError)].
    destruct (lowest_id (routes (w_db w))) as [route|].
    + exact (create_for_route_bookings E req route _ w HH).
    + left. cbn. split; reflexivity.
Qed.

(** What every operation guarantees, as a relation on bookings tables. *)
Lemma step_bookings E op w :
  let bs := bookings (w_db w) in
  let bs' := bookings (w_db (step E op w)) in
  bs' = bs \/
  (exists row, bs' = bs ++ [row] /\ Booking.status row = "pending" /\
               Booking.id row = next_id (seq_bookings (w_db w)) (map Booking.id bs)) \/
  (exists b st, In b bs /\ Booking.status b = "pending" /\
                (st = "confirmed" \/ st = "rejected") /\
                bs' = set_status (Booking.id b) st bs).
Proof.
  cbn zeta. destruct op as [body|req|req|req|]; cbn [step].
  - destruct (post_webhook_dispatch E body w) as [[H _]|H].
    { left. now rewrite H. }
    destruct (command_in E (w_db w) body) as [p|p|p|]; try contradiction; rewrite H.
    + destruct (createBooking_bookings E p (acknowledged w))
        as [[Hb _]|(row & Hb & Hst & Hid)].
      * now left.
      * right. left. exists row. repeat split; assumption.
    + destruct (confirmBooking_bookings E p (acknowledged w)) as [[Hb _]|(b & Hl & [Hb _])].
      * now left.
      * apply latest_pending_spec in Hl as (Hin & Hp & _).
        right. right. exists b, "confirmed". repeat split; auto.
    + destruct (rejectBooking_bookings E p (acknowledged w)) as [[Hb _]|(b & Hl & [Hb _])].
      * now left.
      * apply latest_pending_spec in Hl as (Hin & Hp & _).
        right. right. exists b, "rejected". repeat split; auto.
  - destruct (post_booking_create_bookings E req w) as [[Hb _]|(row & Hb & Hst & Hid)].
    + now left.
    + right. left. exists row. repeat split; assumption.
  - destruct (post_booking_confirm_bookings E req w) as [[Hb _]|(b & Hin & Hp & [Hb _])].
    + now left.
    + right. right. exists b, "confirmed". repeat split; auto.
  - destruct (post_booking_reject_bookings E req w) as [[Hb _]|(b & Hin & Hp & [Hb _])].
    + now left.
    + right. right. exists b, "rejected". repeat split; auto.
  - left. apply scheduled_jobs_same_bookings.
Qed.

Lemma step_keeps_settled E op w :
  unique_ids (w_db w) ->
  let d := w_db w in
  let d' := w_db (step E op w) in
  unique_ids d' /\
  (forall x, In x (bookings d) -> Booking.status x <> "pending" -> In x (bookings d')) /\
  (forall x', In x' (bookings d') ->
              In x' (bookings d) \/ Booking.status x' = "pending" \/
              Booking.status x' = "confirmed" \/ Booking.status x' = "rejected").
Proof.
  intros Hnd. cbn zeta. unfold unique_ids in *.
  destruct (step_bookings E op w)
    as [->|[(row & -> & Hst & Hid)|(b & st & Hb & Hp & Hst & ->)]].
  - repeat split; auto.
  - repeat split.
    + rewrite map_app. apply NoDup_app; [exact Hnd | |].
      * cbn. constructor; [intros []|constructor].
      * intros i Hi [<-|[]]. rewrite Hid in Hi. now apply next_id_fresh in Hi.
    + intros x Hx _. apply in_or_app. now left.
    + intros x' Hx'. apply in_app_or in Hx' as [Hx'|[<-|[]]]; auto.
  - repeat split.
    + now rewrite set_status_ids.
    + intros x Hx Hs. now apply set_status_keeps.
    + intros x' Hx'. apply in_set_status in Hx' as [Hx'|(y & _ & _ & ->)]; auto.
Qed.

(** C2 (as the code has it).  Statuses written by the code are 'pending',
    'confirmed' and 'rejected'.  Through any sequence of deliveries, calls
    of the booking endpoints and schedule firings, handled one after the
    other, booking ids stay unique, every booking that is not 'pending'
    stays in the table exactly as it is, and every row that was not there
    before is 'pending', 'confirmed' or 'rejected'.  The guard is the read
    of a pending row before the UPDATE, not a condition on the UPDATE. *)
Theorem settled_bookings_are_kept :
  forall (ops : list (env * operation)) (w : world),
    unique_ids (w_db w) ->
    let d := w_db w in
    let d' := w_db (run ops w) in
    unique_ids d' /\
    (forall x, In x (bookings d) -> Booking.status x <> "pending" -> In x (bookings d')) /\
    (forall x', In x' (bookings d') ->
                In x' (bookings d) \/ Booking.status x' = "pending" \/
                Booking.status x' = "confirmed" \/ Booking.status x' = "rejected").
Proof.
  intros ops. unfold run. cbn zeta.
  induction ops as [|[E op] ops IH]; intros w Hnd; cbn [fold_left fst snd].
  - repeat split; auto.
  - destruct (step_keeps_settled E op w Hnd) as (Hnd1 & Hkeep1 & Hnew1).
    destruct (IH (step E op w) Hnd1) as (Hnd2 & Hkeep2 & Hnew2).
    repeat split; auto.
    intros x' Hx'. destruct (Hnew2 x' Hx') as [H|H]; auto.
Qed.

Lemma settled_bookings_are_kept_witness :
  In (Booking.mk 1 (Some "Customer") "919876543210" 1 "2024-01-16" 1
                 "confirmed" 1705287600)
     (bookings
        (w_db (run [(Example.fair, Deliver (Example.text_from Example.operator "NO"));
                    (Example.fair, Reject (mkDecision None (Some 1)));
                    (Example.a_day_later, Tick);
                    (Example.fair, Confirm (mkDecision (Some "1234567890") (Some 1)));
                    (Example.fair, Deliver (Example.text_from Example.operator "YES"))]
                   (Example.deliveries Example.fair
                      [Example.text_from Example.customer "BOOK";
                       Example.text_from Example.operator "YES"]
                      Example.world0)))).
Proof.
  destruct (settled_bookings_are_kept
              [(Example.fair, Deliver (Example.text_from Example.operator "NO"));
               (Example.fair, Reject (mkDecision None (Some 1)));
               (Example.a_day_later, Tick);
               (Example.fair, Confirm (mkDecision (Some "1234567890") (Some 1)));
               (Example.fair, Deliver (Example.text_from Example.operator "YES"))]
              (Example.deliveries Example.fair
                 [Example.text_from Example.customer "BOOK";
                  Example.text_from Example.operator "YES"]
                 Example.world0)) as (_ & H & _).
  - vm_compute. constructor; [intros []|constructor].
  - apply H.
    + vm_compute. now left.
    + discriminate.
Defined.

(** C2 fails as stated.  The status write has no condition on the current
    status: on a booking already 'confirmed', updateStatus to 'rejected' and
    then back to 'pending' both take effect. *)
Lemma updateStatus_overwrites_confirmed :
  let w2 := Example.deliveries Example.fair
              [Example.text_from Example.customer "BOOK";
               Example.text_from Example.operator "YES"] Example.world0 in
  let w3 := snd (Booking_updateStatus Example.fair 1 "rejected" w2) in
  let w4 := snd (Booking_updateStatus Example.fair 1 "pending" w3) in
  map Booking.status (bookings (w_db w2)) = ["confirmed"] /\
  map Booking.status (bookings (w_db w3)) = ["rejected"] /\
  map Booking.status (bookings (w_db w4)) = ["pending"].
Proof. vm_compute. repeat split. Qed.

(** ** Reminders *)

Lemma reminders_sent_app i tr tr' :
  reminders_sent i (tr ++ tr') = (reminders_sent i tr + reminders_sent i tr')%nat.
Proof. unfold reminders_sent. now rewrite filter_app, length_app. Qed.

Lemma has_reminder_log_grows d ls seq i :
  has_reminder_log d i = true ->
  has_reminder_log (set_message_logs d (message_logs d ++ ls) seq) i = true.
Proof.
  unfold has_reminder_log. cbn. rewrite existsb_app. intros ->. reflexivity.
Qed.

Lemma select_booking_of_In d b :
  In b (bookings d) -> exists x, select_booking (Booking.id b) d = Some x.
Proof.
  intros H. unfold select_booking.
  destruct (find (fun b0 => Booking.id b0 =? Booking.id b) (bookings d)) as [x|] eqn:F.
  - now exists x.
  - apply (find_none _ _ F) in H. rewrite Z.eqb_refl in H. discriminate.
Qed.

Lemma reminders_sent_snoc i tr e :
  reminders_sent i (tr ++ [e]) =
  (reminders_sent i tr + (if is_reminder_to i e then 1 else 0))%nat.
Proof.
  rewrite reminders_sent_app. unfold reminders_sent at 2. cbn.
  now destruct (is_reminder_to i e).
Qed.

#[local] Arguments reminders_sent : simpl never.
#[local] Arguments has_reminder_log : simpl never.

(** What one iteration of the reminder loop does. *)
Lemma remind_effect E b w :
  let w' := snd (remind E b w) in
  bookings (w_db w') = bookings (w_db w) /\
  routes (w_db w') = routes (w_db w) /\
  (forall i, has_reminder_log (w_db w) i = true -> has_reminder_log (w_db w') i = true) /\
  exists posted : bool,
    (forall i, reminders_sent i (w_trace w') =
               (reminders_sent i (w_trace w) +
                (if posted && (Booking.id b =? i)%Z then 1 else 0))%nat) /\
    (posted = true ->
     db_ok E (InsertMessageLog (Some (Booking.id b)) "reminder") = true ->
     In b (bookings (w_db w)) ->
     has_reminder_log (w_db w') (Booking.id b) = true).
Proof.
  cbn zeta.
  unfold remind, Route_findById, try_catch, bind, db_get.
  destruct (db_ok E (SelectRouteById (Booking.route_id b))).
  2:{ cbn. repeat split; auto. exists false. split; [|discriminate].
      intros i. now rewrite reminders_sent_snoc. }
  destruct (select_route (Booking.route_id b) (w_db w)) as [r|].
  2:{ cbn. repeat split; auto. exists false. split; [|discriminate].
      intros i. now rewrite reminders_sent_snoc. }
  unfold sendMessage.
  destruct (unset (ACCESS_TOKEN E)).
  { cbn. repeat split; auto. exists false. split; [|discriminate].
    intros i. now rewrite reminders_sent_snoc. }
  destruct (unset (PHONE_NUMBER_ID E)).
  { cbn. repeat split; auto. exists false. split; [|discriminate].
    intros i. now rewrite reminders_sent_snoc. }
  destruct (negb (JsString.nonempty (Booking.customer_phone b))).
  { cbn. repeat split; auto. exists false. split; [|discriminate].
    intros i. now rewrite reminders_sent_snoc. }
  destruct (api_ok E _ _).
  2:{ cbn. repeat split; auto. exists false. split; [|discriminate].
      intros i. now rewrite !reminders_sent_snoc. }
  cbn [emit fst snd w_db w_trace].
  unfold MessageLog_create, bind, db_run, insert_message_log.
  cbn [w_db w_trace].
  destruct (db_ok E (InsertMessageLog (Some (Booking.id b)) "reminder")) eqn:Hins.
  2:{ cbn. repeat split; auto. exists true. split; [|discriminate].
      intros i. rewrite !reminders_sent_snoc. cbn.
      destruct (Booking.id b =? i); cbn; lia. }
  destruct (select_booking (Booking.id b) (w_db w)) as [x|] eqn:Hx.
  2:{ cbn. repeat split; auto. exists true. split.
      - intros i. rewrite !reminders_sent_snoc. cbn.
        destruct (Booking.id b =? i); cbn; lia.
      - intros _ _ Hin. destruct (select_booking_of_In _ _ Hin) as [y Hy]. congruence. }
  unfold db_get. cbn [w_db w_trace].
  assert (has_reminder_log
            (set_message_logs (w_db w)
               (message_logs (w_db w) ++
                [MessageLog.mk (next_id (seq_message_logs (w_db w))
                                        (map MessageLog.id (message_logs (w_db w))))
                               (Some (Booking.id b)) "reminder" (now E)])
               (next_id (seq_message_logs (w_db w))
                        (map MessageLog.id (message_logs (w_db w)))))
            (Booking.id b) = true) as Hlog.
  { unfold has_reminder_log. cbn. rewrite existsb_app. cbn.
    rewrite Z.eqb_refl. cbn. now rewrite orb_true_r. }
  destruct (db_ok E (SelectMessageLogById _));
    cbn; (repeat split; auto;
          [ intros i; apply has_reminder_log_grows
          | exists true; split; [|intros _ _ _; exact Hlog];
            intros i; rewrite !reminders_sent_snoc; cbn;
            destruct (Booking.id b =? i); cbn; lia ]).
Qed.

Lemma remind_total E b w : exists w1, remind E b w = (Ok tt, w1).
Proof.
  unfold remind, try_catch.
  match goal with |- context [match ?m w with _ => _ end] => destruct (m w) as [[[]|e] w1] end.
  - now exists w1.
  - eexists. reflexivity.
Qed.

(** The reminder loop over a selection without repeated ids. *)
Lemma remind_loop E l :
  NoDup (map Booking.id l) ->
  forall w,
    (forall b, In b l -> In b (bookings (w_db w))) ->
    let w' := snd (for_each l (remind E) w) in
    bookings (w_db w') = bookings (w_db w) /\
    routes (w_db w') = routes (w_db w) /\
    (forall i, has_reminder_log (w_db w) i = true ->
               has_reminder_log (w_db w') i = true) /\
    (forall i,
        (reminders_sent i (w_trace w) <= reminders_sent i (w_trace w')
         <= reminders_sent i (w_trace w) + 1)%nat /\
        (~ In i (map Booking.id l) ->
         reminders_sent i (w_trace w') = reminders_sent i (w_trace w)) /\
        (db_ok E (InsertMessageLog (Some i) "reminder") = true ->
         (reminders_sent i (w_trace w) < reminders_sent i (w_trace w'))%nat ->
         has_reminder_log (w_db w') i = true)).
Proof.
  induction l as [|x l IH]; intros Hnd w Hin; cbn zeta.
  - cbn. repeat split; auto; lia.
  - cbn [for_each]. destruct (remind_total E x w) as [w1 Hw1].
    rewrite (bind_ok _ _ _ _ _ Hw1).
    pose proof (remind_effect E x w) as Hx. cbn zeta in Hx. rewrite Hw1 in Hx.
    cbn [snd] in Hx. destruct Hx as (Hb1 & Hr1 & Hlog1 & posted & Hcount & Hposted).
    inversion Hnd as [|? ? Hfresh Hnd']; subst.
    assert (forall b, In b l -> In b (bookings (w_db w1))) as Hin1.
    { intros b Hb. rewrite Hb1. apply Hin. now right. }
    destruct (IH Hnd' w1 Hin1) as (Hb2 & Hr2 & Hlog2 & Hi2).
    split; [congruence|]. split; [congruence|]. split; [auto|].
    intros i. destruct (Hi2 i) as (Hle & Hout & Hlogged).
    specialize (Hcount i).
    destruct (Z.eqb_spec (Booking.id x) i) as [Heq|Hne].
    + (* the row of this id: no other row of the selection has it *)
      subst i. specialize (Hout Hfresh).
      repeat split.
      * destruct posted; cbn in Hcount; lia.
      * destruct posted; cbn in Hcount; lia.
      * cbn [map In]. intros Hn. exfalso. apply Hn. now left.
      * intros Hok Hlt. apply Hlog2. apply Hposted; auto.
        -- destruct posted; [reflexivity|]. cbn in Hcount. lia.
        -- apply Hin. now left.
    + rewrite andb_false_r in Hcount.
      repeat split; try lia.
      * intros Hn. rewrite Hout; [lia|]. intros Hi. apply Hn. now right.
      * intros Hok Hlt. apply Hlogged; [exact Hok | lia].
Qed.

Lemma insert_by_date_perm b l : Permutation (insert_by_date b l) (b :: l).
Proof.
  induction l as [|x l IH]; cbn; [reflexivity|].
  destruct (String.leb _ _); [reflexivity|].
  rewrite IH. apply perm_swap.
Qed.

Lemma order_by_date_perm l : Permutation (order_by_date l) l.
Proof.
  unfold order_by_date. induction l as [|x l IH]; cbn; [reflexivity|].
  rewrite insert_by_date_perm. now constructor.
Qed.

Lemma filter_unique_ids (f : Booking.t -> bool) l :
  NoDup (map Booking.id l) -> NoDup (map Booking.id (filter f l)).
Proof.
  induction l as [|x l IH]; cbn; [auto|].
  intros Hnd. inversion Hnd as [|? ? Hfresh Hnd']; subst.
  destruct (f x); cbn; auto.
  constructor; auto.
  intros Hi. apply Hfresh. apply in_map_iff in Hi as (y & Hy & Hin).
  apply in_map_iff. exists y. split; [exact Hy|].
  now apply filter_In in Hin.
Qed.

Lemma bookings_needing_reminders_spec E d b :
  In b (bookings_needing_reminders E (now E) d) <->
  In b (bookings d) /\ needs_reminder E d (window_start E) (window_end E) b = true.
Proof.
  unfold bookings_needing_reminders. cbn zeta. split.
  - intros H. apply (Permutation_in _ (order_by_date_perm _)) in H.
    now apply filter_In in H.
  - intros H. apply (Permutation_in _ (Permutation_sym (order_by_date_perm _))).
    now apply filter_In.
Qed.

Lemma bookings_needing_reminders_unique E d :
  unique_ids d -> NoDup (map Booking.id (bookings_needing_reminders E (now E) d)).
Proof.
  intros Hnd. unfold bookings_needing_reminders. cbn zeta.
  eapply Permutation_NoDup.
  - apply Permutation_map. apply Permutation_sym. apply order_by_date_perm.
  - now apply filter_unique_ids.
Qed.

Lemma sendReminders_unfold E w :
  snd (sendReminders E w) =
  if db_ok E SelectBookingsNeedingReminders
  then snd (for_each (bookings_needing_reminders E (now E) (w_db w)) (remind E) w)
  else w.
Proof.
  unfold sendReminders, findBookingsNeedingReminders, bind, db_get.
  destruct (db_ok E SelectBookingsNeedingReminders); [|reflexivity].
  destruct (bookings_needing_reminders E (now E) (w_db w)); reflexivity.
Qed.

Lemma has_reminder_log_spec d i :
  has_reminder_log d i = true <->
  exists l, In l (message_logs d) /\
            MessageLog.booking_id l = Some i /\ MessageLog.type l = "reminder".
Proof.
  unfold has_reminder_log. rewrite existsb_exists. split.
  - intros (l & Hin & H). exists l. split; [exact Hin|].
    unfold is_reminder_of in H. destruct (MessageLog.booking_id l) as [j|]; [|discriminate].
    apply andb_true_iff in H as [Hj Ht].
    apply Z.eqb_eq in Hj. apply String.eqb_eq in Ht. now subst.
  - intros (l & Hin & Hb & Ht). exists l. split; [exact Hin|].
    unfold is_reminder_of. rewrite Hb, Ht, Z.eqb_refl. reflexivity.
Qed.

(** C7.  The reminder query selects exactly the confirmed bookings whose
    departure lies between now and six hours from now and for which no
    message_logs row of type 'reminder' exists.  Over two sweeps run one
    after the other, a booking whose log write goes through in the first
    sweep is posted at most one reminder in all. *)
Theorem reminder_sent_at_most_once :
  forall (E1 E2 : env) (w : world),
    unique_ids (w_db w) ->
    let w1 := snd (sendReminders E1 w) in
    let w2 := snd (sendReminders E2 w1) in
    (forall b,
        In b (bookings_needing_reminders E1 (now E1) (w_db w)) <->
        In b (bookings (w_db w)) /\
        Booking.status b = "confirmed" /\
        ~ (exists l, In l (message_logs (w_db w)) /\
                     MessageLog.booking_id l = Some (Booking.id b) /\
                     MessageLog.type l = "reminder") /\
        between (departure E1 (w_db w) b) (window_start E1) (window_end E1) = true) /\
    (forall i,
        db_ok E1 (InsertMessageLog (Some i) "reminder") = true ->
        (reminders_sent i (w_trace w2) <= reminders_sent i (w_trace w) + 1)%nat).
Proof.
  intros E1 E2 w Hnd w1 w2. split.
  - intros b. rewrite bookings_needing_reminders_spec.
    unfold needs_reminder, is_confirmed, no_reminder.
    fold (has_reminder_log (w_db w) (Booking.id b)).
    rewrite !andb_true_iff, negb_true_iff, String.eqb_eq.
    rewrite <- has_reminder_log_spec, not_true_iff_false. tauto.
  - intros i Hok.
    (* the first sweep *)
    assert (bookings (w_db w1) = bookings (w_db w) /\
            (reminders_sent i (w_trace w) <= reminders_sent i (w_trace w1)
             <= reminders_sent i (w_trace w) + 1)%nat /\
            ((reminders_sent i (w_trace w) < reminders_sent i (w_trace w1))%nat ->
             has_reminder_log (w_db w1) i = true)) as (Hb1 & Hc1 & Hl1).
    { subst w1. rewrite sendReminders_unfold.
      destruct (db_ok E1 SelectBookingsNeedingReminders).
      - destruct (remind_loop E1 _ (bookings_needing_reminders_unique E1 _ Hnd) w)
          as (Hb & _ & _ & Hi).
        { intros b Hb. now apply bookings_needing_reminders_spec in Hb. }
        destruct (Hi i) as (Hle & _ & Hlog). repeat split; auto; lia.
      - repeat split; auto; lia. }
    (* the second sweep *)
    assert (unique_ids (w_db w1)) as Hnd1 by (unfold unique_ids; now rewrite Hb1).
    assert ((reminders_sent i (w_trace w2) <= reminders_sent i (w_trace w1) + 1)%nat /\
            (has_reminder_log (w_db w1) i = true ->
             reminders_sent i (w_trace w2) = reminders_sent i (w_trace w1)))
      as (Hc2 & Hsame).
    { subst w2. rewrite sendReminders_unfold.
      destruct (db_ok E2 SelectBookingsNeedingReminders).
      - destruct (remind_loop E2 _ (bookings_needing_reminders_unique E2 _ Hnd1) w1)
          as (_ & _ & _ & Hi).
        { intros b Hb. now apply bookings_needing_reminders_spec in Hb. }
        destruct (Hi i) as (Hle & Hout & _). split; [lia|].
        intros Hlog. apply Hout. intros Hin.
        apply in_map_iff in Hin as (b & <- & Hb).
        apply bookings_needing_reminders_spec in Hb as [_ Hb].
        unfold needs_reminder, no_reminder in Hb.
        fold (has_reminder_log (w_db w1) (Booking.id b)) in Hb.
        rewrite Hlog in Hb. cbn in Hb. rewrite andb_false_r in Hb. discriminate.
      - split; [lia | reflexivity]. }
    destruct (Nat.eq_dec (reminders_sent i (w_trace w1)) (reminders_sent i (w_trace w)))
      as [Heq|Hne].
    + lia.
    + rewrite Hsame; [lia|]. apply Hl1. lia.
Qed.

Lemma reminder_sent_at_most_once_witness :
  let w := Example.deliveries Example.the_day_before
             [Example.text_from Example.customer "BOOK";
              Example.text_from Example.operator "YES"] Example.world0 in
  let w2 := snd (sendReminders Example.fair (snd (sendReminders Example.fair w))) in
  reminders_sent 1 (w_trace w) = 0%nat /\
  (reminders_sent 1 (w_trace w2) <= 1)%nat /\
  reminders_sent 1 (w_trace w2) = 1%nat.
Proof.
  cbn zeta. split; [reflexivity|]. split; [|vm_compute; reflexivity].
  destruct (reminder_sent_at_most_once Example.fair Example.fair
              (Example.deliveries Example.the_day_before
                 [Example.text_from Example.customer "BOOK";
                  Example.text_from Example.operator "YES"] Example.world0))
    as [_ H].
  - vm_compute. constructor; [intros []|constructor].
  - exact (H 1 eq_refl).
Defined.


(** * Further properties of the code *)

(** ** What every operation preserves *)

Ltac unfold_endpoints :=
  unfold step, post_webhook, webhook_try_block, post_booking_create,
    post_booking_confirm, post_booking_reject, create_for_route,
    getBookingOrLatestPending, run_scheduled_jobs, scheduled_jobs, reminder_job,
    sendReminders, findBookingsNeedingReminders, remind, given;
  cbn [for_each snd].

Section Preserved.

Variable R : db -> db -> Prop.
Hypothesis R_refl : forall d, R d d.
Hypothesis R_trans : forall a b c, R a b -> R b c -> R a c.
Hypothesis R_insert_booking :
  forall E name phone rid date count st d d' id,
    insert_booking E name phone rid date count st d = Some (d', id) -> R d d'.
Hypothesis R_update_status :
  forall id st d, R d (fst (update_status id st d)).
Hypothesis R_insert_message_log :
  forall E b t d d' id, insert_message_log E b t d = Some (d', id) -> R d d'.

Lemma on_db_refl w : on_db R w w.
Proof. apply R_refl. Qed.

Lemma on_db_trans a b c : on_db R a b -> on_db R b c -> on_db R a c.
Proof. unfold on_db. eauto. Qed.

Lemma same_db_on_db {A} (m : M A) : ensures m same_db -> ensures m (on_db R).
Proof. intros H w. unfold on_db. rewrite (H w). apply R_refl. Qed.

Lemma db_run_on_db {A} E q (f : db -> option (db * A)) :
  (forall d d' a, f d = Some (d', a) -> R d d') ->
  ensures (db_run E q f) (on_db R).
Proof.
  intros Hf w. unfold db_run, on_db.
  destruct (db_ok E q); [|apply R_refl].
  destruct (f (w_db w)) as [[d a]|] eqn:F; cbn; [eauto | apply R_refl].
Qed.

Lemma step_on_db E op : forall w, on_db R w (step E op w).
Proof.
  assert (forall e, ensures (emit e) (on_db R)) as Hemit
      by (intros e; apply same_db_on_db, emit_same_db).
  assert (forall p t, ensures (sendMessage E p t) (on_db R)) as Hsend
      by (intros p t; apply same_db_on_db, sendMessage_same_db).
  assert (forall name phone rid date count st,
             ensures (db_run E (InsertBooking phone rid)
                        (insert_booking E name phone rid date count st)) (on_db R))
    as Hib by (intros; apply db_run_on_db; intros; eapply R_insert_booking; eauto).
  assert (forall id st,
             ensures (db_run E (UpdateBookingStatus id st)
                        (fun d => Some (update_status id st d))) (on_db R))
    as Hus.
  { intros id st. apply db_run_on_db. intros d d' a [= <- _]. apply R_update_status. }
  assert (forall b t,
             ensures (db_run E (InsertMessageLog b t) (insert_message_log E b t))
                     (on_db R))
    as Hil by (intros; apply db_run_on_db; intros; eapply R_insert_message_log; eauto).
  intros w.
  destruct op as [body|req|req|req|]; cbn [step]; as_ensures;
    unfold_endpoints; unfold_handlers;
    repeat first
      [ apply Hemit | apply Hsend | apply Hib | apply Hus | apply Hil
      | apply (ensures_ret _ on_db_refl)
      | apply (ensures_throw _ on_db_refl)
      | apply (ensures_deref _ on_db_refl)
      | apply (ensures_db_get _ on_db_refl)
      | apply (ensures_bind _ on_db_trans); [ | intros ? ]
      | apply (ensures_try _ on_db_trans); [ | intros ? ]
      | apply (ensures_for_each _ on_db_refl on_db_trans); intros ?
      | match goal with
        | |- ensures (match ?x with _ => _ end) _ => destruct x
        end ].
Qed.

Lemma run_on_db ops : forall w, on_db R w (run ops w).
Proof.
  unfold run. induction ops as [|[E op] ops IH]; intros w; cbn [fold_left fst snd].
  - apply on_db_refl.
  - eapply on_db_trans; [apply (step_on_db E op w) | apply IH].
Qed.

End Preserved.

Lemma insert_booking_result E name phone rid date count st d d' id :
  insert_booking E name phone rid date count st d = Some (d', id) ->
  select_route rid d <> None /\
  id = next_id (seq_bookings d) (map Booking.id (bookings d)) /\
  d' = set_bookings d
         (bookings d ++ [Booking.mk id name phone rid date count st (now E / 1000)]) id.
Proof.
  unfold insert_booking. destruct (select_route rid d); [|discriminate].
  intros [= <- <-]. repeat split. discriminate.
Qed.

Lemma insert_message_log_result E b t d d' id :
  insert_message_log E b t d = Some (d', id) ->
  (forall i, b = Some i -> select_booking i d <> None) /\
  id = next_id (seq_message_logs d) (map MessageLog.id (message_logs d)) /\
  d' = set_message_logs d (message_logs d ++ [MessageLog.mk id b t (now E)]) id.
Proof.
  unfold insert_message_log. destruct b as [i|].
  - destruct (select_booking i d) eqn:F; [|discriminate].
    intros [= <- <-]. repeat split. intros j [= <-]. congruence.
  - intros [= <- <-]. repeat split. discriminate.
Qed.

(** X1.  No delivery, endpoint call or schedule firing ever writes the
    operators or the routes table. *)
Theorem operators_and_routes_never_change :
  forall (ops : list (env * operation)) (w : world),
    operators (w_db (run ops w)) = operators (w_db w) /\
    routes (w_db (run ops w)) = routes (w_db w).
Proof.
  intros ops w. apply (run_on_db same_catalogue).
  - intros d. now split.
  - intros a b c [] []. split; congruence.
  - intros E name phone rid date count st d d' id H.
    apply insert_booking_result in H as (_ & _ & ->). now split.
  - intros id st d. now split.
  - intros E b t d d' id H.
    apply insert_message_log_result in H as (_ & _ & ->). now split.
Qed.

(** X2.  The message log is append-only: through any sequence of
    operations the rows already logged stay as they are, in place, and new
    rows are added after them. *)
Theorem message_logs_are_append_only :
  forall (ops : list (env * operation)) (w : world),
    exists more, message_logs (w_db (run ops w)) = message_logs (w_db w) ++ more.
Proof.
  intros ops w. apply (run_on_db logs_grow).
  - intros d. exists []. now rewrite app_nil_r.
  - intros a b c [m1 H1] [m2 H2]. exists (m1 ++ m2). now rewrite H2, H1, app_assoc.
  - intros E name phone rid date count st d d' id H.
    apply insert_booking_result in H as (_ & _ & ->). exists []. cbn. now rewrite app_nil_r.
  - intros id st d. exists []. cbn. now rewrite app_nil_r.
  - intros E b t d d' id H.
    apply insert_message_log_result in H as (_ & _ & ->). eexists. reflexivity.
Qed.

Lemma details_set_status id st bs :
  map details (set_status id st bs) = map details bs.
Proof.
  unfold set_status. rewrite map_map. apply map_ext.
  intros b. now destruct (Booking.id b =? id).
Qed.

(** X3.  No booking is ever deleted and nothing of a booking but its status
    is ever rewritten: through any sequence of operations the bookings
    table, statuses set aside, only gets new rows at its end. *)
Theorem bookings_change_by_status_only :
  forall (ops : list (env * operation)) (w : world),
    exists more,
      map details (bookings (w_db (run ops w))) =
      map details (bookings (w_db w)) ++ more.
Proof.
  intros ops w. apply (run_on_db bookings_grow).
  - intros d. exists []. now rewrite app_nil_r.
  - intros a b c [m1 H1] [m2 H2]. exists (m1 ++ m2). now rewrite H2, H1, app_assoc.
  - intros E name phone rid date count st d d' id H.
    apply insert_booking_result in H as (_ & _ & ->).
    eexists. cbn. rewrite map_app. reflexivity.
  - intros id st d. exists []. cbn. now rewrite details_set_status, app_nil_r.
  - intros E b t d d' id H.
    apply insert_message_log_result in H as (_ & _ & ->).
    exists []. cbn. now rewrite app_nil_r.
Qed.

Lemma find_app_some {A} (f : A -> bool) l l' :
  find f l <> None -> find f (l ++ l') <> None.
Proof.
  induction l as [|x l IH]; cbn; [congruence|].
  destruct (f x); [discriminate | exact IH].
Qed.

Lemma find_id_set_status i id st bs :
  find (fun b => Booking.id b =? i) bs <> None ->
  find (fun b => Booking.id b =? i) (set_status id st bs) <> None.
Proof.
  unfold set_status. induction bs as [|x bs IH]; cbn; [congruence|].
  assert (Booking.id (if Booking.id x =? id then Booking.with_status st x else x)
          = Booking.id x) as -> by now destruct (Booking.id x =? id).
  destruct (Booking.id x =? i); [discriminate | exact IH].
Qed.

(** X4.  Well-formedness is an invariant of the running server: if booking
    and log ids are unique, every booking's route exists and every log's
    booking exists, the same holds after any sequence of operations. *)
Theorem well_formed_is_invariant :
  forall (ops : list (env * operation)) (w : world),
    well_formed (w_db w) -> well_formed (w_db (run ops w)).
Proof.
  intros ops w. apply (run_on_db keeps_well_formed).
  - intros d H. exact H.
  - intros a b c H1 H2 H. apply H2, H1, H.
  - intros E name phone rid date count st d d' id H (Hb & Hl & Hr & Hf).
    apply insert_booking_result in H as (Hroute & -> & ->).
    unfold well_formed. cbn [bookings message_logs set_bookings]. repeat split.
    + rewrite map_app. apply NoDup_app; [exact Hb | |].
      * cbn. constructor; [intros []|constructor].
      * intros i Hi [<-|[]]. now apply next_id_fresh in Hi.
    + exact Hl.
    + intros b Hin. apply in_app_or in Hin as [Hin|[<-|[]]].
      * exact (Hr b Hin).
      * exact Hroute.
    + intros l i Hin Hi. unfold select_booking. cbn [bookings set_bookings].
      apply find_app_some. exact (Hf l i Hin Hi).
  - intros id st d (Hb & Hl & Hr & Hf).
    unfold well_formed. cbn [update_status fst bookings message_logs set_bookings].
    repeat split.
    + now rewrite set_status_ids.
    + exact Hl.
    + intros b Hin. apply in_set_status in Hin as [Hin|(y & Hy & _ & ->)].
      * exact (Hr b Hin).
      * exact (Hr y Hy).
    + intros l i Hin Hi. unfold select_booking. cbn [bookings set_bookings].
      apply find_id_set_status. exact (Hf l i Hin Hi).
  - intros E b t d d' id H (Hb & Hl & Hr & Hf).
    apply insert_message_log_result in H as (Hfk & -> & ->).
    unfold well_formed. cbn [bookings message_logs set_message_logs]. repeat split.
    + exact Hb.
    + rewrite map_app. apply NoDup_app; [exact Hl | |].
      * cbn. constructor; [intros []|constructor].
      * intros i Hi [<-|[]]. now apply next_id_fresh in Hi.
    + exact Hr.
    + intros l i Hin Hi. apply in_app_or in Hin as [Hin|[<-|[]]].
      * exact (Hf l i Hin Hi).
      * exact (Hfk i Hi).
Qed.

Lemma well_formed_is_invariant_witness :
  well_formed
    (w_db (run [(Example.fair, Deliver (Example.text_from Example.customer "BOOK"));
                (Example.fair, Deliver (Example.text_from Example.operator "YES"));
                (Example.a_day_later, Tick);
                (Example.fair, Create (mkCreate (Some "919812345678") None None None
                                                (Some 2)))]
               Example.world0)).
Proof.
  apply (well_formed_is_invariant _ Example.world0).
  unfold well_formed. cbn. repeat split.
  - constructor.
  - constructor.
  - intros b [].
  - intros l i [].
Defined.

(** ** The queries that no handler calls *)

Lemma insert_desc_perm {A} (key : A -> Z) x l :
  Permutation (insert_desc key x l) (x :: l).
Proof.
  induction l as [|y l IH]; cbn; [reflexivity|].
  destruct (key y <=? key x); [reflexivity|].
  rewrite IH. apply perm_swap.
Qed.

Lemma order_desc_perm {A} (key : A -> Z) l : Permutation (order_desc key l) l.
Proof.
  unfold order_desc. induction l as [|x l IH]; cbn; [reflexivity|].
  rewrite insert_desc_perm. now constructor.
Qed.

Lemma insert_desc_sorted {A} (key : A -> Z) x l :
  newest_first key l -> newest_first key (insert_desc key x l).
Proof.
  unfold newest_first. induction l as [|y l IH]; cbn; intros Hs.
  - repeat constructor.
  - apply StronglySorted_inv in Hs as [Hs Hy].
    destruct (Z.leb_spec (key y) (key x)).
    + constructor; [now constructor|].
      constructor; [assumption|].
      eapply Forall_impl; [|exact Hy]. cbn. intros; lia.
    + constructor; [now apply IH|].
      eapply Permutation_Forall; [symmetry; apply insert_desc_perm|].
      constructor; [lia | exact Hy].
Qed.

Lemma order_desc_sorted {A} (key : A -> Z) l : newest_first key (order_desc key l).
Proof.
  unfold order_desc. induction l as [|x l IH]; cbn.
  - constructor.
  - now apply insert_desc_sorted.
Qed.

(** X5.  findByPhone resolves to exactly the bookings of that customer
    phone, each once, newest first; for a phone without bookings it
    resolves to the empty list; it rejects only when the statement fails. *)
Theorem findByPhone_newest_first :
  forall (phoneNumber : string) (d : db),
    Booking_findByPhone false phoneNumber d = None /\
    exists rows,
      Booking_findByPhone true phoneNumber d = Some rows /\
      Permutation rows
        (filter (fun b => (Booking.customer_phone b =? phoneNumber)%string) (bookings d)) /\
      (forall b, In b rows <->
                 In b (bookings d) /\ Booking.customer_phone b = phoneNumber) /\
      newest_first Booking.created_at rows /\
      ((forall b, In b (bookings d) -> Booking.customer_phone b <> phoneNumber) ->
       rows = []).
Proof.
  intros phoneNumber d. split; [reflexivity|].
  exists (bookings_of_phone phoneNumber d). unfold bookings_of_phone.
  split; [reflexivity|]. split; [apply order_desc_perm|]. split; [|split].
  - intros b. split.
    + intros H. apply (Permutation_in _ (order_desc_perm _ _)) in H.
      apply filter_In in H as [H1 H2]. now apply String.eqb_eq in H2.
    + intros [H1 H2].
      apply (Permutation_in _ (Permutation_sym (order_desc_perm _ _))).
      apply filter_In. split; [exact H1 | now apply String.eqb_eq].
  - apply order_desc_sorted.
  - intros Hnone.
    assert (filter (fun b => (Booking.customer_phone b =? phoneNumber)%string)
                   (bookings d) = []) as ->; [|reflexivity].
    induction (bookings d) as [|x l IH]; cbn; [reflexivity|].
    destruct (String.eqb_spec (Booking.customer_phone x) phoneNumber) as [He|_].
    + exfalso. apply (Hnone x); [now left | exact He].
    + apply IH. intros b Hb. apply Hnone. now right.
Qed.

(** X6.  findByBookingId resolves to exactly the log rows of that booking,
    each once, latest first, and to the empty list for a booking that has
    none; rows logged without a booking are never returned. *)
Theorem findByBookingId_latest_first :
  forall (bookingId : Z) (d : db),
    MessageLog_findByBookingId false bookingId d = None /\
    exists rows,
      MessageLog_findByBookingId true bookingId d = Some rows /\
      (forall l, In l rows <->
                 In l (message_logs d) /\ MessageLog.booking_id l = Some bookingId) /\
      List.length rows =
        List.length (filter (fun l => match MessageLog.booking_id l with
                                      | Some b => b =? bookingId
                                      | None => false
                                      end) (message_logs d)) /\
      newest_first MessageLog.sent_at rows.
Proof.
  intros bookingId d. split; [reflexivity|].
  exists (logs_of_booking bookingId d). unfold logs_of_booking.
  split; [reflexivity|]. split; [|split].
  - intros l. split.
    + intros H. apply (Permutation_in _ (order_desc_perm _ _)) in H.
      apply filter_In in H as [H1 H2]. split; [exact H1|].
      destruct (MessageLog.booking_id l) as [b|]; [|discriminate].
      apply Z.eqb_eq in H2. now subst.
    + intros [H1 H2].
      apply (Permutation_in _ (Permutation_sym (order_desc_perm _ _))).
      apply filter_In. split; [exact H1|]. rewrite H2. apply Z.eqb_refl.
  - apply Permutation_length, order_desc_perm.
  - apply order_desc_sorted.
Qed.

(** ** Insert and look up *)

Lemma next_id_above seq ids i : In i ids -> i < next_id seq ids.
Proof. intros H. apply max_id_ge in H. unfold next_id. lia. Qed.

Lemma find_appended_booking bs row :
  (forall b, In b bs -> Booking.id b < Booking.id row) ->
  find (fun b => Booking.id b =? Booking.id row) (bs ++ [row]) = Some row.
Proof.
  induction bs as [|x bs IH]; cbn; intros H.
  - now rewrite Z.eqb_refl.
  - destruct (Z.eqb_spec (Booking.id x) (Booking.id row)) as [He|_].
    + specialize (H x (or_introl eq_refl)). lia.
    + apply IH. intros b Hb. apply H. now right.
Qed.

Lemma find_appended_log ls row :
  (forall l, In l ls -> MessageLog.id l < MessageLog.id row) ->
  find (fun l => MessageLog.id l =? MessageLog.id row) (ls ++ [row]) = Some row.
Proof.
  induction ls as [|x ls IH]; cbn; intros H.
  - now rewrite Z.eqb_refl.
  - destruct (Z.eqb_spec (MessageLog.id x) (MessageLog.id row)) as [He|_].
    + specialize (H x (or_introl eq_refl)). lia.
    + apply IH. intros l Hl. apply H. now right.
Qed.


(** X8.  MessageLog create: a log for a booking that does not exist fails on
    its foreign key and writes nothing; a log without a booking is allowed.
    When create resolves, it resolves to the row it has just appended, with
    the booking and type given, [sent_at] the current instant and a fresh
    id. *)
Theorem MessageLog_create_round_trip :
  forall (E : env) (booking_id : option Z) (type : string) (w : world),
    let created := MessageLog_create E booking_id type w in
    (forall i, booking_id = Some i -> select_booking i (w_db w) = None ->
               created = (Throw (DbError (InsertMessageLog booking_id type)), w)) /\
    (forall res w',
        created = (Ok res, w') ->
        let row := MessageLog.mk (next_id (seq_message_logs (w_db w))
                                          (map MessageLog.id (message_logs (w_db w))))
                                 booking_id type (now E) in
        res = Some row /\
        message_logs (w_db w') = message_logs (w_db w) ++ [row] /\
        (forall l, In l (message_logs (w_db w)) -> MessageLog.id l < MessageLog.id row) /\
        (forall i, booking_id = Some i -> select_booking i (w_db w) <> None) /\
        bookings (w_db w') = bookings (w_db w) /\
        w_trace w' = w_trace w).
Proof.
  intros E booking_id type w created. subst created.
  unfold MessageLog_create, bind, db_run, insert_message_log. split.
  - intros i -> ->. now destruct (db_ok E (InsertMessageLog (Some i) type)).
  - intros res w'. cbn zeta.
    destruct (db_ok E (InsertMessageLog booking_id type)); [|discriminate].
    assert (forall l, In l (message_logs (w_db w)) ->
                      MessageLog.id l < next_id (seq_message_logs (w_db w))
                                                (map MessageLog.id (message_logs (w_db w))))
      as Hlt.
    { intros l Hl. apply next_id_above. now apply in_map. }
    pose proof (find_appended_log (message_logs (w_db w))
                  (MessageLog.mk (next_id (seq_message_logs (w_db w))
                                          (map MessageLog.id (message_logs (w_db w))))
                                 booking_id type (now E)) Hlt) as F.
    cbn [MessageLog.id] in F.
    destruct booking_id as [i|].
    + destruct (select_booking i (w_db w)) eqn:Hb; [|discriminate].
      unfold db_get. destruct (db_ok E (SelectMessageLogById _)); [|discriminate].
      cbn [w_db w_trace]. intros [= <- <-]. cbn [w_db w_trace].
      unfold select_message_log. cbn [message_logs set_message_logs].
      rewrite F. repeat split; auto. intros j [= <-]. congruence.
    + unfold db_get. destruct (db_ok E (SelectMessageLogById _)); [|discriminate].
      cbn [w_db w_trace]. intros [= <- <-]. cbn [w_db w_trace].
      unfold select_message_log. cbn [message_logs set_message_logs].
      rewrite F. repeat split; auto. discriminate.
Qed.

Lemma find_in_set_status j id st bs :
  find (fun b => Booking.id b =? j) (set_status id st bs) =
  option_map (fun b => if Booking.id b =? id then Booking.with_status st b else b)
             (find (fun b => Booking.id b =? j) bs).
Proof.
  unfold set_status. induction bs as [|x bs IH]; cbn; [reflexivity|].
  assert (Booking.id (if Booking.id x =? id then Booking.with_status st x else x)
          = Booking.id x) as -> by now destruct (Booking.id x =? id).
  destruct (Booking.id x =? j); [reflexivity | exact IH].
Qed.

Lemma set_status_absent id st bs :
  find (fun b => Booking.id b =? id) bs = None -> set_status id st bs = bs.
Proof.
  unfold set_status. induction bs as [|x bs IH]; cbn; [reflexivity|].
  destruct (Booking.id x =? id); [discriminate|].
  intros H. now rewrite IH.
Qed.

Lemma find_none_filter {A} (f : A -> bool) l : find f l = None -> filter f l = [].
Proof.
  induction l as [|x l IH]; cbn; [reflexivity|].
  destruct (f x); [discriminate | exact IH].
Qed.

Lemma find_some_filter {A} (f : A -> bool) l x :
  find f l = Some x -> filter f l <> [].
Proof.
  induction l as [|y l IH]; cbn; [discriminate|].
  destruct (f y); [discriminate | exact IH].
Qed.

(** X9.  updateStatus, when its statements run: for an id that is not in
    the table it resolves to null and leaves the database as it was; for an
    id that is, it resolves to that booking with the new status, whatever
    the old status was, and the booking is found under its id with the new
    status afterwards; bookings of other ids are found as before. *)
Theorem updateStatus_by_id :
  forall (E : env) (id : Z) (st : string) (w : world),
    db_ok E (UpdateBookingStatus id st) = true ->
    db_ok E (SelectBookingById id) = true ->
    let res := fst (Booking_updateStatus E id st w) in
    let w' := snd (Booking_updateStatus E id st w) in
    (select_booking id (w_db w) = None -> res = Ok None /\ w_db w' = w_db w) /\
    (forall b, select_booking id (w_db w) = Some b ->
               res = Ok (Some (Booking.with_status st b)) /\
               select_booking id (w_db w') = Some (Booking.with_status st b)) /\
    (forall j, j <> id -> select_booking j (w_db w') = select_booking j (w_db w)) /\
    w_trace w' = w_trace w.
Proof.
  intros E id st w Hup Hsel. cbn zeta.
  unfold Booking_updateStatus, bind, db_run. rewrite Hup.
  cbn [update_status fst snd].
  assert (forall j, select_booking j
                      (set_bookings (w_db w) (set_status id st (bookings (w_db w)))
                                    (seq_bookings (w_db w)))
                    = option_map
                        (fun b => if Booking.id b =? id then Booking.with_status st b else b)
                        (select_booking j (w_db w))) as Hfind.
  { intros j. unfold select_booking. cbn [bookings set_bookings].
    apply find_in_set_status. }
  destruct (select_booking id (w_db w)) as [b|] eqn:F.
  - pose proof (find_some_filter _ _ _ F) as Hne.
    destruct (filter _ (bookings (w_db w))) as [|y l]; [congruence|].
    cbn [List.length]. rewrite Nat2Z.inj_succ.
    destruct (Z.eqb_spec (Z.succ (Z.of_nat (List.length l))) 0) as [H0|_]; [lia|].
    unfold Booking_findById, db_get. rewrite Hsel. cbn [fst snd w_db w_trace].
    pose proof (Hfind id) as Hid. rewrite F in Hid. cbn [option_map] in Hid.
    apply find_some in F as [_ Hb]. cbn beta in Hb. rewrite Hb in Hid.
    rewrite Hid.
    split; [discriminate|]. split; [|split; [|reflexivity]].
    + intros ? [= <-]. split; reflexivity.
    + intros j Hj. rewrite Hfind.
      destruct (select_booking j (w_db w)) as [x|] eqn:Fj; [|reflexivity].
      apply find_some in Fj as [_ Hx]. apply Z.eqb_eq in Hx. cbn.
      destruct (Z.eqb_spec (Booking.id x) id); [congruence | reflexivity].
  - rewrite (find_none_filter _ _ F).
    cbn [List.length Z.of_nat Z.eqb ret fst snd w_db w_trace].
    rewrite (set_status_absent _ _ _ F).
    split; [|split; [discriminate|split; [|reflexivity]]].
    + intros _. split; [reflexivity | now destruct (w_db w)].
    + intros j Hj. now destruct (w_db w).
Qed.

Lemma updateStatus_by_id_witness :
  fst (Booking_updateStatus Example.fair 7 "confirmed"
         (Example.deliveries Example.fair
            [Example.text_from Example.customer "BOOK"] Example.world0))
  = Ok None.
Proof.
  destruct (updateStatus_by_id Example.fair 7 "confirmed"
              (Example.deliveries Example.fair
                 [Example.text_from Example.customer "BOOK"] Example.world0)
              eq_refl eq_refl) as (H & _).
  apply H. reflexivity.
Defined.

Lemma MessageLog_create_appends E booking_id type w res w' :
  MessageLog_create E booking_id type w = (Ok res, w') ->
  message_logs (w_db w') =
  message_logs (w_db w) ++
  [MessageLog.mk (next_id (seq_message_logs (w_db w))
                          (map MessageLog.id (message_logs (w_db w))))
                 booking_id type (now E)].
Proof.
  unfold MessageLog_create, bind, db_run, insert_message_log, db_get.
  destruct (db_ok E (InsertMessageLog booking_id type)); [|discriminate].
  destruct booking_id as [i|].
  - destruct (select_booking i (w_db w)); [|discriminate].
    destruct (db_ok E (SelectMessageLogById _)); [|discriminate].
    intros [= _ <-]. reflexivity.
  - destruct (db_ok E (SelectMessageLogById _)); [|discriminate].
    intros [= _ <-]. reflexivity.
Qed.

(** X10.  hasReminder answers the question the reminder query asks: it is
    false for every booking the query returns, and true for a booking and
    type once a log of that booking and type has been created; an omitted
    type means 'reminder'. *)
Theorem hasReminder_agrees_with_the_log :
  forall (E : env) (d : db) (id : Z) (type : string),
    Booking_hasReminder true id None d = Booking_hasReminder true id (Some "reminder") d /\
    (forall b, In b (bookings_needing_reminders E (now E) d) ->
               Booking_hasReminder true (Booking.id b) None d = Some false) /\
    (forall w res w',
        MessageLog_create E (Some id) type w = (Ok res, w') ->
        Booking_hasReminder true id (Some type) (w_db w') = Some true) /\
    ((forall l, In l (message_logs d) -> MessageLog.booking_id l <> Some id) ->
     Booking_hasReminder true id (Some type) d = Some false).
Proof.
  intros E d id type. split; [reflexivity|]. split; [|split].
  - intros b Hb. apply bookings_needing_reminders_spec in Hb as [_ Hb].
    unfold needs_reminder, no_reminder in Hb.
    apply andb_true_iff in Hb as [Hb _]. apply andb_true_iff in Hb as [_ Hb].
    apply negb_true_iff in Hb.
    unfold Booking_hasReminder, resolve.
    destruct (find _ (message_logs d)) as [l|] eqn:F; [|reflexivity].
    apply find_some in F as [Hin Hl].
    assert (existsb (is_reminder_of (Booking.id b)) (message_logs d) = true) as Ht.
    { apply existsb_exists. exists l. split; [exact Hin | exact Hl]. }
    congruence.
  - intros w res w' Hc.
    pose proof (MessageLog_create_appends E (Some id) type w res w' Hc) as Hlogs.
    unfold Booking_hasReminder, resolve. rewrite Hlogs.
    destruct (find _ _) as [l|] eqn:F; [reflexivity|].
    exfalso.
    assert (In (MessageLog.mk (next_id (seq_message_logs (w_db w))
                                 (map MessageLog.id (message_logs (w_db w))))
                              (Some id) type (now E))
               (message_logs (w_db w) ++
                [MessageLog.mk (next_id (seq_message_logs (w_db w))
                                  (map MessageLog.id (message_logs (w_db w))))
                               (Some id) type (now E)])) as Hin
        by (apply in_or_app; right; now left).
    apply (find_none _ _ F) in Hin. unfold is_log_of in Hin. cbn in Hin.
    now rewrite Z.eqb_refl, String.eqb_refl in Hin.
  - intros Hnone. unfold Booking_hasReminder, resolve.
    destruct (find _ (message_logs d)) as [l|] eqn:F; [|reflexivity].
    apply find_some in F as [Hin Hl]. exfalso. apply (Hnone l Hin).
    unfold is_log_of in Hl. destruct (MessageLog.booking_id l) as [b|]; [|discriminate].
    apply andb_true_iff in Hl as [Hl _]. apply Z.eqb_eq in Hl. now subst.
Qed.

(** ** The two selections of the webhook *)

(** X11.  getLatestPendingBooking resolves to null exactly when no booking
    is 'pending'; otherwise to a pending booking of the table than which no
    pending booking was created later. *)
Theorem latest_pending_booking :
  forall (E : env) (w : world),
    db_ok E SelectLatestPending = true ->
    exists found,
      getLatestPendingBooking E w = (Ok found, w) /\
      (found = None <->
       forall b, In b (bookings (w_db w)) -> Booking.status b <> "pending") /\
      (forall b, found = Some b ->
                 In b (bookings (w_db w)) /\ Booking.status b = "pending" /\
                 forall b', In b' (bookings (w_db w)) -> Booking.status b' = "pending" ->
                            Booking.created_at b' <= Booking.created_at b).
Proof.
  intros E w Hok. exists (latest_pending (w_db w)).
  split; [now apply db_get_ok|]. split.
  - split.
    + intros Hnone b Hin Hp.
      destruct (latest_pending_exists _ _ Hin Hp) as [x Hx]. congruence.
    + intros Hall. destruct (latest_pending (w_db w)) as [b|] eqn:F; [|reflexivity].
      apply latest_pending_spec in F as (Hin & Hp & _). now apply Hall in Hin.
  - intros b Hb. now apply latest_pending_spec.
Qed.

Lemma latest_pending_booking_witness :
  exists found,
    getLatestPendingBooking Example.fair Example.world0 = (Ok found, Example.world0) /\
    found = None.
Proof.
  destruct (latest_pending_booking Example.fair Example.world0 eq_refl)
    as (found & Hget & Hnone & _).
  exists found. split; [exact Hget|]. apply Hnone. intros b [].
Defined.

Lemma lowest_id_min l r :
  lowest_id l = Some r -> forall r', In r' l -> Route.id r <= Route.id r'.
Proof.
  revert r. induction l as [|x l IH]; cbn; [discriminate|].
  intros r Hr r' Hin. destruct (lowest_id l) as [m|] eqn:Hm.
  - specialize (IH m eq_refl).
    destruct (Z.leb_spec (Route.id x) (Route.id m));
      injection Hr as <-; destruct Hin as [<-|Hin]; try lia.
    + specialize (IH r' Hin). lia.
    + auto.
  - injection Hr as <-. destruct Hin as [<-|Hin]; [lia|].
    destruct l; [destruct Hin|]. cbn in Hm.
    destruct (lowest_id l); [destruct (_ <=? _)|]; discriminate.
Qed.

(** X12.  getFirstRoute resolves to null exactly when the routes table is
    empty; otherwise to a route of the table of the smallest id. *)
Theorem first_route :
  forall (E : env) (w : world),
    db_ok E SelectFirstRoute = true ->
    exists found,
      getFirstRoute E w = (Ok found, w) /\
      (found = None <-> routes (w_db w) = []) /\
      (forall r, found = Some r ->
                 In r (routes (w_db w)) /\
                 forall r', In r' (routes (w_db w)) -> Route.id r <= Route.id r').
Proof.
  intros E w Hok. exists (lowest_id (routes (w_db w))).
  split; [now apply db_get_ok|]. split.
  - split.
    + destruct (routes (w_db w)) as [|x l]; [reflexivity|]. cbn.
      destruct (lowest_id l); [destruct (_ <=? _)|]; discriminate.
    + intros ->. reflexivity.
  - intros r Hr. split; [now apply lowest_id_In | now apply lowest_id_min].
Qed.

Lemma first_route_witness :
  exists found,
    getFirstRoute Example.fair Example.world0 = (Ok found, Example.world0) /\
    In (Route.mk 1 1 "City A" "City B" "08:00" 500) (routes (w_db Example.world0)).
Proof.
  destruct (first_route Example.fair Example.world0 eq_refl) as (found & Hget & _ & _).
  exists found. split; [exact Hget | now left].
Defined.

(** ** Phone numbers *)

Lemma chars_nil s : JsString.chars s = [] -> s = "".
Proof.
  destruct s as [|c r]; cbn; [reflexivity|].
  destruct (JsString.chars r) as [|x xs]; [discriminate|].
  destruct (JsString.headed x); discriminate.
Qed.

Lemma join_chars s : JsString.join (JsString.chars s) = s.
Proof.
  induction s as [|c r IH]; cbn; [reflexivity|].
  destruct (JsString.chars r) as [|x xs] eqn:Hr.
  - apply chars_nil in Hr. now subst.
  - destruct (JsString.headed x); cbn in *; now rewrite IH.
Qed.

Lemma join_app l l' :
  JsString.join (l ++ l') = (JsString.join l ++ JsString.join l')%string.
Proof.
  induction l as [|c l IH]; cbn; [reflexivity|].
  change (fold_right append "" (l ++ l')) with (JsString.join (l ++ l')).
  rewrite IH. clear IH. induction c as [|a c IHc]; cbn; [reflexivity | now rewrite IHc].
Qed.

Lemma chars_head s :
  match JsString.chars s with
  | x :: _ => JsString.headed x = JsString.headed s
  | [] => True
  end.
Proof.
  destruct s as [|c r]; cbn; [exact I|].
  destruct (JsString.chars r) as [|x xs]; [reflexivity|].
  destruct (JsString.headed x); reflexivity.
Qed.

Lemma chars_segmented s : segmented (JsString.chars s).
Proof.
  induction s as [|c r [Hc Hh]]; cbn.
  - split; constructor.
  - destruct (JsString.chars r) as [|x xs].
    + split; [|constructor]. constructor; [intros y []|constructor].
    + inversion Hc as [|? ? Hx Hxs]; subst. cbn [tl] in Hh.
      destruct (JsString.headed x) eqn:Hhead.
      * split; [|cbn [tl]; now constructor].
        constructor; [intros y []|exact Hc].
      * split; [|exact Hh]. constructor; [|exact Hxs].
        destruct x as [|a t]; [destruct Hx|]. cbn in Hhead.
        apply negb_false_iff in Hhead.
        cbn. intros y [<-|Hy]; [exact Hhead | now apply Hx].
Qed.

Lemma chars_headless t r :
  (forall x, In x (list_ascii_of_string t) -> JsString.continuation x = true) ->
  t <> "" ->
  match JsString.chars r with
  | x :: _ => JsString.headed x = true
  | [] => True
  end ->
  JsString.chars (t ++ r) = t :: JsString.chars r.
Proof.
  induction t as [|b t IH]; [congruence|]. intros Hall _ Hr.
  cbn [append JsString.chars]. destruct t as [|b' t].
  - cbn [append]. destruct (JsString.chars r) as [|x xs]; [reflexivity|].
    now rewrite Hr.
  - rewrite IH; [|intros x Hx; apply Hall; now right|discriminate|exact Hr].
    cbn [JsString.headed]. rewrite (Hall b'); [reflexivity|].
    cbn. right. now left.
Qed.

Lemma chars_join cs : segmented cs -> JsString.chars (JsString.join cs) = cs.
Proof.
  induction cs as [|c cs IH]; intros [Hc Hh]; [reflexivity|].
  inversion Hc as [|? ? Hcl Hcs]; subst. cbn [tl] in Hh.
  assert (JsString.chars (JsString.join cs) = cs) as IH'.
  { apply IH. split; [exact Hcs|]. destruct cs; [constructor|].
    now inversion Hh. }
  assert (match JsString.chars (JsString.join cs) with
          | x :: _ => JsString.headed x = true
          | [] => True
          end) as Hnext.
  { rewrite IH'. destruct cs; [exact I|]. now inversion Hh. }
  cbn [JsString.join fold_right].
  change (fold_right append "" cs) with (JsString.join cs).
  destruct c as [|a t]; [destruct Hcl|]. cbn [append JsString.chars].
  destruct t as [|b t].
  - cbn [append]. rewrite IH' in *. destruct cs as [|x xs]; [reflexivity|].
    now rewrite Hnext.
  - cbn in Hcl. rewrite chars_headless; [|exact Hcl|discriminate|exact Hnext].
    rewrite IH'. cbn [JsString.headed].
    rewrite (Hcl b (or_introl eq_refl)). reflexivity.
Qed.

Lemma Forall_tl {A} (P : A -> Prop) l : Forall P l -> Forall P (tl l).
Proof. intros H. destruct l; [constructor | now inversion H]. Qed.

Lemma segmented_filter f cs : segmented cs -> segmented (filter f cs).
Proof.
  intros [Hc Hh]. split.
  - apply Forall_forall. intros x Hx. apply filter_In in Hx as [Hx _].
    rewrite Forall_forall in Hc. now apply Hc.
  - destruct cs as [|c cs]; [constructor|]. cbn [tl] in Hh.
    assert (Forall (fun x => JsString.headed x = true) (filter f cs)) as Hf.
    { apply Forall_forall. intros x Hx. apply filter_In in Hx as [Hx _].
      rewrite Forall_forall in Hh. now apply Hh. }
    cbn [filter]. destruct (f c); [exact Hf | now apply Forall_tl].
Qed.

Lemma chars_strip drop s :
  JsString.chars (JsString.strip drop s) =
  filter (fun c => negb (drop c)) (JsString.chars s).
Proof. apply chars_join, segmented_filter, chars_segmented. Qed.

Lemma chars_app a b :
  JsString.headed b = true ->
  JsString.chars (a ++ b) = JsString.chars a ++ JsString.chars b.
Proof.
  intros Hb. induction a as [|c r IH]; [reflexivity|].
  cbn [append JsString.chars]. rewrite IH.
  destruct (JsString.chars r) as [|x xs]; cbn [app].
  - pose proof (chars_head b) as Hh.
    destruct (JsString.chars b) as [|y ys]; [reflexivity|].
    now rewrite Hh, Hb.
  - destruct (JsString.headed x); reflexivity.
Qed.

Lemma strip_app drop a b :
  JsString.headed b = true ->
  JsString.strip drop (a ++ b) = (JsString.strip drop a ++ JsString.strip drop b)%string.
Proof.
  intros Hb. unfold JsString.strip. now rewrite chars_app, filter_app, join_app.
Qed.

Lemma strip_clean drop s c :
  In c (JsString.chars (JsString.strip drop s)) -> drop c = false.
Proof.
  rewrite chars_strip. intros H. apply filter_In in H as [_ H].
  now apply negb_true_iff in H.
Qed.

Lemma strip_fixed drop s :
  (forall c, In c (JsString.chars s) -> drop c = false) ->
  JsString.strip drop s = s.
Proof.
  intros H. unfold JsString.strip.
  assert (filter (fun c => negb (drop c)) (JsString.chars s) = JsString.chars s) as ->.
  { induction (JsString.chars s) as [|x l IH]; [reflexivity|]. cbn.
    rewrite (H x (or_introl eq_refl)). cbn. f_equal. apply IH.
    intros c Hc. apply H. now right. }
  apply join_chars.
Qed.

Lemma phone_noise_spec c :
  JsString.phone_noise c = true <->
  In c (map JsString.utf8 JsString.white_space ++ ["+"; "-"; "("; ")"]).
Proof.
  unfold JsString.phone_noise, JsString.is_space.
  rewrite !orb_true_iff, existsb_exists, in_app_iff, in_map_iff, !String.eqb_eq.
  split.
  - intros [[[[(cp & Hin & He)|H]|H]|H]|H]; subst.
    + left. apply String.eqb_eq in He. subst. now exists cp.
    + right. now left.
    + right. right. now left.
    + right. right. right. now left.
    + right. right. right. right. now left.
  - intros [(cp & <- & Hin)|[<-|[<-|[<-|[<-|[]]]]]].
    + left. left. left. left. exists cp. split; [exact Hin | apply String.eqb_refl].
    + left. left. left. now right.
    + left. left. now right.
    + left. now right.
    + now right.
Qed.

(** X13.  normalizePhoneNumber removes every character of the class
    [\s+\-()] and nothing else: its result holds no '+', '-', '(', ')' and
    no white space of ECMAScript (TAB, LF, VT, FF, CR, SPACE, U+00A0, U+1680,
    U+2000 to U+200A, U+2028, U+2029, U+202F, U+205F, U+3000, U+FEFF); a
    number that holds none of them is returned as it is; normalising twice
    is normalising once; and a number written in parts is normalised part by
    part, a character of the class between two parts being dropped. *)
Theorem normalizePhoneNumber_normal_form :
  forall (p q : string),
    let class :=
      map JsString.utf8
          [9; 10; 11; 12; 13; 32; 160; 5760;
           8192; 8193; 8194; 8195; 8196; 8197; 8198; 8199; 8200; 8201; 8202;
           8232; 8233; 8239; 8287; 12288; 65279]%N
      ++ ["+"; "-"; "("; ")"] in
    (forall c, In c (JsString.chars (normalizePhoneNumber p)) -> ~ In c class) /\
    ((forall c, In c (JsString.chars p) -> ~ In c class) ->
     normalizePhoneNumber p = p) /\
    normalizePhoneNumber (normalizePhoneNumber p) = normalizePhoneNumber p /\
    (JsString.headed q = true ->
     normalizePhoneNumber (p ++ q) =
     (normalizePhoneNumber p ++ normalizePhoneNumber q)%string /\
     forall c, In c class ->
               normalizePhoneNumber (p ++ c ++ q) =
               (normalizePhoneNumber p ++ normalizePhoneNumber q)%string).
Proof.
  intros p q class.
  assert (forall c, JsString.phone_noise c = false <-> ~ In c class) as Hclass.
  { intros c. pose proof (phone_noise_spec c) as Hs.
    change (map JsString.utf8 JsString.white_space ++ ["+"; "-"; "("; ")"])
      with class in Hs.
    destruct (JsString.phone_noise c).
    - split; [discriminate|]. intros H. exfalso. apply H. now apply Hs.
    - split; [|reflexivity]. intros _ Hin. apply Hs in Hin. discriminate. }
  unfold normalizePhoneNumber. split; [|split; [|split]].
  - intros c Hc. apply Hclass. exact (strip_clean _ _ _ Hc).
  - intros H. apply strip_fixed. intros c Hc. apply Hclass. now apply H.
  - apply strip_fixed. apply strip_clean.
  - intros Hq. split; [now apply strip_app|].
    intros c Hc.
    assert (JsString.headed (c ++ q) = true /\
            JsString.strip JsString.phone_noise c = "") as [Hhead Hgone].
    { subst class. cbn [map app JsString.white_space] in Hc.
      repeat (destruct Hc as [<-|Hc]; [split; vm_compute; reflexivity|]).
      destruct Hc. }
    rewrite (strip_app _ p (c ++ q) Hhead), (strip_app _ c q Hq), Hgone.
    reflexivity.
Qed.

(** The bytes of the white space beyond ASCII. *)
Example utf8_of_white_space :
  map (fun cp => map N_of_ascii (list_ascii_of_string (JsString.utf8 cp)))
      [160; 5760; 8192; 8202; 8232; 8233; 8239; 8287; 12288; 65279]%N
  = [[194; 160]; [225; 154; 128]; [226; 128; 128]; [226; 128; 138];
     [226; 128; 168]; [226; 128; 169]; [226; 128; 175]; [226; 129; 159];
     [227; 128; 128]; [239; 187; 191]]%N.
Proof. vm_compute. reflexivity. Qed.

Example normalizePhoneNumber_on_numbers :
  normalizePhoneNumber "+91 (98765) 432-10" = "919876543210" /\
  normalizePhoneNumber ("91" ++ JsString.utf8 160 ++ "98765" ++ JsString.utf8 8239 ++ "43210")
  = "919876543210" /\
  JsString.trim (JsString.utf8 65279 ++ " YES" ++ JsString.utf8 160 ++ JsString.utf8 8232)
  = "YES".
Proof. vm_compute. repeat split. Qed.

(** ** Seeding *)

Lemma find_app_none {A} (f : A -> bool) l l' :
  find f l = None -> find f (l ++ l') = find f l'.
Proof.
  induction l as [|x l IH]; cbn; [reflexivity|].
  destruct (f x); [discriminate | exact IH].
Qed.

Lemma lowest_id_app_some l r : lowest_id (l ++ [r]) <> None.
Proof.
  induction l as [|x l IH]; cbn; [discriminate|].
  destruct (lowest_id (l ++ [r])); [destruct (_ <=? _)|]; discriminate.
Qed.

(** On an empty database and the default phone, seeding gives the
    database of the running example. *)
Example seed_of_empty_database :
  seedDefaultData (fun _ => true) (Some "1234567890") None (mkDb [] [] [] [] 0 0)
  = (true, Example.seed).
Proof. reflexivity. Qed.

(** X14.  seedDefaultData writes only to operators and routes, and only by
    appending.  When it resolves, the operator phone is in the operators
    table.  When that phone is already there, nothing is written, so
    seeding is idempotent; in particular, an operator left behind by a
    seeding whose route INSERT failed is never given its route by a later
    seeding.  A seeding of a database without that operator that resolves
    leaves a route owned by the new operator, so that a first route exists. *)
Theorem seedDefaultData_seeds_once :
  forall (ran : seed_statement -> bool) (phone name : option string) (d : db),
    let seeded := seedDefaultData ran phone name d in
    let d' := snd seeded in
    let operatorPhone := env_or phone "1234567890" in
    (bookings d' = bookings d /\ message_logs d' = message_logs d /\
     exists os rs, operators d' = operators d ++ os /\ routes d' = routes d ++ rs) /\
    (fst seeded = true -> known_operator d' operatorPhone = true) /\
    (known_operator d operatorPhone = true -> seeded = (ran SeedSelectOperator, d)) /\
    (fst seeded = true ->
     forall ran' name', seedDefaultData ran' phone name' d' = (ran' SeedSelectOperator, d')) /\
    (ran SeedSelectOperator = true -> ran SeedInsertOperator = true ->
     forall ran' name', snd (seedDefaultData ran' phone name' d') = d') /\
    (known_operator d operatorPhone = false -> fst seeded = true ->
     lowest_id (routes d') <> None /\
     exists o r, In o (operators d') /\ In r (routes d') /\
                 Operator.phone_number o = operatorPhone /\
                 Route.operator_id r = Operator.id o).
Proof.
  intros ran phone name d. cbn zeta.
  assert (forall ran' name' x,
             known_operator x (env_or phone "1234567890") = true ->
             seedDefaultData ran' phone name' x = (ran' SeedSelectOperator, x)) as Hskip.
  { intros ran' name' x Hk. unfold seedDefaultData, known_operator in *.
    destruct (ran' SeedSelectOperator); [|reflexivity]. cbn [negb].
    destruct (find _ (operators x)); [reflexivity | discriminate]. }
  assert (forall x rows,
             known_operator x (env_or phone "1234567890") = false ->
             known_operator
               (set_operators x
                  (operators x ++
                   Operator.mk (next_id 0 (map Operator.id (operators x)))
                               (env_or name "Default Operator")
                               (env_or phone "1234567890") 1 :: rows))
               (env_or phone "1234567890") = true) as Hin.
  { intros x rows Hk. unfold known_operator in *. cbn [operators set_operators].
    destruct (find _ (operators x)) eqn:F; [discriminate|].
    rewrite (find_app_none _ _ _ F). cbn. now rewrite String.eqb_refl. }
  assert (forall x : db,
             bookings x = bookings x /\ message_logs x = message_logs x /\
             exists os rs, operators x = operators x ++ os /\ routes x = routes x ++ rs)
    as Hsame.
  { intros x. repeat split. exists [], []. now rewrite !app_nil_r. }
  destruct (known_operator d (env_or phone "1234567890")) eqn:Hk.
  - rewrite (Hskip ran name d Hk). cbn [fst snd].
    split; [apply Hsame|]. split; [auto|]. split; [auto|].
    split; [intros _ ran' name'; now apply Hskip|].
    split; [|discriminate].
    intros _ _ ran' name'. now rewrite Hskip.
  - remember (seedDefaultData ran phone name d) as seeded eqn:Hs.
    unfold seedDefaultData in Hs. pose proof Hk as Hk'. unfold known_operator in Hk'.
    destruct (ran SeedSelectOperator); cbn [negb] in Hs.
    2:{ subst seeded. cbn [fst snd]. split; [apply Hsame|].
        repeat split; intros; discriminate. }
    destruct (find _ (operators d)); [discriminate|].
    destruct (ran SeedInsertOperator); cbn [negb] in Hs.
    2:{ subst seeded. cbn [fst snd]. split; [apply Hsame|].
        repeat split; intros; discriminate. }
    specialize (Hin d [] Hk).
    destruct (ran SeedInsertRoute); cbn [negb] in Hs; subst seeded; cbn [fst snd].
    + split; [|split; [|split; [|split; [|split]]]].
      * repeat split. do 2 eexists. split; reflexivity.
      * intros _. exact Hin.
      * discriminate.
      * intros _ ran' name'. apply Hskip. exact Hin.
      * intros _ _ ran' name'. rewrite Hskip; [reflexivity | exact Hin].
      * intros _ _. split; [apply lowest_id_app_some|].
        do 2 eexists. cbn [operators routes set_operators set_routes].
        split; [apply in_or_app; right; now left|].
        split; [apply in_or_app; right; now left|]. split; reflexivity.
    + split; [|split; [|split; [|split; [|split]]]]; try discriminate.
      * repeat split. exists [Operator.mk (next_id 0 (map Operator.id (operators d)))
                                          (env_or name "Default Operator")
                                          (env_or phone "1234567890") 1], [].
        cbn. now rewrite app_nil_r.
      * intros _ _ ran' name'. rewrite Hskip; [reflexivity | exact Hin].
Qed.

(** ** The booking endpoints *)

Lemma responses_app a b : responses (a ++ b) = responses a ++ responses b.
Proof. apply filter_app. Qed.

Lemma responses_silent more : Forall not_respond more -> responses more = [].
Proof.
  induction 1 as [|e l He _ IH]; [reflexivity|].
  cbn. destruct e; cbn in *; [contradiction | exact IH ..].
Qed.

Lemma settles_respond status body codes :
  In status codes -> settles (emit (Respond status body)) codes.
Proof.
  intros Hin w. exists [Respond status body]. split; [reflexivity|].
  cbn. exists status, body. now split.
Qed.

Lemma settles_bind {A} (m : M A) (k : A -> M unit) codes :
  ensures m (appends not_respond) ->
  (forall a, settles (k a) codes) ->
  settles (bind m k) codes.
Proof.
  intros Hm Hk w. unfold bind.
  destruct (Hm w) as (m1 & H1 & F1). destruct (m w) as [[a|e] w1]; cbn [snd] in H1.
  - destruct (Hk a w1) as (m2 & H2 & Hr). exists (m1 ++ m2). split.
    + now rewrite H2, H1, app_assoc.
    + rewrite responses_app, (responses_silent _ F1). exact Hr.
  - exists m1. split; [exact H1|]. cbn. now apply responses_silent.
Qed.

Lemma try_settles (m : M unit) line body codes :
  settles m codes -> In 500 codes ->
  answers_once
    (try_catch m (fun _ => console_error line ;; emit (Respond 500 body))) codes.
Proof.
  intros Hm H500 w. unfold try_catch.
  destruct (Hm w) as (more & Ht & Hr). destruct (m w) as [[[]|e] w1]; cbn [fst snd] in *.
  - split; [reflexivity|]. destruct Hr as (status & b & Hr & Hin).
    exists more, status, b. now repeat split.
  - split; [reflexivity|].
    exists (more ++ [ConsoleError line; Respond 500 body]), 500, body.
    split; [|split; [|exact H500]].
    + cbn. rewrite Ht, <- !app_assoc. reflexivity.
    + now rewrite responses_app, Hr.
Qed.

Ltac silent :=
  unfold getBookingOrLatestPending, given; unfold_handlers;
  frame_with (appends_refl not_respond) (appends_trans not_respond).

Ltac settle :=
  repeat first
    [ apply settles_respond; cbn; tauto
    | apply settles_bind; [ solve [silent] | intros ? ]
    | match goal with
      | |- settles (match ?x with _ => _ end) _ => destruct x
      end ].

(** X15.  Each of the three booking endpoints answers every request exactly
    once, whatever the storage engine and the provider do, and never lets
    an error escape: create with 200, 201, 400, 404 or 500; confirm and
    reject with 200, 400, 404 or 500. *)
Theorem booking_endpoints_answer_once :
  forall (E : env),
    (forall req, answers_once (post_booking_create E req) [200; 201; 400; 404; 500]) /\
    (forall req, answers_once (post_booking_confirm E req) [200; 400; 404; 500]) /\
    (forall req, answers_once (post_booking_reject E req) [200; 400; 404; 500]).
Proof.
  intros E. split; [|split]; intros req.
  - unfold post_booking_create. apply try_settles; [|cbn; tauto].
    unfold create_for_route. cbn zeta. settle.
  - unfold post_booking_confirm. apply try_settles; [|cbn; tauto]. settle.
  - unfold post_booking_reject. apply try_settles; [|cbn; tauto]. settle.
Qed.

(** ** What is posted to the provider *)

Section Said.

Variable E : env.
Variable P : event -> Prop.
Hypothesis P_respond : forall status body, P (Respond status body).
Hypothesis P_log : forall line, P (ConsoleLog line).
Hypothesis P_error : forall line, line <> "WhatsApp API Error" -> P (ConsoleError line).
Hypothesis P_send : forall p t, ensures (sendMessage E p t) (appends P).

(** Every operation only appends events that [P] allows; the log line of
    a failed POST is written by [sendMessage] alone. *)
Lemma step_appends op : forall w, appends P w (step E op w).
Proof.
  assert (forall status body, ensures (emit (Respond status body)) (appends P)) as Hr
      by (intros; apply emit_appends, P_respond).
  assert (forall line, ensures (emit (ConsoleLog line)) (appends P)) as Hl
      by (intros; apply emit_appends, P_log).
  assert (forall line, line <> "WhatsApp API Error" ->
                       ensures (emit (ConsoleError line)) (appends P)) as He
      by (intros; now apply emit_appends, P_error).
  intros w.
  destruct op as [body|req|req|req|]; cbn [step]; as_ensures;
    unfold_endpoints; unfold_handlers;
    repeat first
      [ apply Hr | apply Hl | apply He; discriminate | apply P_send
      | apply db_run_appends
      | apply (ensures_ret _ (appends_refl P))
      | apply (ensures_throw _ (appends_refl P))
      | apply (ensures_deref _ (appends_refl P))
      | apply (ensures_db_get _ (appends_refl P))
      | apply (ensures_bind _ (appends_trans P)); [ | intros ? ]
      | apply (ensures_try _ (appends_trans P)); [ | intros ? ]
      | apply (ensures_for_each _ (appends_refl P) (appends_trans P)); intros ?
      | match goal with
        | |- ensures (match ?x with _ => _ end) _ => destruct x
        end ].
Qed.

End Said.

Lemma sendMessage_sound E p t : ensures (sendMessage E p t) (appends (sound_post E)).
Proof.
  unfold sendMessage, console_error.
  destruct (unset (ACCESS_TOKEN E)) eqn:Ht; [apply (ensures_throw _ (appends_refl _))|].
  destruct (unset (PHONE_NUMBER_ID E)) eqn:Hp; [apply (ensures_throw _ (appends_refl _))|].
  destruct (negb (JsString.nonempty p)) eqn:Hn; [apply (ensures_throw _ (appends_refl _))|].
  apply negb_false_iff in Hn.
  cbn zeta. destruct (api_ok E _ _).
  - apply emit_appends. cbn. repeat split; auto. now exists p.
  - apply (ensures_bind _ (appends_trans _)).
    + apply emit_appends. cbn. now split.
    + intros ?. apply (ensures_throw _ (appends_refl _)).
Qed.

(** X16.  Whatever an operation does (an event delivery, a call of a
    booking endpoint, a firing of the schedule), the trace only grows, and
    every POST that reaches the provider, whether the provider takes it (the
    message is delivered) or the POST fails (sendMessage logs 'WhatsApp API
    Error'), is made with the access token and the phone number id set.  A
    delivered message goes to the normal form of a non-empty number, on
    which normalising again changes nothing. *)
Theorem posts_are_credentialed_and_normalised :
  forall (E : env) (op : operation) (w : world),
  exists more,
    w_trace (step E op w) = w_trace w ++ more /\
    (forall to text,
        In (WaPost to text) more ->
        unset (ACCESS_TOKEN E) = false /\ unset (PHONE_NUMBER_ID E) = false /\
        (exists phoneNumber,
            JsString.nonempty phoneNumber = true /\
            to = normalizePhoneNumber phoneNumber) /\
        normalizePhoneNumber to = to) /\
    (In (ConsoleError "WhatsApp API Error") more ->
     unset (ACCESS_TOKEN E) = false /\ unset (PHONE_NUMBER_ID E) = false).
Proof.
  intros E op w.
  destruct (step_appends E (sound_post E)) with (op := op) (w := w)
    as (more & Ht & Hall); try (intros; exact I).
  { intros line Hline Heq. contradiction. }
  { apply sendMessage_sound. }
  exists more. split; [exact Ht|].
  rewrite Forall_forall in Hall. split.
  - intros to text Hin. destruct (Hall _ Hin) as (Htok & Hid & p & Hp & ->).
    repeat split; auto; [now exists p|].
    unfold normalizePhoneNumber. apply strip_fixed. apply strip_clean.
  - intros Hin. exact (Hall _ Hin eq_refl).
Qed.

(** ** Whom the reminder sweep writes to *)

Ltac appended :=
  cbn; split;
  [ eexists; split;
    [ rewrite <- ?app_assoc; first [ reflexivity | symmetry; apply app_nil_r ]
    | cbn; repeat constructor; auto ]
  | auto ].

Lemma remind_posts E d sel b w :
  In b sel -> routes (w_db w) = routes d ->
  appends (sweep_event d sel) w (snd (remind E b w)) /\
  routes (w_db (snd (remind E b w))) = routes d.
Proof.
  intros Hin Hroutes.
  assert (select_route (Booking.route_id b) (w_db w) =
          select_route (Booking.route_id b) d) as Hsel
      by (unfold select_route; now rewrite Hroutes).
  unfold remind, Route_findById, try_catch, bind, db_get.
  destruct (db_ok E (SelectRouteById (Booking.route_id b))); [|appended].
  rewrite Hsel.
  destruct (select_route (Booking.route_id b) d) as [r|] eqn:Hr; [|appended].
  unfold sendMessage.
  destruct (unset (ACCESS_TOKEN E)); [appended|].
  destruct (unset (PHONE_NUMBER_ID E)); [appended|].
  destruct (negb (JsString.nonempty (Booking.customer_phone b))); [appended|].
  cbn zeta. destruct (api_ok E _ _); [|appended].
  cbn [emit fst snd w_db w_trace].
  unfold MessageLog_create, bind, db_run, insert_message_log.
  cbn [w_db w_trace].
  destruct (db_ok E (InsertMessageLog (Some (Booking.id b)) "reminder")); [|appended].
  destruct (select_booking (Booking.id b) (w_db w)); [|appended].
  unfold db_get. cbn [w_db w_trace].
  destruct (db_ok E (SelectMessageLogById _)); appended.
Qed.

Lemma remind_loop_posts E d sel l :
  (forall b, In b l -> In b sel) ->
  forall w, routes (w_db w) = routes d ->
            appends (sweep_event d sel) w (snd (for_each l (remind E) w)).
Proof.
  induction l as [|x l IH]; intros Hsub w Hroutes.
  - apply appends_refl.
  - cbn [for_each]. destruct (remind_total E x w) as [w1 Hw1].
    rewrite (bind_ok _ _ _ _ _ Hw1).
    destruct (remind_posts E d sel x w) as [Ha Hr]; [apply Hsub; now left | exact Hroutes |].
    rewrite Hw1 in Ha, Hr. cbn [snd] in Ha, Hr.
    eapply appends_trans; [exact Ha|].
    apply IH; [|exact Hr]. intros b Hb. apply Hsub. now right.
Qed.

(** X17.  A firing of the schedule posts nothing but reminders, and only
    for bookings that the database held before the firing as 'confirmed',
    without a message_logs row of type 'reminder', and inside the window of
    the reminder query: the departure, as SQLite's datetime() reads the
    journey date and the route's departure time, lies between the readings
    of the two strings the code builds from the current time and from the
    time six hours later (each the UTC date followed by the local time of
    day, so that the window is the coming six hours only where local time
    is UTC).  Each reminder goes to the booking's customer, number
    normalised, and quotes the route row of the booking. *)
Theorem sweep_posts_only_due_reminders :
  forall (E : env) (w : world),
  exists more,
    w_trace (step E Tick w) = w_trace w ++ more /\
    forall to text,
      In (WaPost to text) more ->
      exists b r,
        text = Reminder b r /\
        In b (bookings (w_db w)) /\
        Booking.status b = "confirmed" /\
        has_reminder_log (w_db w) (Booking.id b) = false /\
        between (departure E (w_db w) b)
                (datetime E (time_str E (now E)))
                (datetime E (time_str E (now E + six_hours))) = true /\
        select_route (Booking.route_id b) (w_db w) = Some r /\
        to = normalizePhoneNumber (Booking.customer_phone b).
Proof.
  intros E w.
  set (sel := bookings_needing_reminders E (now E) (w_db w)).
  assert (appends (sweep_event (w_db w) sel) w (step E Tick w)) as (more & Ht & Hall).
  { cbn [step]. unfold run_scheduled_jobs, scheduled_jobs. cbn [for_each snd].
    unfold reminder_job, sendReminders, findBookingsNeedingReminders.
    unfold bind at 1. unfold try_catch, bind, db_get.
    destruct (db_ok E SelectBookingsNeedingReminders).
    2:{ cbn. eexists. split; [reflexivity|]. repeat constructor. }
    cbn [w_db]. fold sel.
    pose proof (remind_loop_posts E (w_db w) sel sel (fun b H => H) w eq_refl) as Hloop.
    destruct sel as [|x l] eqn:Hsel; [apply appends_refl|].
    cbn [List.length Nat.eqb].
    destruct (for_each (x :: l) (remind E) w) as [[[]|e] w1]; cbn [snd] in Hloop |- *.
    - exact Hloop.
    - eapply appends_trans; [exact Hloop|].
      cbn. eexists. split; [reflexivity|]. repeat constructor. }
  exists more. split; [exact Ht|].
  intros to text Hin. rewrite Forall_forall in Hall. specialize (Hall _ Hin).
  destruct text; try contradiction.
  destruct Hall as (Hb & Hr & Hto).
  apply bookings_needing_reminders_spec in Hb. destruct Hb as [Hb Hneeds].
  unfold needs_reminder in Hneeds.
  apply andb_true_iff in Hneeds as [Hneeds Hbetween].
  apply andb_true_iff in Hneeds as [Hconf Hno].
  exists b, r. repeat split; auto.
  - now apply String.eqb_eq in Hconf.
  - unfold no_reminder in Hno. apply negb_true_iff in Hno. exact Hno.
Qed.

(** ** The decision endpoints on their edges *)

(** X18.  POST /booking/confirm and POST /booking/reject with a booking_id:
    when the lookup runs and finds no booking of that id the answer is 404,
    when it finds a booking whose status is not 'pending' the answer is
    400; in both cases nothing else happens: the database is as it was and
    nothing is posted or logged. *)
Theorem decision_endpoints_refuse :
  forall (E : env) (req : decision_request) (w : world) (id : Z),
    req_booking_id req = Some id -> id <> 0 ->
    db_ok E (SelectBookingById id) = true ->
    (select_booking id (w_db w) = None ->
     snd (post_booking_confirm E req w) =
     mkWorld (w_db w)
             (w_trace w ++ [Respond 404 "No pending bookings found for confirmation"]) /\
     snd (post_booking_reject E req w) =
     mkWorld (w_db w)
             (w_trace w ++ [Respond 404 "No pending bookings found for rejection"])) /\
    (forall b,
        select_booking id (w_db w) = Some b -> Booking.status b <> "pending" ->
        snd (post_booking_confirm E req w) =
        mkWorld (w_db w) (w_trace w ++ [Respond 400 "Booking is not in pending status"]) /\
        snd (post_booking_reject E req w) =
        mkWorld (w_db w) (w_trace w ++ [Respond 400 "Booking is not in pending status"])).
Proof.
  intros E req w id Hid Hnz Hdb.
  apply Z.eqb_neq in Hnz.
  assert (getBookingOrLatestPending E (req_booking_id req) w =
          (Ok (select_booking id (w_db w)), w)) as Hget.
  { unfold getBookingOrLatestPending. rewrite Hid, Hnz.
    unfold Booking_findById. now apply db_get_ok. }
  split.
  - intros Hnone. unfold post_booking_confirm, post_booking_reject.
    rewrite !(try_bind_ok _ _ _ _ _ _ Hget), Hnone. split; reflexivity.
  - intros b Hsome Hst. unfold post_booking_confirm, post_booking_reject.
    rewrite !(try_bind_ok _ _ _ _ _ _ Hget), Hsome.
    unfold is_pending. apply String.eqb_neq in Hst. rewrite Hst.
    split; reflexivity.
Qed.

Lemma decision_endpoints_refuse_witness :
  snd (post_booking_reject Example.fair (mkDecision None (Some 1))
         (Example.deliveries Example.fair
            [Example.text_from Example.customer "BOOK";
             Example.text_from Example.operator "YES"] Example.world0)) =
  mkWorld
    (w_db (Example.deliveries Example.fair
             [Example.text_from Example.customer "BOOK";
              Example.text_from Example.operator "YES"] Example.world0))
    (w_trace (Example.deliveries Example.fair
                [Example.text_from Example.customer "BOOK";
                 Example.text_from Example.operator "YES"] Example.world0)
     ++ [Respond 400 "Booking is not in pending status"]).
Proof.
  destruct (decision_endpoints_refuse Example.fair (mkDecision None (Some 1))
              (Example.deliveries Example.fair
                 [Example.text_from Example.customer "BOOK";
                  Example.text_from Example.operator "YES"] Example.world0) 1)
    as [_ H].
  - reflexivity.
  - discriminate.
  - reflexivity.
  - destruct (H (Booking.mk 1 (Some "Customer") "919876543210" 1 "2024-01-16" 1
                            "confirmed" 1705287600)) as [_ Hr].
    + vm_compute. reflexivity.
    + discriminate.
    + exact Hr.
Defined.

(** The shape shared by the two decision endpoints, up to the text for the
    customer: the status is written first, and a failure of that text
    leaves it written. *)
Lemma decision_then_failed_notice E st oid w b r line1 line2 body
      (T : Booking.t -> Route.t -> wa_text)
      (A : M unit) (B : Booking.t -> M unit) (K : Booking.t -> Route.t -> M unit) :
  db_healthy E ->
  fst (getBookingOrLatestPending E oid w) = Ok (Some b) ->
  Booking.status b = "pending" ->
  select_route (Booking.route_id b) (w_db w) = Some r ->
  can_send E (Booking.customer_phone b) (T b r) = false ->
  let w' :=
    snd (try_catch
           (booking <- getBookingOrLatestPending E oid ;;
            match booking with
            | None => A
            | Some booking =>
                if negb (is_pending booking) then B booking
                else
                  updatedBooking <- Booking_updateStatus E (Booking.id booking) st ;;
                  match updatedBooking with
                  | None => emit (Respond 500 "Failed to update booking status")
                  | Some _ =>
                      console_log line1 ;;
                      route <- Route_findById E (Booking.route_id booking) ;;
                      match route with
                      | None => emit (Respond 404 "Route not found for booking")
                      | Some route =>
                          sendMessage E (Booking.customer_phone booking) (T booking route) ;;
                          K booking route
                      end
                  end
            end)
           (fun _ => console_error line2 ;; emit (Respond 500 body)) w) in
  w_db w' = set_bookings (w_db w) (set_status (Booking.id b) st (bookings (w_db w)))
                         (seq_bookings (w_db w)) /\
  exists more,
    w_trace w' = w_trace w ++ more /\ Forall not_post more /\
    responses more = [Respond 500 body].
Proof.
  intros HE Hget Hst Hroute Hsend. cbn zeta.
  destruct (getBookingOrLatestPending_reads E oid w) as (res & Hres & Hin).
  rewrite Hres in Hget. cbn [fst] in Hget. subst res.
  specialize (Hin b eq_refl).
  destruct (Booking_updateStatus_ok E st w b HE Hin) as [b' Hupd].
  rewrite (try_bind_ok _ _ _ _ _ _ Hres).
  unfold is_pending. rewrite Hst. cbn [String.eqb Ascii.eqb Bool.eqb negb].
  rewrite (try_bind_ok _ _ _ _ _ _ Hupd).
  unfold console_log. erewrite try_bind_ok by reflexivity.
  unfold Route_findById.
  erewrite try_bind_ok by (apply db_get_ok; apply HE).
  cbn [w_db w_trace].
  change (select_route (Booking.route_id b) (set_bookings _ _ _))
    with (select_route (Booking.route_id b) (w_db w)).
  rewrite Hroute.
  match goal with
  | |- context [try_catch _ _ ?w2] =>
      destruct (sendMessage_fails E (Booking.customer_phone b) (T b r) w2 Hsend)
        as (e & more & Hfail & Hnp & Hnr)
  end.
  rewrite (try_bind_step _ _ _ _ _ _ Hfail).
  cbn. split; [reflexivity|].
  exists ([ConsoleLog line1] ++ more ++ [ConsoleError line2; Respond 500 body]).
  split; [now rewrite <- !app_assoc|]. split.
  - apply Forall_app. split; [repeat constructor|].
    apply Forall_app. split; [exact Hnp | repeat constructor].
  - rewrite !responses_app, Hnr. reflexivity.
Qed.

(** X19.  The decision endpoints write the status before they tell the
    customer.  When the endpoint's lookup returns a pending booking whose
    route exists, with the storage engine working, and the text to the
    customer does not get through (a credential is not set, the booking has
    no phone number, or the provider refuses the POST), the booking is left
    'confirmed' (or 'rejected'): the answer is 500, nothing is posted, and no
    message_logs row is written. *)
Theorem decision_is_kept_when_notice_fails :
  forall (E : env) (req : decision_request) (w : world) (b : Booking.t) (r : Route.t),
    db_healthy E ->
    fst (getBookingOrLatestPending E (req_booking_id req) w) = Ok (Some b) ->
    Booking.status b = "pending" ->
    select_route (Booking.route_id b) (w_db w) = Some r ->
    (can_send E (Booking.customer_phone b) (BookingConfirmed b r) = false ->
     let w' := snd (post_booking_confirm E req w) in
     bookings (w_db w') = set_status (Booking.id b) "confirmed" (bookings (w_db w)) /\
     In (Booking.with_status "confirmed" b) (bookings (w_db w')) /\
     message_logs (w_db w') = message_logs (w_db w) /\
     exists more,
       w_trace w' = w_trace w ++ more /\ Forall not_post more /\
       responses more =
       [Respond 500 "Internal server error while confirming booking"]) /\
    (can_send E (Booking.customer_phone b) (BookingRejected b r) = false ->
     let w' := snd (post_booking_reject E req w) in
     bookings (w_db w') = set_status (Booking.id b) "rejected" (bookings (w_db w)) /\
     In (Booking.with_status "rejected" b) (bookings (w_db w')) /\
     message_logs (w_db w') = message_logs (w_db w) /\
     exists more,
       w_trace w' = w_trace w ++ more /\ Forall not_post more /\
       responses more =
       [Respond 500 "Internal server error while rejecting booking"]).
Proof.
  intros E req w b r HE Hget Hst Hroute.
  assert (In b (bookings (w_db w))) as Hin.
  { destruct (getBookingOrLatestPending_reads E (req_booking_id req) w)
      as (res & Hres & Hin).
    rewrite Hres in Hget. cbn [fst] in Hget. subst res. now apply Hin. }
  assert (forall st, In (Booking.with_status st b)
                        (set_status (Booking.id b) st (bookings (w_db w)))) as Hset.
  { intros st. unfold set_status. apply in_map_iff. exists b.
    now rewrite Z.eqb_refl. }
  split; intros Hsend; cbn zeta.
  - unfold post_booking_confirm.
    destruct (decision_then_failed_notice E "confirmed" (req_booking_id req) w b r
                "Booking confirmed" "Error confirming booking"
                "Internal server error while confirming booking"
                BookingConfirmed
                (emit (Respond 404 "No pending bookings found for confirmation"))
                (fun _ => emit (Respond 400 "Booking is not in pending status"))
                (fun booking route =>
                   MessageLog_create E (Some (Booking.id booking)) "confirmation" ;;
                   (if given (req_operator_phone req)
                    then sendMessage E (body_or_empty (req_operator_phone req))
                           (ConfirmedNotice (Booking.id booking))
                    else ret tt) ;;
                   console_log "Booking confirmation sent to customer" ;;
                   emit (Respond 200 "Booking confirmed successfully"))
                HE Hget Hst Hroute Hsend) as (Hdb & Hmore).
    rewrite Hdb. cbn [bookings message_logs set_bookings].
    repeat split; auto.
  - unfold post_booking_reject.
    destruct (decision_then_failed_notice E "rejected" (req_booking_id req) w b r
                "Booking rejected" "Error rejecting booking"
                "Internal server error while rejecting booking"
                BookingRejected
                (emit (Respond 404 "No pending bookings found for rejection"))
                (fun _ => emit (Respond 400 "Booking is not in pending status"))
                (fun booking route =>
                   MessageLog_create E (Some (Booking.id booking)) "rejection" ;;
                   (if given (req_operator_phone req)
                    then sendMessage E (body_or_empty (req_operator_phone req))
                           (RejectedNotice (Booking.id booking))
                    else ret tt) ;;
                   console_log "Booking rejection sent to customer" ;;
                   emit (Respond 200 "Booking rejected successfully"))
                HE Hget Hst Hroute Hsend) as (Hdb & Hmore).
    rewrite Hdb. cbn [bookings message_logs set_bookings].
    repeat split; auto.
Qed.

Lemma decision_is_kept_when_notice_fails_witness :
  map Booking.status
      (bookings
         (w_db (snd (post_booking_confirm Example.offline (mkDecision None None)
                       (Example.deliveries Example.fair
                          [Example.text_from Example.customer "BOOK"]
                          Example.world0))))) = ["confirmed"].
Proof.
  destruct (decision_is_kept_when_notice_fails Example.offline (mkDecision None None)
              (Example.deliveries Example.fair
                 [Example.text_from Example.customer "BOOK"] Example.world0)
              (Booking.mk 1 (Some "Customer") "919876543210" 1 "2024-01-16" 1
                          "pending" 1705287600)
              (Route.mk 1 1 "City A" "City B" "08:00" 500))
    as [H _].
  - intros q. reflexivity.
  - vm_compute. reflexivity.
  - reflexivity.
  - vm_compute. reflexivity.
  - destruct (H eq_refl) as (Hb & _). rewrite Hb. vm_compute. reflexivity.
Defined.

(** ** POST /booking/create *)



(** ** Commands on their edges *)

Lemma normalizePhoneNumber_twice p :
  normalizePhoneNumber (normalizePhoneNumber p) = normalizePhoneNumber p.
Proof. unfold normalizePhoneNumber. apply strip_fixed, strip_clean. Qed.

(** X21.  A known operator's text when no booking is pending, with the
    storage engine working: whatever the text says, the database is left as
    it was; on YES (or NO) the operator is told that there is no pending
    booking to confirm (or to reject), and nothing else is posted. *)
Theorem operator_decision_without_pending :
  forall (E : env) (body : wa_body) (w : world)
         (message : wa_message) (sender : string),
    first_inbound body = Some message ->
    kind message = Some "text" ->
    from message = Some sender ->
    known_operator (w_db w) (normalizePhoneNumber sender) = true ->
    db_healthy E ->
    latest_pending (w_db w) = None ->
    let phone := normalizePhoneNumber sender in
    let w' := snd (post_webhook E body w) in
    w_db w' = w_db w /\
    (command_of E message = "YES" ->
     can_send E phone NoPendingToConfirm = true ->
     w_trace w' =
     w_trace w ++ [Respond 200 "OK"; ConsoleLog "Received message";
                   ConsoleLog "No pending bookings found for confirmation";
                   WaPost phone NoPendingToConfirm]) /\
    (command_of E message = "NO" ->
     can_send E phone NoPendingToReject = true ->
     w_trace w' =
     w_trace w ++ [Respond 200 "OK"; ConsoleLog "Received message";
                   ConsoleLog "No pending bookings found for rejection";
                   WaPost phone NoPendingToReject]).
Proof.
  intros E body w message sender Hin Hkind Hfrom Hop HE Hnone. cbn zeta.
  rewrite (post_webhook_text E body w message sender Hin Hkind Hfrom (HE _)).
  rewrite Hop. unfold handleOperatorMessage.
  assert (forall p, confirmBooking E p (acknowledged w) =
                    try_catch (console_log "No pending bookings found for confirmation" ;;
                               sendMessage E p NoPendingToConfirm)
                      (fun _ => console_error "Error confirming booking" ;;
                                (TRY sendMessage E p ConfirmError
                                 CATCH (fun _ => console_error "Error notifying operator")))
                      (acknowledged w)) as Hyes.
  { intros p. unfold confirmBooking, getLatestPendingBooking.
    erewrite try_bind_ok by (apply db_get_ok; apply HE).
    cbn [acknowledged w_db]. now rewrite Hnone. }
  assert (forall p, rejectBooking E p (acknowledged w) =
                    try_catch (console_log "No pending bookings found for rejection" ;;
                               sendMessage E p NoPendingToReject)
                      (fun _ => console_error "Error rejecting booking" ;;
                                (TRY sendMessage E p RejectError
                                 CATCH (fun _ => console_error "Error notifying operator")))
                      (acknowledged w)) as Hno.
  { intros p. unfold rejectBooking, getLatestPendingBooking.
    erewrite try_bind_ok by (apply db_get_ok; apply HE).
    cbn [acknowledged w_db]. now rewrite Hnone. }
  split; [|split].
  - transitivity (w_db (acknowledged w)); [|apply acknowledged_db].
    destruct (command_of E message =? "YES")%string;
      [|destruct (command_of E message =? "NO")%string].
    + rewrite Hyes.
      match goal with
      | |- w_db (snd (?m ?w1)) = w_db ?w1 => change (same_db w1 (snd (m w1)))
      end.
      as_ensures. unfold_handlers. frame_with same_db_refl same_db_trans.
    + rewrite Hno.
      match goal with
      | |- w_db (snd (?m ?w1)) = w_db ?w1 => change (same_db w1 (snd (m w1)))
      end.
      as_ensures. unfold_handlers. frame_with same_db_refl same_db_trans.
    + reflexivity.
  - intros -> Hsend. cbn [String.eqb Ascii.eqb Bool.eqb]. rewrite Hyes.
    unfold console_log. erewrite try_bind_ok by reflexivity.
    unfold try_catch. rewrite (sendMessage_ok _ _ _ _ Hsend).
    cbn. rewrite normalizePhoneNumber_twice, <- !app_assoc. reflexivity.
  - intros -> Hsend. cbn [String.eqb Ascii.eqb Bool.eqb]. rewrite Hno.
    unfold console_log. erewrite try_bind_ok by reflexivity.
    unfold try_catch. rewrite (sendMessage_ok _ _ _ _ Hsend).
    cbn. rewrite normalizePhoneNumber_twice, <- !app_assoc. reflexivity.
Qed.

Lemma operator_decision_without_pending_witness :
  w_trace (snd (post_webhook Example.fair
                  (Example.text_from Example.operator " yes ") Example.world0)) =
  [Respond 200 "OK"; ConsoleLog "Received message";
   ConsoleLog "No pending bookings found for confirmation";
   WaPost "1234567890" NoPendingToConfirm].
Proof.
  destruct (operator_decision_without_pending Example.fair
              (Example.text_from Example.operator " yes ") Example.world0
              (mkMessage (Some "1234567890") (Some "text") (Some " yes "))
              "1234567890") as (_ & H & _).
  - reflexivity.
  - reflexivity.
  - reflexivity.
  - reflexivity.
  - intros q. reflexivity.
  - reflexivity.
  - apply H; reflexivity.
Defined.

Lemma Booking_create_ok E name phone rid date count st w r :
  db_healthy E -> select_route rid (w_db w) = Some r ->
  let lastID := next_id (seq_bookings (w_db w)) (map Booking.id (bookings (w_db w))) in
  let row := Booking.mk lastID name phone rid date count st (now E / 1000) in
  Booking_create E name phone rid date count st w =
  (Ok (Some row),
   mkWorld (set_bookings (w_db w) (bookings (w_db w) ++ [row]) lastID) (w_trace w)).
Proof.
  intros HE Hr. cbn zeta. unfold Booking_create.
  erewrite bind_ok.
  2:{ apply db_run_ok; [apply HE|]. unfold insert_booking. rewrite Hr. reflexivity. }
  unfold Booking_findById. rewrite db_get_ok by apply HE.
  unfold select_booking. cbn [w_db bookings set_bookings].
  match goal with
  | |- context [find _ (?bs ++ [?row])] =>
      pose proof (find_appended_booking bs row) as F
  end.
  cbn [Booking.id] in F. rewrite F; [reflexivity|].
  intros b Hb. apply next_id_above. now apply in_map.
Qed.

(** X22.  A customer's BOOK, with the storage engine working and a route
    present.  When no operator is registered under OPERATOR_PHONE (or its
    default), the booking is inserted and that is all: no message_logs row,
    and nothing is posted, not even to the customer.  When one is, and the
    provider accepts both texts: the booking is inserted, the operator is
    sent the request, a 'notification' row for the booking is logged, and
    the customer is sent the receipt, in this order. *)
Theorem book_notifies_operator_then_customer :
  forall (E : env) (w : world) (phone : string) (route details : Route.t),
    db_healthy E ->
    lowest_id (routes (w_db w)) = Some route ->
    select_route (Route.id route) (w_db w) = Some details ->
    let row := Booking.mk (next_id (seq_bookings (w_db w))
                                   (map Booking.id (bookings (w_db w))))
                          (Some "Customer") phone (Route.id route) (tomorrow_iso E) 1
                          "pending" (now E / 1000) in
    let operatorPhone := env_or (OPERATOR_PHONE E) "1234567890" in
    let w' := snd (createBooking E phone w) in
    (known_operator (w_db w) operatorPhone = false ->
     bookings (w_db w') = bookings (w_db w) ++ [row] /\
     message_logs (w_db w') = message_logs (w_db w) /\
     w_trace w' =
     w_trace w ++ [ConsoleLog "Booking created";
                   ConsoleError "No operator found. Cannot send notification."]) /\
    (forall operator,
        find (fun o => (Operator.phone_number o =? operatorPhone)%string)
             (operators (w_db w)) = Some operator ->
        can_send E (Operator.phone_number operator)
                 (NewBookingRequest row phone (tomorrow_iso E) details) = true ->
        can_send E phone (BookingRequestReceived row (tomorrow_iso E) details) = true ->
        bookings (w_db w') = bookings (w_db w) ++ [row] /\
        message_logs (w_db w') =
        message_logs (w_db w) ++
        [MessageLog.mk (next_id (seq_message_logs (w_db w))
                                (map MessageLog.id (message_logs (w_db w))))
                       (Some (Booking.id row)) "notification" (now E)] /\
        w_trace w' =
        w_trace w ++
        [ConsoleLog "Booking created";
         WaPost (normalizePhoneNumber (Operator.phone_number operator))
                (NewBookingRequest row phone (tomorrow_iso E) details);
         WaPost (normalizePhoneNumber phone)
                (BookingRequestReceived row (tomorrow_iso E) details);
         ConsoleLog "Booking notification sent to operator and customer"]).
Proof.
  intros E w phone route details HE Hroute Hdetails. cbn zeta.
  pose proof (Booking_create_ok E (Some "Customer") phone (Route.id route)
                (tomorrow_iso E) 1 "pending" w details HE Hdetails) as Hcreate.
  cbn zeta in Hcreate.
  assert (forall (k : option Route.t -> M unit) (h : js_error -> M unit),
             snd (try_catch (route <- getFirstRoute E ;; k route) h w) =
             snd (try_catch (k (Some route)) h w)) as Hfirst.
  { intros k h. unfold getFirstRoute.
    erewrite try_bind_ok by (apply db_get_ok; apply HE). now rewrite Hroute. }
  remember (snd (createBooking E phone w)) as w' eqn:Hw'.
  unfold createBooking in Hw'. rewrite Hfirst in Hw'. cbn zeta in Hw'.
  rewrite (try_bind_ok _ _ _ _ _ _ Hcreate) in Hw'. cbn [deref] in Hw'.
  erewrite try_bind_ok in Hw' by reflexivity.
  unfold console_log at 1 in Hw'. erewrite try_bind_ok in Hw' by reflexivity.
  unfold Operator_findByPhone in Hw'.
  erewrite try_bind_ok in Hw' by (apply db_get_ok; apply HE).
  cbn [w_db w_trace operators set_bookings] in Hw'.
  split.
  - unfold known_operator.
    destruct (find _ (operators (w_db w))) as [o|]; [discriminate|]. intros _.
    subst w'. cbn. rewrite <- !app_assoc. repeat split; auto.
  - intros operator Hop Hsend1 Hsend2. rewrite Hop in Hw'.
    unfold Route_findById in Hw'.
    erewrite try_bind_ok in Hw' by (apply db_get_ok; apply HE).
    cbn [w_db] in Hw'.
    change (select_route (Route.id route) (set_bookings _ _ _))
      with (select_route (Route.id route) (w_db w)) in Hw'.
    rewrite Hdetails in Hw'. cbn [deref] in Hw'.
    erewrite try_bind_ok in Hw' by reflexivity.
    erewrite try_bind_ok in Hw' by (apply sendMessage_ok; exact Hsend1).
    match type of Hw' with
    | context [try_catch (bind (MessageLog_create E (Some ?i) ?t) ?k) ?h ?w2] =>
        destruct (MessageLog_create_ok E i t w2
                    (Booking.mk i (Some "Customer") phone (Route.id route)
                                (tomorrow_iso E) 1 "pending" (now E / 1000)) HE)
          as [res Hlog]
    end.
    { unfold select_booking. cbn [w_db bookings set_bookings Booking.id].
      match goal with
      | |- find _ (?bs ++ [?r]) = _ => pose proof (find_appended_booking bs r) as F
      end.
      cbn [Booking.id] in F. apply F.
      intros b Hb. apply next_id_above. now apply in_map. }
    rewrite (try_bind_ok _ _ _ _ _ _ Hlog) in Hw'.
    erewrite try_bind_ok in Hw' by (apply sendMessage_ok; exact Hsend2).
    subst w'. cbn. rewrite <- !app_assoc. repeat split; auto.
Qed.

Lemma book_notifies_operator_then_customer_witness :
  map (fun l => (MessageLog.booking_id l, MessageLog.type l))
      (message_logs
         (w_db (snd (createBooking Example.fair "919876543210" Example.world0)))) =
  [(Some 1, "notification")].
Proof.
  destruct (book_notifies_operator_then_customer Example.fair Example.world0
              "919876543210"
              (Route.mk 1 1 "City A" "City B" "08:00" 500)
              (Route.mk 1 1 "City A" "City B" "08:00" 500)) as [_ H].
  - intros q. reflexivity.
  - reflexivity.
  - reflexivity.
  - destruct (H (Operator.mk 1 "Default Operator" "1234567890" 1))
      as (_ & Hl & _); [reflexivity ..|].
    rewrite Hl. reflexivity.
Defined.

(** ** The sweep reaches every due booking *)

Lemma remind_loop_keeps E l :
  forall w,
    let w' := snd (for_each l (remind E) w) in
    bookings (w_db w') = bookings (w_db w) /\
    routes (w_db w') = routes (w_db w) /\
    (forall i, has_reminder_log (w_db w) i = true ->
               has_reminder_log (w_db w') i = true) /\
    (forall e, In e (w_trace w) -> In e (w_trace w')).
Proof.
  induction l as [|x l IH]; intros w; cbn zeta.
  - cbn. repeat split; auto.
  - cbn [for_each]. destruct (remind_total E x w) as [w1 Hw1].
    rewrite (bind_ok _ _ _ _ _ Hw1).
    pose proof (remind_effect E x w) as Hx. cbn zeta in Hx. rewrite Hw1 in Hx.
    cbn [snd] in Hx. destruct Hx as (Hb1 & Hr1 & Hlog1 & _).
    destruct (remind_posts E (w_db w) [x] x w (or_introl eq_refl) eq_refl)
      as [(more & Ht & _) _].
    rewrite Hw1 in Ht. cbn [snd] in Ht.
    destruct (IH w1) as (Hb2 & Hr2 & Hlog2 & Ht2).
    split; [congruence|]. split; [congruence|]. split; [auto|].
    intros e He. apply Ht2. rewrite Ht. apply in_or_app. now left.
Qed.

Lemma remind_gets_through E b r w :
  db_healthy E ->
  In b (bookings (w_db w)) ->
  select_route (Booking.route_id b) (w_db w) = Some r ->
  can_send E (Booking.customer_phone b) (Reminder b r) = true ->
  let w' := snd (remind E b w) in
  In (WaPost (normalizePhoneNumber (Booking.customer_phone b)) (Reminder b r))
     (w_trace w') /\
  has_reminder_log (w_db w') (Booking.id b) = true.
Proof.
  intros HE Hin Hroute Hsend. cbn zeta.
  destruct (select_booking_of_In _ _ Hin) as [x Hx].
  remember (snd (remind E b w)) as w' eqn:Hw'.
  unfold remind, Route_findById in Hw'.
  erewrite try_bind_ok in Hw' by (apply db_get_ok; apply HE).
  rewrite Hroute in Hw'.
  erewrite try_bind_ok in Hw' by (apply sendMessage_ok; exact Hsend).
  match type of Hw' with
  | context [try_catch (bind (MessageLog_create E (Some ?i) ?t) ?k) ?h ?w2] =>
      destruct (MessageLog_create_ok E i t w2 x HE Hx) as [res Hlog]
  end.
  rewrite (try_bind_ok _ _ _ _ _ _ Hlog) in Hw'.
  subst w'. cbn. split.
  - apply in_or_app. left. apply in_or_app. right. now left.
  - unfold has_reminder_log. cbn. rewrite existsb_app. cbn.
    rewrite Z.eqb_refl. cbn. now rewrite orb_true_r.
Qed.

Lemma remind_loop_reaches E b r l :
  db_healthy E ->
  can_send E (Booking.customer_phone b) (Reminder b r) = true ->
  In b l ->
  forall w,
    In b (bookings (w_db w)) ->
    select_route (Booking.route_id b) (w_db w) = Some r ->
    let w' := snd (for_each l (remind E) w) in
    In (WaPost (normalizePhoneNumber (Booking.customer_phone b)) (Reminder b r))
       (w_trace w') /\
    has_reminder_log (w_db w') (Booking.id b) = true.
Proof.
  intros HE Hsend. induction l as [|x l IH]; intros Hl w Hin Hroute; [destruct Hl|].
  cbn zeta. cbn [for_each]. destruct (remind_total E x w) as [w1 Hw1].
  rewrite (bind_ok _ _ _ _ _ Hw1).
  destruct Hl as [->|Hl].
  - pose proof (remind_gets_through E b r w HE Hin Hroute Hsend) as H.
    cbn zeta in H. rewrite Hw1 in H. cbn [snd] in H. destruct H as [Ht Hlog].
    destruct (remind_loop_keeps E l w1) as (_ & _ & Hlogs & Htrace).
    split; [now apply Htrace | now apply Hlogs].
  - pose proof (remind_effect E x w) as Hx. cbn zeta in Hx. rewrite Hw1 in Hx.
    cbn [snd] in Hx. destruct Hx as (Hb1 & Hr1 & _).
    apply (IH Hl w1).
    + now rewrite Hb1.
    + unfold select_route in *. now rewrite Hr1.
Qed.

(** X23.  With the storage engine working, a firing of the schedule
    reaches every booking the reminder query selects: each one whose route
    exists and whose text the provider accepts is posted its reminder and
    gets its 'reminder' row in message_logs, whatever happens to the
    reminders of the other bookings of the sweep. *)
Theorem sweep_reaches_every_due_booking :
  forall (E : env) (w : world) (b : Booking.t) (r : Route.t),
    db_healthy E ->
    In b (bookings_needing_reminders E (now E) (w_db w)) ->
    select_route (Booking.route_id b) (w_db w) = Some r ->
    can_send E (Booking.customer_phone b) (Reminder b r) = true ->
    let w' := step E Tick w in
    In (WaPost (normalizePhoneNumber (Booking.customer_phone b)) (Reminder b r))
       (w_trace w') /\
    has_reminder_log (w_db w') (Booking.id b) = true.
Proof.
  intros E w b r HE Hsel Hroute Hsend. cbn zeta.
  assert (In b (bookings (w_db w))) as Hin
      by now apply bookings_needing_reminders_spec in Hsel.
  pose proof (remind_loop_reaches E b r _ HE Hsend Hsel w Hin Hroute) as Hloop.
  cbn zeta in Hloop.
  cbn [step]. unfold run_scheduled_jobs, scheduled_jobs. cbn [for_each snd].
  unfold reminder_job, sendReminders, findBookingsNeedingReminders.
  unfold bind at 1. unfold try_catch, bind, db_get. rewrite (HE _).
  cbn [w_db].
  destruct (bookings_needing_reminders E (now E) (w_db w)) as [|x l] eqn:Hl;
    [destruct Hsel|].
  cbn [List.length Nat.eqb].
  destruct (for_each (x :: l) (remind E) w) as [[[]|e] w1]; cbn [snd] in Hloop |- *.
  - exact Hloop.
  - cbn. destruct Hloop as [Ht Hlog]. split; [|exact Hlog].
    apply in_or_app. now left.
Qed.

Lemma sweep_reaches_every_due_booking_witness :
  has_reminder_log
    (w_db (step Example.fair Tick
             (Example.deliveries Example.the_day_before
                [Example.text_from Example.customer "BOOK";
                 Example.text_from Example.operator "YES"] Example.world0)))
    1 = true.
Proof.
  destruct (sweep_reaches_every_due_booking Example.fair
              (Example.deliveries Example.the_day_before
                 [Example.text_from Example.customer "BOOK";
                  Example.text_from Example.operator "YES"] Example.world0)
              (Booking.mk 1 (Some "Customer") "919876543210" 1 "2024-01-15" 1
                          "confirmed" 1705201200)
              (Route.mk 1 1 "City A" "City B" "08:00" 500)) as [_ H].
  - intros q. reflexivity.
  - vm_compute. now left.
  - vm_compute. reflexivity.
  - vm_compute. reflexivity.
  - exact H.
Defined.

(** ** The decision endpoints when everything works *)

Lemma decision_round E st ty oid op w b r line1 line2 line3 body500 body200
      (T : Booking.t -> Route.t -> wa_text) (N : Z -> wa_text)
      (A : M unit) (B : Booking.t -> M unit) :
  db_healthy E ->
  fst (getBookingOrLatestPending E oid w) = Ok (Some b) ->
  Booking.status b = "pending" ->
  select_route (Booking.route_id b) (w_db w) = Some r ->
  can_send E (Booking.customer_phone b) (T b r) = true ->
  (given op = true -> can_send E (body_or_empty op) (N (Booking.id b)) = true) ->
  let w' :=
    snd (try_catch
           (booking <- getBookingOrLatestPending E oid ;;
            match booking with
            | None => A
            | Some booking =>
                if negb (is_pending booking) then B booking
                else
                  updatedBooking <- Booking_updateStatus E (Booking.id booking) st ;;
                  match updatedBooking with
                  | None => emit (Respond 500 "Failed to update booking status")
                  | Some _ =>
                      console_log line1 ;;
                      route <- Route_findById E (Booking.route_id booking) ;;
                      match route with
                      | None => emit (Respond 404 "Route not found for booking")
                      | Some route =>
                          sendMessage E (Booking.customer_phone booking) (T booking route) ;;
                          MessageLog_create E (Some (Booking.id booking)) ty ;;
                          (if given op
                           then sendMessage E (body_or_empty op) (N (Booking.id booking))
                           else ret tt) ;;
                          console_log line3 ;;
                          emit (Respond 200 body200)
                      end
                  end
            end)
           (fun _ => console_error line2 ;; emit (Respond 500 body500)) w) in
  bookings (w_db w') = set_status (Booking.id b) st (bookings (w_db w)) /\
  message_logs (w_db w') =
  message_logs (w_db w) ++
  [MessageLog.mk (next_id (seq_message_logs (w_db w))
                          (map MessageLog.id (message_logs (w_db w))))
                 (Some (Booking.id b)) ty (now E)] /\
  w_trace w' =
  w_trace w ++
  [ConsoleLog line1; WaPost (normalizePhoneNumber (Booking.customer_phone b)) (T b r)] ++
  (if given op then [WaPost (normalizePhoneNumber (body_or_empty op)) (N (Booking.id b))]
   else []) ++
  [ConsoleLog line3; Respond 200 body200].
Proof.
  intros HE Hget Hst Hroute Hsend Hnotice. cbn zeta.
  destruct (getBookingOrLatestPending_reads E oid w) as (res & Hres & Hin).
  rewrite Hres in Hget. cbn [fst] in Hget. subst res.
  specialize (Hin b eq_refl).
  destruct (Booking_updateStatus_ok E st w b HE Hin) as [b' Hupd].
  destruct (select_booking_after_update (w_db w) b st (seq_bookings (w_db w)) Hin)
    as [x Hx].
  match goal with
  | |- context [snd ?t] => remember (snd t) as w' eqn:Hw'
  end.
  rewrite (try_bind_ok _ _ _ _ _ _ Hres) in Hw'.
  unfold is_pending in Hw'. rewrite Hst in Hw'.
  cbn [String.eqb Ascii.eqb Bool.eqb negb] in Hw'.
  rewrite (try_bind_ok _ _ _ _ _ _ Hupd) in Hw'.
  unfold console_log at 1 in Hw'. erewrite try_bind_ok in Hw' by reflexivity.
  unfold Route_findById in Hw'.
  erewrite try_bind_ok in Hw' by (apply db_get_ok; apply HE).
  cbn [w_db w_trace] in Hw'.
  change (select_route (Booking.route_id b) (set_bookings _ _ _))
    with (select_route (Booking.route_id b) (w_db w)) in Hw'.
  rewrite Hroute in Hw'.
  erewrite try_bind_ok in Hw' by (apply sendMessage_ok; exact Hsend).
  match type of Hw' with
  | context [try_catch (bind (MessageLog_create E (Some ?i) ?t) ?k) ?h ?w2] =>
      destruct (MessageLog_create_ok E i t w2 x HE Hx) as [res Hlog]
  end.
  rewrite (try_bind_ok _ _ _ _ _ _ Hlog) in Hw'.
  destruct (given op).
  - erewrite try_bind_ok in Hw' by (apply sendMessage_ok; now apply Hnotice).
    subst w'. cbn. rewrite <- !app_assoc. repeat split; auto.
  - subst w'. cbn. rewrite <- !app_assoc. repeat split; auto.
Qed.

(** X24.  POST /booking/confirm and POST /booking/reject when everything
    works: the lookup returns a pending booking (the one of the given id, or
    the latest pending one), its route exists, the storage engine runs every
    statement and the provider accepts the texts.  Then the booking's status
    is set to 'confirmed' (or 'rejected'), the customer is sent the
    decision, one message_logs row of type 'confirmation' (or 'rejection')
    is appended for the booking, the operator is sent a notice exactly when
    operator_phone was given, and the answer is 200. *)
Theorem decision_endpoints_round :
  forall (E : env) (req : decision_request) (w : world) (b : Booking.t) (r : Route.t),
    db_healthy E ->
    fst (getBookingOrLatestPending E (req_booking_id req) w) = Ok (Some b) ->
    Booking.status b = "pending" ->
    select_route (Booking.route_id b) (w_db w) = Some r ->
    let log type :=
      MessageLog.mk (next_id (seq_message_logs (w_db w))
                             (map MessageLog.id (message_logs (w_db w))))
                    (Some (Booking.id b)) type (now E) in
    let to_customer text :=
      WaPost (normalizePhoneNumber (Booking.customer_phone b)) text in
    let to_operator text :=
      if given (req_operator_phone req)
      then [WaPost (normalizePhoneNumber (body_or_empty (req_operator_phone req))) text]
      else [] in
    (can_send E (Booking.customer_phone b) (BookingConfirmed b r) = true ->
     (given (req_operator_phone req) = true ->
      can_send E (body_or_empty (req_operator_phone req))
               (ConfirmedNotice (Booking.id b)) = true) ->
     let w' := snd (post_booking_confirm E req w) in
     bookings (w_db w') = set_status (Booking.id b) "confirmed" (bookings (w_db w)) /\
     message_logs (w_db w') = message_logs (w_db w) ++ [log "confirmation"] /\
     w_trace w' =
     w_trace w ++
     [ConsoleLog "Booking confirmed"; to_customer (BookingConfirmed b r)] ++
     to_operator (ConfirmedNotice (Booking.id b)) ++
     [ConsoleLog "Booking confirmation sent to customer";
      Respond 200 "Booking confirmed successfully"]) /\
    (can_send E (Booking.customer_phone b) (BookingRejected b r) = true ->
     (given (req_operator_phone req) = true ->
      can_send E (body_or_empty (req_operator_phone req))
               (RejectedNotice (Booking.id b)) = true) ->
     let w' := snd (post_booking_reject E req w) in
     bookings (w_db w') = set_status (Booking.id b) "rejected" (bookings (w_db w)) /\
     message_logs (w_db w') = message_logs (w_db w) ++ [log "rejection"] /\
     w_trace w' =
     w_trace w ++
     [ConsoleLog "Booking rejected"; to_customer (BookingRejected b r)] ++
     to_operator (RejectedNotice (Booking.id b)) ++
     [ConsoleLog "Booking rejection sent to customer";
      Respond 200 "Booking rejected successfully"]).
Proof.
  intros E req w b r HE Hget Hst Hroute. cbn zeta. split; intros Hsend Hnotice.
  - unfold post_booking_confirm.
    apply (decision_round E "confirmed" "confirmation" (req_booking_id req)
             (req_operator_phone req) w b r
             "Booking confirmed" "Error confirming booking"
             "Booking confirmation sent to customer"
             "Internal server error while confirming booking"
             "Booking confirmed successfully"
             BookingConfirmed ConfirmedNotice
             (emit (Respond 404 "No pending bookings found for confirmation"))
             (fun _ => emit (Respond 400 "Booking is not in pending status"))
             HE Hget Hst Hroute Hsend Hnotice).
  - unfold post_booking_reject.
    apply (decision_round E "rejected" "rejection" (req_booking_id req)
             (req_operator_phone req) w b r
             "Booking rejected" "Error rejecting booking"
             "Booking rejection sent to customer"
             "Internal server error while rejecting booking"
             "Booking rejected successfully"
             BookingRejected RejectedNotice
             (emit (Respond 404 "No pending bookings found for rejection"))
             (fun _ => emit (Respond 400 "Booking is not in pending status"))
             HE Hget Hst Hroute Hsend Hnotice).
Qed.

Lemma decision_endpoints_round_witness :
  map Booking.status
      (bookings
         (w_db (snd (post_booking_reject Example.fair (mkDecision None (Some 1))
                       (Example.deliveries Example.fair
                          [Example.text_from Example.customer "BOOK"]
                          Example.world0))))) = ["rejected"].
Proof.
  destruct (decision_endpoints_round Example.fair (mkDecision None (Some 1))
              (Example.deliveries Example.fair
                 [Example.text_from Example.customer "BOOK"] Example.world0)
              (Booking.mk 1 (Some "Customer") "919876543210" 1 "2024-01-16" 1
                          "pending" 1705287600)
              (Route.mk 1 1 "City A" "City B" "08:00" 500))
    as [_ H].
  - intros q. reflexivity.
  - vm_compute. reflexivity.
  - reflexivity.
  - vm_compute. reflexivity.
  - destruct H as (Hb & _).
    + reflexivity.
    + discriminate.
    + rewrite Hb. vm_compute. reflexivity.
Defined.
